(** * goroam2obs: a shallow embedding of [main.go] and its properties

    The program converts a Roam Research JSON export into Obsidian
    markdown files in three passes:
    - pass 1 normalises daily-note page titles and indexes every block by
      its uid,
    - pass 2 expands every page once to learn which blocks are the target
      of a block reference,
    - pass 3 expands every page again and writes one file per page.

    Go strings are byte strings: they are modelled by [string] (a list of
    8-bit [ascii] characters).  Go maps are modelled by stdpp's [gmap] and
    [gset].  The two unbounded [for] loops of the program are modelled by
    fuel-indexed functions that answer [None] when the fuel runs out. *)

From Stdlib Require Import ZArith NArith Ascii String List Bool Lia.
From stdpp Require Import gmap strings list fin_maps.

Local Open Scope nat_scope.

(** stdpp blocks the reduction of [String.append] by [simpl]; the proofs
    below compute with concrete prefixes, so it is allowed again here. *)
#[local] Arguments String.append !s1 s2 /.

(** ** Go strings *)

Module GoString.

(** [len(s)] *)
Definition len (s : string) : nat := String.length s.

(** [s[:hi]] *)
Fixpoint slice_to (s : string) (hi : nat) {struct hi} : string :=
  match hi, s with
  | S hi', String c s' => String c (slice_to s' hi')
  | _, _ => EmptyString
  end.

(** [s[lo:]] *)
Fixpoint slice_from (s : string) (lo : nat) {struct lo} : string :=
  match lo, s with
  | S lo', String _ s' => slice_from s' lo'
  | _, _ => s
  end.

(** [s[lo:hi]] *)
Definition slice (s : string) (lo hi : nat) : string :=
  slice_to (slice_from s lo) (hi - lo).

(** [strings.Repeat(s, count)] for a non-negative [count]. *)
Fixpoint Repeat (s : string) (count : nat) : string :=
  match count with
  | O => EmptyString
  | S n => s +:+ Repeat s n
  end.

(** [strings.ContainsRune(s, c)] for an ASCII rune [c]. *)
Fixpoint ContainsRune (s : string) (c : ascii) : bool :=
  match s with
  | EmptyString => false
  | String d s' => Ascii.eqb d c || ContainsRune s' c
  end.

(** [strings.ReplaceAll(s, old, new)] where [old] is the one-byte string
    made of [c]. *)
Fixpoint ReplaceAll1 (s : string) (c : ascii) (new : string) : string :=
  match s with
  | EmptyString => EmptyString
  | String d s' =>
      if Ascii.eqb d c then new +:+ ReplaceAll1 s' c new
      else String d (ReplaceAll1 s' c new)
  end.

(** [strings.Join(elems, sep)] *)
Fixpoint Join (elems : list string) (sep : string) : string :=
  match elems with
  | [] => EmptyString
  | [e] => e
  | e :: rest => e +:+ sep +:+ Join rest sep
  end.

(** [strings.HasPrefix(s, p)], returning what follows the prefix. *)
Fixpoint strip_prefix (p s : string) : option string :=
  match p, s with
  | EmptyString, _ => Some s
  | String a p', String b s' =>
      if Ascii.eqb a b then strip_prefix p' s' else None
  | String _ _, EmptyString => None
  end.

Definition byte_val (c : ascii) : N := N_of_ascii c.

Definition in_range (lo hi : N) (c : ascii) : bool :=
  ((lo <=? byte_val c) && (byte_val c <=? hi))%N.

(** The character classes [[0-9]] and [[a-z]]. *)
Definition is_digit : ascii -> bool := in_range 48 57.
Definition is_lower : ascii -> bool := in_range 97 122.

Definition newline : ascii := Ascii.ascii_of_N 10.

End GoString.

Import GoString.

(** ** UTF-8 decoding, as [unicode/utf8.DecodeRuneInString] measures it

    The regular expressions of the program use [.], which consumes one
    rune.  Go's [regexp] decodes the input with [DecodeRuneInString]: an
    invalid or truncated encoding is one rune ([RuneError]) of width 1. *)

Module UTF8.

(** Continuation bytes lie in [0x80, 0xBF]. *)
Definition is_cont : ascii -> bool := in_range 128 191.

(** For a leading byte: the size of the encoding and the range accepted
    for the second byte (the tables [first] and [acceptRanges]);
    [None] for ASCII and for invalid leading bytes, both of width 1. *)
Definition first (c : ascii) : option (nat * (N * N)) :=
  let b := byte_val c in
  if (b <? 194)%N then None
  else if (b <=? 223)%N then Some (2, (128, 191)%N)
  else if (b =? 224)%N then Some (3, (160, 191)%N)
  else if (b <=? 236)%N then Some (3, (128, 191)%N)
  else if (b =? 237)%N then Some (3, (128, 159)%N)
  else if (b <=? 239)%N then Some (3, (128, 191)%N)
  else if (b =? 240)%N then Some (4, (144, 191)%N)
  else if (b <=? 243)%N then Some (4, (128, 191)%N)
  else if (b =? 244)%N then Some (4, (128, 143)%N)
  else None.

(** The width of the rune that [s] starts with; 0 for the empty string. *)
Definition rune_width (s : string) : nat :=
  match s with
  | EmptyString => 0
  | String c0 rest =>
      match first c0 with
      | None => 1
      | Some (sz, (lo, hi)) =>
          match rest with
          | String c1 rest1 =>
              if negb (in_range lo hi c1) then 1
              else if sz <=? 2 then 2
              else match rest1 with
                   | String c2 rest2 =>
                       if negb (is_cont c2) then 1
                       else if sz <=? 3 then 3
                       else match rest2 with
                            | String c3 _ =>
                                if negb (is_cont c3) then 1 else 4
                            | EmptyString => 1
                            end
                   | EmptyString => 1
                   end
          | EmptyString => 1
          end
      end
  end.

(** [.{n}]: the number of bytes taken by [n] runes, none of them a
    newline; [None] when the input ends or a newline comes first. *)
Fixpoint any_runes (n : nat) (s : string) : option nat :=
  match n with
  | O => Some 0
  | S n' =>
      match s with
      | EmptyString => None
      | String c _ =>
          if Ascii.eqb c newline then None
          else
            let w := rune_width s in
            match any_runes n' (slice_from s w) with
            | Some k => Some (w + k)
            | None => None
            end
      end
  end.

End UTF8.

(** ** The five regular expressions

    Each expression is hand-compiled to a matcher that follows Go's
    leftmost-first (backtracking priority) semantics: a search tries the
    start positions from left to right, a greedy repetition prefers one
    more iteration, and an alternation prefers its leftmost branch.  Every
    expression starts with an ASCII literal, so a match can only start on
    a rune boundary and scanning byte by byte finds the same match. *)

Module Regexp.
Import UTF8.

(** The leftmost start position at which [here] matches, with its
    result. [i] is the offset of [s] in the searched text. *)
Fixpoint find_leftmost {A} (here : string -> option A) (s : string)
    (i : nat) : option (nat * A) :=
  match here s with
  | Some a => Some (i, a)
  | None =>
      match s with
      | EmptyString => None
      | String _ s' => find_leftmost here s' (S i)
      end
  end.

(** [cls+] followed by the continuation [k], greedy with backtracking:
    the number of characters the repetition took and the result of [k]. *)
Fixpoint plus_then {A} (cls : ascii -> bool) (k : string -> option A)
    (s : string) : option (nat * A) :=
  match s with
  | String c s' =>
      if cls c then
        match plus_then cls k s' with
        | Some (n, a) => Some (S n, a)
        | None =>
            match k s' with
            | Some a => Some (1, a)
            | None => None
            end
        end
      else None
  | EmptyString => None
  end.

(** [cls{n}] followed by [k]. *)
Fixpoint times_then {A} (n : nat) (cls : ascii -> bool)
    (k : string -> option A) (s : string) : option A :=
  match n with
  | O => k s
  | S n' =>
      match s with
      | String c s' => if cls c then times_then n' cls k s' else None
      | EmptyString => None
      end
  end.

(** A literal followed by [k]. *)
Definition lit_then {A} (l : string) (k : string -> option A)
    (s : string) : option A :=
  match strip_prefix l s with
  | Some rest => k rest
  | None => None
  end.

(** [$] without the multi-line flag: the end of the text. *)
Definition at_end (s : string) : option unit :=
  match s with
  | EmptyString => Some tt
  | String _ _ => None
  end.

(** *** reBlockEmbed, reBlockMentions, reBlockRef

    [({{embed: \(\()(.{9})(\)\)}})], [({{mentions: \(\()(.{9})(\)\)}})]
    and [(\(\()(.{9})(\)\))]: an opening literal, nine runes other than a
    newline, a closing literal. *)
Record block_re := { re_open : string; re_close : string }.

Definition reBlockEmbed : block_re :=
  {| re_open := "{{embed: (("; re_close := "))}}" |}.
Definition reBlockMentions : block_re :=
  {| re_open := "{{mentions: (("; re_close := "))}}" |}.
Definition reBlockRef : block_re :=
  {| re_open := "(("; re_close := "))" |}.

(** A match of [re] at the start of [s]: the byte width of group 2. *)
Definition block_here (re : block_re) (s : string) : option nat :=
  lit_then (re_open re)
    (fun rest =>
       match any_runes 9 rest with
       | Some w =>
           lit_then (re_close re) (fun _ => Some w) (slice_from rest w)
       | None => None
       end) s.

(** [re.FindStringSubmatchIndex(s)]: the eight offsets of the leftmost
    match (the match and its three groups), or [None] for [nil]. *)
Definition FindStringSubmatchIndex (re : block_re) (s : string)
    : option (list nat) :=
  match find_leftmost (block_here re) s 0 with
  | Some (i, w) =>
      let a := i + len (re_open re) in
      let b := a + w in
      let e := b + len (re_close re) in
      Some [i; e; i; a; a; b; b; e]
  | None => None
  end.

(** *** reDayLink

    [(\[\[)([January|February|...|December [0-9]+[a-z]{2}, [0-9]{4})(\]\])].
    The second group opens with a bracket expression, not with an
    alternation: it is the set of the characters written between the
    brackets, that is the letters of the month names, [|], the space,
    [[] and the digits. *)
Definition dayLink_class_text : string :=
  "January|February|March|April|May|June|July|August|September|October|November|December [".

Definition dayLink_class (c : ascii) : bool :=
  ContainsRune dayLink_class_text c || is_digit c.

(** [[a-z]{2}, [0-9]{4}\]\]], what follows the repetition. *)
Definition dayLink_tail (s : string) : option unit :=
  times_then 2 is_lower
    (lit_then ", "
       (times_then 4 is_digit
          (lit_then "]]" (fun _ => Some tt)))) s.

(** A match at the start of [s]: the byte width of group 2. *)
Definition dayLink_here (s : string) : option nat :=
  lit_then "[["
    (fun rest =>
       match plus_then dayLink_class dayLink_tail rest with
       | Some (n, _) => Some (n + 8)
       | None => None
       end) s.

Definition reDayLink_FindStringSubmatchIndex (s : string)
    : option (list nat) :=
  match find_leftmost dayLink_here s 0 with
  | Some (i, w) =>
      let a := i + 2 in
      let b := a + w in
      let e := b + 2 in
      Some [i; e; i; a; a; b; b; e]
  | None => None
  end.

(** *** reDaily

    [^(January|...|December) ([0-9]+)[a-z]{2}, ([0-9]{4})$] *)
Definition longMonthNames : list string :=
  ["January"; "February"; "March"; "April"; "May"; "June"; "July";
   "August"; "September"; "October"; "November"; "December"].

(** [ ([0-9]+)[a-z]{2}, ([0-9]{4})$] after the month: the width of the
    day and the text of the year. *)
Definition daily_rest (s : string) : option (nat * string) :=
  lit_then " "
    (plus_then is_digit
       (times_then 2 is_lower
          (lit_then ", "
             (fun y =>
                times_then 4 is_digit
                  (fun r =>
                     match at_end r with
                     | Some _ => Some (slice_to y 4)
                     | None => None
                     end) y)))) s.

(** The alternation, leftmost branch first: the submatches (whole text,
    month, day, year) of the match anchored at both ends. *)
Fixpoint daily_alt (months : list string) (s : string)
    : option (list string) :=
  match months with
  | [] => None
  | m :: months' =>
      match lit_then m daily_rest s with
      | Some (n, y) =>
          Some [s; m; slice s (len m + 1) (len m + 1 + n); y]
      | None => daily_alt months' s
      end
  end.

(** [reDaily.FindAllStringSubmatch(s, -1)]: the expression is anchored
    at the start of the text, so there is at most one match. *)
Definition reDaily_FindAllStringSubmatch (s : string)
    : list (list string) :=
  match daily_alt longMonthNames s with
  | Some row => [row]
  | None => []
  end.

End Regexp.

Import Regexp.

(** ** Errors and results *)

(** The error values of the program: [*time.ParseError] (layout, value,
    layout element, value element, message), [errors.New], the wrapping
    [fmt.Errorf(format, args..., err)] with its format and its string
    arguments kept apart, and the errors of the operating system. *)
Inductive error : Type :=
| ParseError (layout value layoutElem valueElem message : string)
| ErrorString (msg : string)
| Errorf (format : string) (args : list string) (err : error)
| OSError (op : string) (path : string).

(** A Go result [(T, error)]. *)
Inductive res (A : Type) : Type :=
| Ok (a : A)
| Err (e : error).
Arguments Ok {A} a.
Arguments Err {A} e.

(** ** The part of package [time] that [parseRoamDate] uses *)

Module Time.

(** A [time.Time] built by [Parse] from a year, a month and a day that
    passed the range check denotes that civil date at midnight UTC;
    [Format] reads the same three numbers back. *)
Record t := Date { year : Z; month : Z; day : Z }.

Definition isDigit (s : string) (i : nat) : bool :=
  match String.get i s with
  | Some c => is_digit c
  | None => false
  end.

Definition digit_at (s : string) (i : nat) : Z :=
  match String.get i s with
  | Some c => (Z.of_N (byte_val c) - 48)%Z
  | None => 0%Z
  end.

(** [getnum(s, fixed)]: a one- or two-digit number. *)
Definition getnum (s : string) (fixed : bool) : option (Z * string) :=
  if negb (isDigit s 0) then None
  else if negb (isDigit s 1) then
    if fixed then None else Some (digit_at s 0, slice_from s 1)
  else Some ((digit_at s 0 * 10 + digit_at s 1)%Z, slice_from s 2).

(** [atoi] on an unsigned decimal text. *)
Fixpoint atoi_acc (s : string) (acc : Z) : option Z :=
  match s with
  | EmptyString => Some acc
  | String c s' =>
      if is_digit c
      then atoi_acc s' (acc * 10 + (Z.of_N (byte_val c) - 48))%Z
      else None
  end.

Definition atoi (s : string) : option Z :=
  match s with
  | EmptyString => None
  | _ => atoi_acc s 0%Z
  end.

(** [match(s1, s2)]: equality ignoring ASCII case, for texts of the same
    length. *)
Fixpoint match_fold (s1 s2 : string) : bool :=
  match s1, s2 with
  | String c1 r1, String c2 r2 =>
      (if Ascii.eqb c1 c2 then true
       else
         let l1 := N.lor (byte_val c1) 32 in
         let l2 := N.lor (byte_val c2) 32 in
         (l1 =? l2)%N && (97 <=? l1)%N && (l1 <=? 122)%N)
      && match_fold r1 r2
  | _, _ => true
  end.

(** [lookup(tab, val)]: the index of the first name that [val] starts
    with, and what follows it. *)
Fixpoint lookup (tab : list string) (val : string) (i : Z)
    : option (Z * string) :=
  match tab with
  | [] => None
  | v :: tab' =>
      if (len v <=? len val) && match_fold (slice_to val (len v)) v
      then Some (i, slice_from val (len v))
      else lookup tab' val (i + 1)%Z
  end.

(** [cutspace(s)] *)
Fixpoint cutspace (s : string) : string :=
  match s with
  | String c s' => if Ascii.eqb c " " then cutspace s' else s
  | EmptyString => s
  end.

(** [skip(value, prefix)]; the fuel bounds the loop by the length of
    the prefix, which every iteration shortens. *)
Fixpoint skip_loop (fuel : nat) (value pfx : string) : option string :=
  match pfx with
  | EmptyString => Some value
  | String p0 pfx' =>
      match fuel with
      | O => None
      | S fuel' =>
          if Ascii.eqb p0 " " then
            match value with
            | String v0 _ =>
                if negb (Ascii.eqb v0 " ") then None
                else skip_loop fuel' (cutspace value) (cutspace pfx)
            | EmptyString => skip_loop fuel' (cutspace value) (cutspace pfx)
            end
          else
            match value with
            | String v0 value' =>
                if Ascii.eqb v0 p0 then skip_loop fuel' value' pfx' else None
            | EmptyString => None
            end
      end
  end.

Definition skip (value pfx : string) : option string :=
  skip_loop (len pfx) value pfx.

Definition isLeap (y : Z) : bool :=
  ((y mod 4 =? 0) && (negb (y mod 100 =? 0) || (y mod 400 =? 0)))%Z.

(** [daysIn(m, year)] *)
Definition daysIn (m y : Z) : Z :=
  (if (m =? 2) then (if isLeap y then 29 else 28)
   else if (m =? 4) || (m =? 6) || (m =? 9) || (m =? 11) then 30
   else 31)%Z.

(** The elements of a layout that the program's layouts contain. *)
Inductive std := stdLongMonth | stdUnderDay | stdLongYear.

(** [roamDailyLayout = "January _2 2006"] cut by [nextStdChunk]: each
    element with the literal prefix that precedes it; nothing follows
    the last element. *)
Definition roamDailyLayout : string := "January _2 2006".
Definition roamDailyLayout_chunks : list (string * std) :=
  [("", stdLongMonth); (" ", stdUnderDay); (" ", stdLongYear)].

Definition std_text (e : std) : string :=
  match e with
  | stdLongMonth => "January"
  | stdUnderDay => "_2"
  | stdLongYear => "2006"
  end.

(** What [Parse] collects while it reads the value. *)
Record fields := Fields { f_year : Z; f_month : Z; f_day : Z }.

(** One element of the layout read from the value. *)
Definition parse_std (e : std) (value : string) (f : fields)
    : option (string * fields) :=
  match e with
  | stdLongYear =>
      if (len value <? 4) || negb (isDigit value 0) then None
      else
        match atoi (slice_to value 4) with
        | Some y => Some (slice_from value 4, Fields y (f_month f) (f_day f))
        | None => None
        end
  | stdLongMonth =>
      match lookup longMonthNames value 0%Z with
      | Some (m, rest) =>
          Some (rest, Fields (f_year f) (m + 1)%Z (f_day f))
      | None => None
      end
  | stdUnderDay =>
      let value :=
        match value with
        | String c rest => if Ascii.eqb c " " then rest else value
        | EmptyString => value
        end in
      match getnum value false with
      | Some (d, rest) => Some (rest, Fields (f_year f) (f_month f) d)
      | None => None
      end
  end.

(** The loop of [parse] over the elements of the layout. *)
Fixpoint parse_chunks (avalue : string) (chunks : list (string * std))
    (value : string) (f : fields) : res (string * fields) :=
  match chunks with
  | [] => Ok (value, f)
  | (pfx, e) :: chunks' =>
      match skip value pfx with
      | None => Err (ParseError roamDailyLayout avalue pfx value "")
      | Some value1 =>
          match parse_std e value1 f with
          | None =>
              Err (ParseError roamDailyLayout avalue (std_text e) value1 "")
          | Some (value2, f') => parse_chunks avalue chunks' value2 f'
          end
      end
  end.

(** [quote(s)], the text that an error message shows between double
    quotes: a byte of a rune outside ASCII or below the space is written
    [\xhh], a double quote or a backslash is preceded by a backslash. *)
Definition lowerhex (n : N) : ascii :=
  nth (N.to_nat n) (list_ascii_of_string "0123456789abcdef") "0"%char.

Fixpoint quote_bytes (s : string) : string :=
  match s with
  | EmptyString => EmptyString
  | String c s' =>
      let b := byte_val c in
      if (128 <=? b)%N || (b <? 32)%N then
        String (ascii_of_N 92)
          (String "x" (String (lowerhex (b / 16)) (String (lowerhex (b mod 16))
             (quote_bytes s'))))
      else if (b =? 34)%N || (b =? 92)%N then
        String (ascii_of_N 92) (String c (quote_bytes s'))
      else String c (quote_bytes s')
  end.

Definition quote (s : string) : string :=
  String (ascii_of_N 34) (quote_bytes s +:+ String (ascii_of_N 34) EmptyString).

(** [time.Parse(roamDailyLayout, value)] *)
Definition Parse (value : string) : res t :=
  match parse_chunks value roamDailyLayout_chunks value
          (Fields 0%Z (-1)%Z (-1)%Z) with
  | Err e => Err e
  | Ok (rest, f) =>
      if negb (len rest =? 0) then
        Err (ParseError roamDailyLayout value "" rest
               (": extra text: " +:+ quote rest))
      else if ((f_day f <? 1) || (daysIn (f_month f) (f_year f) <? f_day f))%Z
      then Err (ParseError roamDailyLayout value "" rest ": day out of range")
      else Ok (Date (f_year f) (f_month f) (f_day f))
  end.

Definition digit_char (d : Z) : ascii := ascii_of_N (48 + Z.to_N d)%N.

Fixpoint digits_acc (width : nat) (x : Z) (acc : string) : string :=
  match width with
  | O => acc
  | S w => digits_acc w (x / 10)%Z (String (digit_char (x mod 10)%Z) acc)
  end.

(** [appendInt(b, x, width)] for [0 <= x < 10^width], the only case that
    arises for a parsed year, month and day: [width] decimal digits. *)
Definition appendInt (x : Z) (width : nat) : string :=
  digits_acc width x EmptyString.

(** [t.Format(obsDailyLayout)] with [obsDailyLayout = "2006-01-02"]. *)
Definition Format (d : t) : string :=
  appendInt (year d) 4 +:+ "-" +:+ appendInt (month d) 2 +:+ "-"
    +:+ appendInt (day d) 2.

End Time.

(** ** Date normalisation *)

(** [parseRoamDate]: the normalised text and whether the input is a daily
    title.  On an error Go returns the zero values beside it. *)
Definition rawTitle (row : list string) : string :=
  (* [fmt.Sprintf("%s %s %s", row[1], row[2], row[3])] *)
  nth 1 row EmptyString +:+ " " +:+ nth 2 row EmptyString +:+ " "
    +:+ nth 3 row EmptyString.

Definition parseRoamDate (in_ : string) : res (string * bool) :=
  let match_ := reDaily_FindAllStringSubmatch in_ in
  if negb (length match_ =? 1) then Ok (in_, false)
  else
    let row := nth 0 match_ [] in
    match Time.Parse (rawTitle row) with
    | Err err => Err err
    | Ok t => Ok (Time.Format t, true)
    end.

(** ** Data model *)

(** The fields of a [Page] that travel with a copy of the struct.  A
    [Child] holds its [Page] by value: the copy has its own [Title] and
    [IsDaily], while its [RawChildren] slice shares the backing array of
    the page it was copied from.  The program reads nothing but [Title]
    through such a copy, so the copy is modelled without the slice. *)
Module PageValue.
Record t := mk { Title : string; IsDaily : bool }.
End PageValue.

(** [Child]: a block.  The time stamps, e-mails, emojis and alignment are
    decoded and never read by the passes; they are left out. *)
Module Child.
#[local] Unset Elimination Schemes.
Inductive t : Type :=
  mk { UID : string;
       String : string;
       RawChildren : list t;
       Heading : Z;
       Page : PageValue.t }.

Definition set_Page (c : t) (p : PageValue.t) : t :=
  mk (UID c) (String c) (RawChildren c) (Heading c) p.
End Child.

Module Page.
Record t := mk { Title : string; RawChildren : list Child.t; IsDaily : bool }.

(** [*page], the struct copied. *)
Definition value (p : t) : PageValue.t := PageValue.mk (Title p) (IsDaily p).

Definition set_Title (p : t) (title : string) : t :=
  mk title (RawChildren p) (IsDaily p).
Definition set_IsDaily (p : t) (b : bool) : t :=
  mk (Title p) (RawChildren p) b.
Definition set_RawChildren (p : t) (cs : list Child.t) : t :=
  mk (Title p) cs (IsDaily p).
End Page.

(** The interface [Parent]. *)
Class Parent (P : Type) := Children : P -> list Child.t.
#[export] Instance Page_Parent : Parent Page.t := Page.RawChildren.
#[export] Instance Child_Parent : Parent Child.t := Child.RawChildren.

(** ** Effects *)

(** The file-system calls of pass 3. *)
Inductive fs_op : Type :=
| MkdirAll (dir : string)
| WriteFile (dest : string) (data : string).

(** What the passes change: the set [referencedUID] (a Go map, shared by
    reference), the lines printed on the standard output and the
    file-system calls made so far. *)
Record state := State {
  referencedUID : gset string;
  stdout : list string;
  fs_trace : list fs_op }.

Definition set_referencedUID (st : state) (r : gset string) : state :=
  State r (stdout st) (fs_trace st).

(** [fmt.Println(args...)]: the operands separated by spaces, one line. *)
Definition Println (args : list string) (st : state) : state :=
  State (referencedUID st) (stdout st ++ [Join args " "]) (fs_trace st).

(** The external collaborators: [path/filepath], [os] and the JSON loader.
    A file-system call may fail, depending on the calls made before it. *)
Class OS := {
  filepath_Join : list string -> string;
  filepath_Dir : string -> string;
  os_fail : list fs_op -> fs_op -> option error;
  os_Getwd : res string;
  loadJSON : string -> res (list Page.t) }.

(** A computation that threads the state, may return an error, and may
    run out of fuel ([None]). *)
Definition M (A : Type) : Type := state -> option (res A * state).

Definition ret {A} (a : A) : M A := fun st => Some (Ok a, st).
Definition fail {A} (e : error) : M A := fun st => Some (Err e, st).
Definition bind {A B} (c : M A) (k : A -> M B) : M B :=
  fun st =>
    match c st with
    | None => None
    | Some (Err e, st') => Some (Err e, st')
    | Some (Ok a, st') => k a st'
    end.

#[export] Instance M_ret : MRet M := @ret.
#[export] Instance M_bind : MBind M := fun A B k c => bind c k.

(** A file-system call: recorded when it succeeds. *)
Definition os_call `{OS} (op : fs_op) : M unit :=
  fun st =>
    match os_fail (fs_trace st) op with
    | Some e => Some (Err e, st)
    | None =>
        Some (Ok tt, State (referencedUID st) (stdout st) (fs_trace st ++ [op]))
    end.

(** ** Reference resolution *)

Definition roamDailyLayout : string := Time.roamDailyLayout.
Definition obsDailyLayout : string := "2006-01-02".

(** [m[i]] for the offsets of a match. *)
Definition idx (m : list nat) (i : nat) : nat := nth i m 0.

(** The loop of [replaceDayLinks]. *)
Fixpoint replaceDayLinks (fuel : nat) (update : string)
    : option (res string) :=
  match fuel with
  | O => None
  | S fuel' =>
      match reDayLink_FindStringSubmatchIndex update with
      | None => Some (Ok update)
      | Some m =>
          let date := slice update (idx m 4) (idx m 5) in
          match parseRoamDate date with
          | Err err => Some (Err (Errorf "invalid date %q: %w" [date] err))
          | Ok (obsDate, _) =>
              let head := slice_to update (idx m 0) +:+ "[[" in
              let tail := "]]" +:+ slice_from update (idx m 1) in
              replaceDayLinks fuel' (head +:+ obsDate +:+ tail)
          end
      end
  end.

Definition regexList : list block_re :=
  [reBlockEmbed; reBlockMentions; reBlockRef].

(** The inner loop [for _, re := range regexList] of [replaceBlockRefs]:
    the value of [match] when the loop is left, the text and the state.
    A missing match leaves the loop ([break]); an unknown uid prints the
    diagnostic and goes on with the next expression ([continue]). *)
Fixpoint range_regexList (uidBlock : gmap string Child.t)
    (res_ : list block_re) (match_ : option (list nat)) (update : string)
    (st : state) : option (list nat) * string * state :=
  match res_ with
  | [] => (match_, update, st)
  | re :: res' =>
      match FindStringSubmatchIndex re update with
      | None => (None, update, st)
      | Some m =>
          let uid := slice update (idx m 4) (idx m 5) in
          match uidBlock !! uid with
          | None =>
              range_regexList uidBlock res' (Some m) update
                (Println ["**** did not find uid:"; uid] st)
          | Some child =>
              let st' := set_referencedUID st ({[uid]} ∪ referencedUID st) in
              let head := slice_to update (idx m 0) in
              let replacement :=
                Child.String child +:+ " [[" +:+
                PageValue.Title (Child.Page child) +:+ "#^" +:+
                Child.UID child +:+ "]]" in
              let tail := slice_from update (idx m 1) in
              range_regexList uidBlock res' (Some m)
                (head +:+ replacement +:+ tail) st'
          end
      end
  end.

(** The outer loop of [replaceBlockRefs]: it is left when the inner loop
    ends with [match == nil]. *)
Fixpoint replaceBlockRefs_loop (fuel : nat) (uidBlock : gmap string Child.t)
    (update : string) (st : state) : option (string * state) :=
  match fuel with
  | O => None
  | S fuel' =>
      match range_regexList uidBlock regexList None update st with
      | (None, update', st') => Some (update', st')
      | (Some _, update', st') =>
          replaceBlockRefs_loop fuel' uidBlock update' st'
      end
  end.

Definition replaceBlockRefs (fuel : nat) (s : string)
    (uidBlock : gmap string Child.t) : M string :=
  fun st =>
    match replaceBlockRefs_loop fuel uidBlock s st with
    | None => None
    | Some (update, st') =>
        match replaceDayLinks fuel update with
        | None => None
        | Some r => Some (r, st')
        end
    end.

(** ** Rendering *)

Section Expand.
Variable fuel : nat.
Variable uidBlock : gmap string Child.t.

(** The loop [for _, child := range children] over a computation for
    one child that returns the lines to append. *)
Section Range.
Variable body : Child.t -> M (list string).

Fixpoint range_children (children : list Child.t) : M (list string) :=
  match children with
  | [] => ret []
  | child :: rest =>
      lines1 ← body child;
      lines2 ← range_children rest;
      ret (lines1 ++ lines2)
  end.
End Range.

(** The prefix of a block at a nesting level.  The level is the depth of
    the recursion and [4 * level] stays far below the bound of a Go [int];
    [strings.Repeat] is only called with a positive heading. *)
Definition block_prefix (level : nat) (child : Child.t) : string :=
  let prefix := if 0 <? level then Repeat " " (4 * level) else EmptyString in
  let prefix :=
    if (0 <? Child.Heading child)%Z
    then Repeat "#" (Z.to_nat (Child.Heading child)) +:+ " " +:+ prefix
    else prefix in
  if (0 <? length (Children child)) && (0 <? level)
  then prefix +:+ "* " else prefix.

(** The end of an iteration: the text, its prefix and postfix put
    together, with the continuation lines of a multi-line text indented. *)
Definition block_line (prefix updated postfix : string) : string :=
  let s := prefix +:+ updated +:+ postfix in
  if ContainsRune s newline
  then ReplaceAll1 s newline (String newline prefix) +:+ String newline EmptyString
  else s.

(** One iteration of the loop of [expandChildren]: the line of the
    child, then the lines of its children one level deeper. *)
Fixpoint expandChild (level : nat) (child : Child.t) {struct child}
    : M (list string) :=
  let prefix := block_prefix level child in
  let s := Child.String child in
  fun st =>
    let postfix :=
      if decide (Child.UID child ∈ referencedUID st)
      then " ^" +:+ Child.UID child else EmptyString in
    (updated ← replaceBlockRefs fuel s uidBlock;
     let s := block_line prefix updated postfix in
     expanded ← range_children (expandChild (S level))
                   (Child.RawChildren child);
     ret (s :: expanded)) st.

Definition expandChildren {P} `{Parent P} (parent : P) (level : nat)
    : M (list string) :=
  range_children (expandChild level) (Children parent).

End Expand.

(** ** The three passes *)

(** [collectBlocks]: one iteration stores the child, with a copy of the
    page, under its uid and then collects the children of the child. *)
Fixpoint collectBlock (page : PageValue.t) (uidList : gmap string Child.t)
    (child : Child.t) {struct child} : gmap string Child.t :=
  let child' := Child.set_Page child page in
  fold_left (collectBlock page) (Child.RawChildren child)
    (<[Child.UID child' := child']> uidList).

Definition collectBlocks (uidList : gmap string Child.t) (page : Page.t)
    (children : list Child.t) : gmap string Child.t :=
  fold_left (collectBlock (Page.value page)) children uidList.

(** [parsePageDate(page *Page)]: the title to store and the page that the
    pointer designates, with [IsDaily] set for a daily title. *)
Definition parsePageDate (page : Page.t) : res (string * Page.t) :=
  match parseRoamDate (Page.Title page) with
  | Err err => Err err
  | Ok (update, ok) =>
      Ok (update, if ok then Page.set_IsDaily page true else page)
  end.

(** The loop of [pass1].  [for i, page := range pages] copies the element
    into the variable [page]; [parsePageDate] and [collectBlocks] receive
    the address of this copy, and the only store into the slice is
    [pages[i].Title = title].  The result is the slice as the loop leaves
    it, with the index or the error. *)
Fixpoint pass1_loop (pages : list Page.t) (uidBlock : gmap string Child.t)
    : list Page.t * res (gmap string Child.t) :=
  match pages with
  | [] => ([], Ok uidBlock)
  | page :: rest =>
      match parsePageDate page with
      | Err err => (page :: rest, Err (Errorf "parse page date: %w" [] err))
      | Ok (title, page') =>
          let stored := Page.set_Title page title in
          let uidBlock' := collectBlocks uidBlock page' (Page.RawChildren page') in
          let '(rest', r) := pass1_loop rest uidBlock' in
          (stored :: rest', r)
      end
  end.

Definition pass1 (pages : list Page.t) (st : state)
    : list Page.t * res (gmap string Child.t) * state :=
  let st := Println ["Pass 1: scan all pages"] st in
  let '(pages', r) := pass1_loop pages ∅ in
  (pages', r, st).

(** The loop of [pass2]: every page is expanded for its effect on
    [referencedUID]; the lines are dropped.  (The progress bar of the
    passes writes to the standard error and is left out.) *)
Fixpoint pass2_loop (fuel : nat) (pages : list Page.t)
    (uidBlock : gmap string Child.t) : M unit :=
  match pages with
  | [] => ret tt
  | page :: rest =>
      fun st =>
        match expandChildren fuel uidBlock page 0 st with
        | None => None
        | Some (Err err, st') => Some (Err (Errorf "pass2: %w" [] err), st')
        | Some (Ok _, st') => pass2_loop fuel rest uidBlock st'
        end
  end.

Definition pass2 (fuel : nat) (pages : list Page.t)
    (uidBlock : gmap string Child.t) : M unit :=
  fun st => pass2_loop fuel pages uidBlock (Println ["Pass 2: track blockrefs"] st).

(** [pass3]: a page without a title is skipped; the other pages are
    expanded and written.  The variable [title], the title without its
    double brackets, is computed and not used: the file is named after
    [page.Title]. *)
Fixpoint pass3 `{OS} (fuel : nat) (pages : list Page.t)
    (uidBlock : gmap string Child.t) (outDir : string) : M unit :=
  match pages with
  | [] => ret tt
  | page :: rest =>
      if String.eqb (Page.Title page) EmptyString
      then pass3 fuel rest uidBlock outDir
      else
        let dest :=
          if Page.IsDaily page
          then filepath_Join [outDir; "daily"; Page.Title page +:+ ".md"]
          else filepath_Join [outDir; Page.Title page +:+ ".md"] in
        let dir := filepath_Dir dest in
        _ ← os_call (MkdirAll dir);
        lines ← expandChildren fuel uidBlock page 0;
        let data := Join lines (String newline EmptyString) in
        _ ← os_call (WriteFile dest data);
        pass3 fuel rest uidBlock outDir
  end.

(** ** The driver *)

Record appConfig := AppConfig { input : string; outDir : string }.

Definition Validate `{OS} (ac : appConfig) : res appConfig :=
  if String.eqb (input ac) EmptyString then Err (ErrorString "input is blank")
  else if String.eqb (outDir ac) EmptyString then
    match os_Getwd with
    | Err err => Err err
    | Ok wd => Ok (AppConfig (input ac) wd)
    end
  else Ok ac.

(** The first loop of [run]: every top-level block receives a copy of its
    page. *)
Definition attach_pages (pages : list Page.t) : list Page.t :=
  map (fun page =>
         Page.set_RawChildren page
           (map (fun child => Child.set_Page child (Page.value page))
              (Page.RawChildren page)))
    pages.

Definition initial_state : state := State ∅ [] [].

Definition run `{OS} (fuel : nat) (ac : appConfig)
    : option (res unit * state) :=
  let st := initial_state in
  match Validate ac with
  | Err err => Some (Err (Errorf "invalid config: %w" [] err), st)
  | Ok ac =>
      match loadJSON (input ac) with
      | Err err => Some (Err (Errorf "load JSON: %w" [] err), st)
      | Ok pages =>
          let pages := attach_pages pages in
          match pass1 pages st with
          | (_, Err err, st) => Some (Err (Errorf "pass1: %w" [] err), st)
          | (pages, Ok uidBlock, st) =>
              (* [referencedUID := map[string]struct{}{}] *)
              let st := set_referencedUID st ∅ in
              match pass2 fuel pages uidBlock st with
              | None => None
              | Some (Err err, st) => Some (Err (Errorf "pass2: %w" [] err), st)
              | Some (Ok _, st) => pass3 fuel pages uidBlock (outDir ac) st
              end
          end
      end
  end.

(** ** The rendering as the specification words it

    A second, pure description of the lines of a page, to compare with
    [expandChildren]: the blocks in document order with their nesting
    level, and for each block a line made of the heading marks, the
    indentation, the bullet, the resolved text and the anchor, where the
    anchor is decided by a fixed set of referenced uids. *)

(** The blocks below a parent, depth first, children in their order,
    each with its nesting level. *)
Fixpoint flatten_block (level : nat) (b : Child.t) {struct b}
    : list (nat * Child.t) :=
  (level, b) :: flat_map (flatten_block (S level)) (Child.RawChildren b).

Definition flatten (level : nat) (children : list Child.t)
    : list (nat * Child.t) :=
  flat_map (flatten_block level) children.

(** Every block of the corpus. *)
Definition blocks_of (pages : list Page.t) : list Child.t :=
  flat_map (fun page => map snd (flatten 0 (Children page))) pages.

(** [H] times [#] and a space for a heading level [H > 0]. *)
Definition heading_marks (h : Z) : string :=
  if (0 <? h)%Z then Repeat "#" (Z.to_nat h) +:+ " " else EmptyString.

(** Four spaces per nesting level. *)
Definition indentation (level : nat) : string := Repeat " " (4 * level).

(** The bullet of a nested block that has children. *)
Definition bullet (level : nat) (b : Child.t) : string :=
  match Children b, level with
  | _ :: _, S _ => "* "
  | _, _ => EmptyString
  end.

Definition spec_prefix (level : nat) (b : Child.t) : string :=
  heading_marks (Child.Heading b) +:+ indentation level +:+ bullet level b.

(** The anchor of a block, given the set of the referenced uids. *)
Definition anchor_suffix (referenced : gset string) (uid : string) : string :=
  if decide (uid ∈ referenced) then " ^" +:+ uid else EmptyString.

(** What the resolver does to a text, started in the initial state: the
    rewritten text and the uids it marks, when it returns a text. *)
Definition resolution (fuel : nat) (uidBlock : gmap string Child.t)
    (s : string) : option (string * gset string) :=
  match replaceBlockRefs fuel s uidBlock initial_state with
  | Some (Ok updated, st) => Some (updated, referencedUID st)
  | _ => None
  end.

Definition resolved_text (fuel : nat) (uidBlock : gmap string Child.t)
    (s : string) : string :=
  match resolution fuel uidBlock s with
  | Some (updated, _) => updated
  | None => EmptyString
  end.

Definition resolved_uids (fuel : nat) (uidBlock : gmap string Child.t)
    (s : string) : gset string :=
  match resolution fuel uidBlock s with
  | Some (_, marked) => marked
  | None => ∅
  end.

(** The line of a block at a nesting level. *)
Definition rendered_line (fuel : nat) (uidBlock : gmap string Child.t)
    (referenced : gset string) (lb : nat * Child.t) : string :=
  block_line (spec_prefix lb.1 lb.2)
    (resolved_text fuel uidBlock (Child.String lb.2))
    (anchor_suffix referenced (Child.UID lb.2)).

Definition rendered_lines (fuel : nat) (uidBlock : gmap string Child.t)
    (referenced : gset string) (level : nat) (children : list Child.t)
    : list string :=
  map (rendered_line fuel uidBlock referenced) (flatten level children).

(** The file of a page and the file-system calls that write it: none for
    a page without a title. *)
Definition page_dest `{OS} (outDir : string) (page : Page.t) : string :=
  if Page.IsDaily page
  then filepath_Join [outDir; "daily"; Page.Title page +:+ ".md"]
  else filepath_Join [outDir; Page.Title page +:+ ".md"].

Definition page_calls `{OS} (fuel : nat) (uidBlock : gmap string Child.t)
    (referenced : gset string) (outDir : string) (page : Page.t)
    : list fs_op :=
  if String.eqb (Page.Title page) EmptyString then []
  else
    [MkdirAll (filepath_Dir (page_dest outDir page));
     WriteFile (page_dest outDir page)
       (Join (rendered_lines fuel uidBlock referenced 0 (Children page))
          (String newline EmptyString))].

(** The lines of a text: what stands between its line breaks. *)
Fixpoint split_lines (s : string) : list string :=
  match s with
  | EmptyString => [EmptyString]
  | String c s' =>
      if Ascii.eqb c newline then EmptyString :: split_lines s'
      else
        match split_lines s' with
        | l :: ls => String c l :: ls
        | [] => [String c EmptyString]
        end
  end.

(** The line of a block as the specification words it: the prefix, the
    resolved text and the suffix put together; when the text with its
    suffix has line breaks, each of its lines gets the prefix and a line
    break ends the block. *)
Definition spec_line (prefix text suffix : string) : string :=
  match split_lines (text +:+ suffix) with
  | (_ :: _ :: _) as ls =>
      Join (map (String.append prefix) ls) (String newline EmptyString)
        +:+ String newline EmptyString
  | _ => prefix +:+ text +:+ suffix
  end.

(** The final line of a block, given the set of the referenced uids. *)
Definition final_line (fuel : nat) (uidBlock : gmap string Child.t)
    (referenced : gset string) (lb : nat * Child.t) : string :=
  spec_line (spec_prefix lb.1 lb.2)
    (resolved_text fuel uidBlock (Child.String lb.2))
    (if decide (Child.UID lb.2 ∈ referenced)
     then " ^" +:+ Child.UID lb.2 else EmptyString).

(** The file-system calls that write the final lines of a page. *)
Definition final_calls `{OS} (fuel : nat) (uidBlock : gmap string Child.t)
    (referenced : gset string) (outDir : string) (page : Page.t)
    : list fs_op :=
  if String.eqb (Page.Title page) EmptyString then []
  else
    [MkdirAll (filepath_Dir (page_dest outDir page));
     WriteFile (page_dest outDir page)
       (Join (map (final_line fuel uidBlock referenced)
                (flatten 0 (Children page)))
          (String newline EmptyString))].

(** ** A file system for the examples

    Paths are joined with [/]; the directory of a path is what precedes
    its last [/]; no call fails.  This is what [filepath.Join] and
    [filepath.Dir] give on a Unix system for the paths of the examples,
    whose elements are not empty and hold neither a [/] nor a [.] or
    [..] element (the paths are not cleaned here). *)
Module Example.

Fixpoint dir_acc (s : string) (seen : string) (dir : string) : string :=
  match s with
  | EmptyString => dir
  | String c s' =>
      if Ascii.eqb c "/" then dir_acc s' (seen +:+ "/") seen
      else dir_acc s' (seen +:+ String c EmptyString) dir
  end.

Definition os (pages : list Page.t) : OS :=
  {| filepath_Join := fun elems => Join elems "/";
     filepath_Dir := fun path => dir_acc path EmptyString ".";
     os_fail := fun _ _ => None;
     os_Getwd := Ok "/home";
     loadJSON := fun _ => Ok pages |}.

Definition block (uid text : string) (children : list Child.t) : Child.t :=
  Child.mk uid text children 0 (PageValue.mk EmptyString false).

Definition page (title : string) (children : list Child.t) : Page.t :=
  Page.mk title children false.

Definition ac : appConfig := AppConfig "export.json" "out".

(** Two pages as pass 1 leaves them, and the index of their blocks. *)
Definition corpus : list Page.t :=
  [page "2024-01-05" [block "abc123456" "Buy milk" []];
   page "Notes" [block "xyz987654" "{{embed: ((abc123456))}}" []]].

Definition corpus_index : gmap string Child.t :=
  <["abc123456" :=
      Child.mk "abc123456" "Buy milk" [] 0
        (PageValue.mk "January 5th, 2024" true)]>
    (<["xyz987654" :=
         Child.mk "xyz987654" "{{embed: ((abc123456))}}" [] 0
           (PageValue.mk "Notes" false)]> ∅).

End Example.

Import Example.

(** ** Notions used in the statements and proofs *)

(** The errors that [time.Parse] returns. *)
Definition is_ParseError (e : error) : Prop :=
  match e with
  | ParseError _ _ _ _ _ => True
  | _ => False
  end.

(** Every character of a text satisfies [P]. *)
Fixpoint str_all (P : ascii -> bool) (s : string) : bool :=
  match s with
  | EmptyString => true
  | String c s' => P c && str_all P s'
  end.

(** The titles that [reDaily] matches. *)
Definition daily_title (d : string) : Prop :=
  exists m ds l1 l2 y,
    In m longMonthNames
    /\ d = m +:+ " " +:+ ds +:+ String l1 (String l2 (", " +:+ y))
    /\ ds <> EmptyString /\ str_all is_digit ds = true
    /\ is_lower l1 = true /\ is_lower l2 = true
    /\ len y = 4 /\ str_all is_digit y = true.

(** The text between the brackets of a day link: a run of characters of
    the class, two lower-case letters, a comma, a space and four digits. *)
Definition dayLink_text (g : string) : Prop :=
  exists g1 l1 l2 y,
    g = g1 +:+ String l1 (String l2 (", " +:+ y))
    /\ g1 <> EmptyString /\ str_all dayLink_class g1 = true
    /\ is_lower l1 = true /\ is_lower l2 = true
    /\ len y = 4 /\ str_all is_digit y = true.

(** A character other than the opening bracket. *)
Definition not_open (c : ascii) : bool := negb (Ascii.eqb c "[").

(** The characters that can stand between the brackets of a day link. *)
Definition linkchar (c : ascii) : bool :=
  dayLink_class c || is_lower c || Ascii.eqb c "," || Ascii.eqb c " ".

(** The canonical form [YYYY-MM-DD]: ten characters, digits around two
    dashes. *)
Definition canonical_date (c : string) : Prop :=
  exists c0 c1 c2 c3 c4 c5 c6 c7,
    c = String c0 (String c1 (String c2 (String c3 (String "-"
          (String c4 (String c5 (String "-"
             (String c6 (String c7 EmptyString)))))))))
    /\ Forall (fun x => is_digit x = true) [c0; c1; c2; c3; c4; c5; c6; c7].

(** The state [st] followed by the effects collected in [eff]. *)
Definition merge (st eff : state) : state :=
  State (referencedUID st ∪ referencedUID eff) (stdout st ++ stdout eff)
    (fs_trace st).

(** A line rendered for a block at a level, in some state: the prefix
    of the specification, the text as the resolver returned it in that
    state, and the anchor read from the state before resolving. *)
Definition rendered_in (fuel : nat) (uidBlock : gmap string Child.t)
    (lb : nat * Child.t) (line : string) : Prop :=
  exists st1 st2 updated,
    replaceBlockRefs fuel (Child.String lb.2) uidBlock st1 = Some (Ok updated, st2)
    /\ line = block_line (spec_prefix lb.1 lb.2) updated
                (anchor_suffix (referencedUID st1) (Child.UID lb.2)).

(** What a successful expansion tells about the blocks it visited and
    about the set it leaves: every block resolved, and the set grew by
    the uids that the resolutions mark. *)
Definition visited (fuel : nat) (uidBlock : gmap string Child.t)
    (level : nat) (children : list Child.t) (st st' : state) : Prop :=
  Forall (fun lb => is_Some (resolution fuel uidBlock (Child.String lb.2)))
    (flatten level children)
  /\ referencedUID st'
     = referencedUID st
       ∪ ⋃ (map (fun lb => resolved_uids fuel uidBlock (Child.String lb.2))
              (flatten level children)).

(** Every block below resolves and marks nothing outside the set [R]. *)
Definition closed (fuel : nat) (uidBlock : gmap string Child.t)
    (R : gset string) (level : nat) (children : list Child.t) : Prop :=
  Forall (fun lb => is_Some (resolution fuel uidBlock (Child.String lb.2))
                    /\ resolved_uids fuel uidBlock (Child.String lb.2) ⊆ R)
    (flatten level children).

(** The number that a text of decimal digits denotes. *)
Fixpoint decimal_acc (s : string) (acc : Z) : Z :=
  match s with
  | EmptyString => acc
  | String c s' => decimal_acc s' (acc * 10 + (Z.of_N (byte_val c) - 48))%Z
  end.

Definition decimal (s : string) : Z := decimal_acc s 0%Z.

(** A number below 100 written with two digits. *)
Definition two_digits (n : Z) : string :=
  String (Time.digit_char (n / 10))
    (String (Time.digit_char (n mod 10)) EmptyString).

(** A character other than the opening brace. *)
Definition not_brace (c : ascii) : bool := negb (Ascii.eqb c "{").

(** An ASCII character other than the newline: one rune of one byte that
    [.] matches. *)
Definition uid_char (c : ascii) : bool :=
  (byte_val c <? 128)%N && negb (Ascii.eqb c newline).

(** The texts of the block expressions that open with a brace. *)
Definition braced (re : block_re) : Prop :=
  re = reBlockEmbed \/ re = reBlockMentions.

(** The line that reports a uid missing from the index. *)
Definition diagnostic (uidBlock : gmap string Child.t) (line : string)
    : Prop :=
  exists uid, line = "**** did not find uid: " +:+ uid /\ uidBlock !! uid = None.

(** What a resolution may do to the state: mark uids of the index and
    print diagnostics; the marks made before stay and no file-system call
    is made. *)
Definition resolver_step (uidBlock : gmap string Child.t) (st st' : state)
    : Prop :=
  fs_trace st' = fs_trace st
  /\ referencedUID st ⊆ referencedUID st'
  /\ (forall uid, uid ∈ referencedUID st' ->
        uid ∈ referencedUID st \/ is_Some (uidBlock !! uid))
  /\ exists printed,
       stdout st' = stdout st ++ printed
       /\ Forall (diagnostic uidBlock) printed.

(** The blocks of a corpus in the order in which pass 1 meets them, each
    with its page. *)
Definition page_blocks (pages : list Page.t) : list (Page.t * Child.t) :=
  flat_map (fun page => map (fun lb => (page, lb.2))
                          (flatten 0 (Children page))) pages.

(** The last block of a list that carries a uid. *)
Definition last_with_uid (uid : string) (blocks : list Child.t)
    : option Child.t :=
  last (filter (fun b => Child.UID b = uid) blocks).

(** The daily flag of the copy of a page that [parsePageDate] worked on. *)
Definition copy_IsDaily (page : Page.t) : bool :=
  match parseRoamDate (Page.Title page) with
  | Ok (_, true) => true
  | _ => Page.IsDaily page
  end.

(** Two texts hold, at a place that both have, characters that differ
    even when the case of letters is set aside. *)
Fixpoint differ (s v : string) : bool :=
  match s, v with
  | String c1 r1, String c2 r2 =>
      negb (if Ascii.eqb c1 c2 then true
            else
              let l1 := N.lor (byte_val c1) 32 in
              let l2 := N.lor (byte_val c2) 32 in
              (l1 =? l2)%N && (97 <=? l1)%N && (l1 <=? 122)%N)
      || differ r1 r2
  | _, _ => false
  end.

(** The error of a day link whose title is no date of the calendar. *)
Definition invalid_date_error (e : error) : Prop :=
  exists d pe,
    e = Errorf "invalid date %q: %w" [d] pe /\ parseRoamDate d = Err pe.

(** The file system of the examples with one file that cannot be
    written. *)
Definition os_without (denied : string) (pages : list Page.t) : OS :=
  {| filepath_Join := fun elems => Join elems "/";
     filepath_Dir := fun path => dir_acc path EmptyString ".";
     os_fail := fun _ op =>
       match op with
       | WriteFile dest _ =>
           if String.eqb dest denied then Some (OSError "open" dest) else None
       | MkdirAll _ => None
       end;
     os_Getwd := Ok "/home";
     loadJSON := fun _ => Ok pages |}.

(** Induction on a block and the blocks below it. *)

Section ChildInduction.
Variable P : Child.t -> Prop.
Hypothesis step :
  forall uid s children h pg,
    Forall P children -> P (Child.mk uid s children h pg).

Fixpoint Child_tree_ind (b : Child.t) : P b :=
  match b with
  | Child.mk uid s children h pg =>
      step uid s children h pg
        ((fix all (l : list Child.t) : Forall P l :=
            match l with
            | [] => List.Forall_nil P
            | c :: l' => @List.Forall_cons _ P c l' (Child_tree_ind c) (all l')
            end) children)
  end.
End ChildInduction.

(** * Properties *)

(** ** Byte strings *)

Section StringFacts.
Implicit Types a b c s p : string.

Lemma append_assoc a b c : (a +:+ b) +:+ c = a +:+ b +:+ c.
Proof. induction a as [|x a IH]; simpl; [done|]. by rewrite IH. Qed.

Lemma append_nil_r a : a +:+ EmptyString = a.
Proof. induction a as [|x a IH]; simpl; [done|]. by rewrite IH. Qed.

Lemma len_append a b : len (a +:+ b) = len a + len b.
Proof. induction a as [|x a IH]; simpl; [done|]. by rewrite <- IH. Qed.

Lemma slice_to_from s n : slice_to s n +:+ slice_from s n = s.
Proof.
  revert s. induction n as [|n IH]; intros [|x s]; simpl; try done.
  by rewrite IH.
Qed.

Lemma slice_to_append a b : slice_to (a +:+ b) (len a) = a.
Proof. induction a as [|x a IH]; simpl; [by destruct b|]. by rewrite IH. Qed.

Lemma slice_from_append a b : slice_from (a +:+ b) (len a) = b.
Proof. induction a as [|x a IH]; simpl; [by destruct b|]. done. Qed.

Lemma slice_from_append_add a b n :
  slice_from (a +:+ b) (len a + n) = slice_from b n.
Proof. induction a as [|x a IH]; simpl; done. Qed.

Lemma slice_from_0 s : slice_from s 0 = s.
Proof. by destruct s. Qed.

Lemma slice_from_add s n k :
  slice_from s (n + k) = slice_from (slice_from s n) k.
Proof.
  revert s. induction n as [|n IH]; intros s; simpl.
  - done.
  - destruct s as [|x s]; [by destruct k|]. apply IH.
Qed.

Lemma strip_prefix_append p s : strip_prefix p (p +:+ s) = Some s.
Proof.
  induction p as [|x p IH]; simpl; [done|]. by rewrite Ascii.eqb_refl.
Qed.

Lemma strip_prefix_Some p s r : strip_prefix p s = Some r -> s = p +:+ r.
Proof.
  revert s. induction p as [|x p IH]; intros s H; simpl in *.
  - by injection H.
  - destruct s as [|y s]; [done|].
    destruct (Ascii.eqb_spec x y) as [->|]; [|done].
    by rewrite (IH _ H).
Qed.

End StringFacts.

(** ** The inner loop of the resolver stops at the first expression
       without a match *)

Lemma range_regexList_no_match uidBlock re res_ m update st :
  FindStringSubmatchIndex re update = None ->
  range_regexList uidBlock (re :: res_) m update st = (None, update, st).
Proof. intros H. simpl. by rewrite H. Qed.

(** A text without an embed leaves [replaceBlockRefs] after the first
    search: nothing is replaced, marked or printed, whatever mentions
    and plain references the text holds. *)
Lemma replaceBlockRefs_loop_no_embed fuel uidBlock s st :
  FindStringSubmatchIndex reBlockEmbed s = None ->
  replaceBlockRefs_loop (S fuel) uidBlock s st = Some (s, st).
Proof.
  intros H. cbn [replaceBlockRefs_loop]. unfold regexList.
  by rewrite (range_regexList_no_match _ _ _ _ _ _ H).
Qed.

(** C1 (code bug): the block text [((abc123456))] with [abc123456] a key
    of the index comes back unchanged, and the set of referenced uids and
    the output are unchanged too: the plain reference is not resolved. *)
Theorem replaceBlockRefs_plain_reference_unresolved :
  forall (fuel : nat) (child : Child.t) (uidBlock : gmap string Child.t)
         (st : state),
    replaceBlockRefs (S fuel) "((abc123456))"
      (<["abc123456" := child]> uidBlock) st
    = Some (Ok "((abc123456))", st).
Proof.
  intros. unfold replaceBlockRefs.
  rewrite replaceBlockRefs_loop_no_embed by reflexivity.
  reflexivity.
Qed.

(** C5 (code bug): the block text [((unknown12))] with an empty index
    comes back unchanged and the output is unchanged: no diagnostic line
    is printed for the unknown uid. *)
Theorem replaceBlockRefs_unknown_reference_silent :
  forall (fuel : nat) (st : state),
    replaceBlockRefs (S fuel) "((unknown12))" ∅ st
    = Some (Ok "((unknown12))", st).
Proof.
  intros. unfold replaceBlockRefs.
  rewrite replaceBlockRefs_loop_no_embed by reflexivity.
  reflexivity.
Qed.

(** With an embed and a mention of unknown uids the three expressions
    all match and none changes the text: the inner loop ends with a
    match, and the outer loop starts again on the same text, printing the
    three diagnostics each time.  The resolver does not return. *)
Lemma replaceBlockRefs_unknown_ids_diverge :
  forall (fuel : nat) (st : state),
    replaceBlockRefs fuel
      "{{embed: ((unknown12))}}{{mentions: ((unknown12))}}" ∅ st
    = None.
Proof.
  intros fuel st. unfold replaceBlockRefs.
  enough (H : replaceBlockRefs_loop fuel ∅
                "{{embed: ((unknown12))}}{{mentions: ((unknown12))}}" st = None)
    by (by rewrite H).
  revert st. induction fuel as [|fuel IH]; intros st; [done|].
  cbn [replaceBlockRefs_loop].
  replace (range_regexList ∅ regexList None
             "{{embed: ((unknown12))}}{{mentions: ((unknown12))}}" st)
    with (Some [9; 22; 9; 11; 11; 20; 20; 22],
          "{{embed: ((unknown12))}}{{mentions: ((unknown12))}}",
          Println ["**** did not find uid:"; "unknown12"]
            (Println ["**** did not find uid:"; "unknown12"]
               (Println ["**** did not find uid:"; "unknown12"] st)))
    by reflexivity.
  apply IH.
Qed.

(** ** The loop of [replaceDayLinks] on a link that is no daily title *)

(** A text whose leftmost day link holds a text that [reDaily] does not
    match is rewritten to itself, so the loop never ends. *)
Lemma replaceDayLinks_stuck s m :
  reDayLink_FindStringSubmatchIndex s = Some m ->
  reDaily_FindAllStringSubmatch (slice s (idx m 4) (idx m 5)) = [] ->
  slice_to s (idx m 0) +:+ "[[" +:+ slice s (idx m 4) (idx m 5) +:+ "]]"
    +:+ slice_from s (idx m 1) = s ->
  forall fuel, replaceDayLinks fuel s = None.
Proof.
  intros Hm Hd Hs fuel. induction fuel as [|fuel IH]; [done|].
  simpl. rewrite Hm. unfold parseRoamDate. rewrite Hd. simpl.
  rewrite append_assoc. cbn [String.append]. cbn [String.append] in Hs.
  by rewrite Hs.
Qed.

(** C10 (code bug): on the block text [[[Jan 5th, 2024]]] the loop of
    [replaceDayLinks] does not return, whatever the number of iterations
    it is given. *)
Theorem replaceDayLinks_diverges :
  forall fuel : nat, replaceDayLinks fuel "[[Jan 5th, 2024]]" = None.
Proof.
  apply (replaceDayLinks_stuck _ [0; 17; 0; 2; 2; 15; 15; 17]); reflexivity.
Qed.


(** ** Pass 1 and the daily flag *)

(** [pass1] stores the new title in the slice and sets [IsDaily] on the
    loop variable only: the flags of the stored pages are those of the
    input. *)
Lemma pass1_loop_IsDaily pages uidBlock :
  map Page.IsDaily (pass1_loop pages uidBlock).1 = map Page.IsDaily pages.
Proof.
  revert uidBlock. induction pages as [|page rest IH]; intros uidBlock; [done|].
  cbn [pass1_loop]. destruct (parsePageDate page) as [[title page']|err]; [|done].
  specialize (IH (collectBlocks uidBlock page' (Page.RawChildren page'))).
  destruct (pass1_loop rest _) as [rest' r]. simpl in *. by rewrite IH.
Qed.

(** A title that [reDaily] does not match is stored as it is, and the
    page is left as it is. *)
Lemma parsePageDate_no_match page :
  reDaily_FindAllStringSubmatch (Page.Title page) = [] ->
  parsePageDate page = Ok (Page.Title page, page).
Proof. intros H. unfold parsePageDate, parseRoamDate. by rewrite H. Qed.

(** C3 (code bug): for the page titled [January 5th, 2024], pass 1 stores
    the title [2024-01-05] and leaves the stored flag [IsDaily] false; the
    flag is true only in the copy of the page kept with the indexed block,
    and that copy keeps the old title. *)
Theorem pass1_daily_flag_not_stored :
  forall st : state,
    pass1 [page "January 5th, 2024" [block "abc123456" "Buy milk" []]] st
    = ([Page.mk "2024-01-05" [block "abc123456" "Buy milk" []] false],
       Ok (<["abc123456" :=
               Child.mk "abc123456" "Buy milk" [] 0
                 (PageValue.mk "January 5th, 2024" true)]> ∅),
       Println ["Pass 1: scan all pages"] st).
Proof. intros st. reflexivity. Qed.

(** C2 (code bug): the run over one page titled [January 5th, 2024]
    writes [out/2024-01-05.md], not [out/daily/2024-01-05.md]. *)
Theorem run_daily_page_not_under_daily :
  forall fuel : nat,
    @run (os [page "January 5th, 2024" [block "abc123456" "Buy milk" []]])
      (S fuel) ac
    = Some (Ok tt,
            State ∅ ["Pass 1: scan all pages"; "Pass 2: track blockrefs"]
              [MkdirAll "out"; WriteFile "out/2024-01-05.md" "Buy milk"]).
Proof. intros fuel. vm_compute. reflexivity. Qed.

(** C9 (code bug): a block of the page [Notes] embeds a block of the page
    titled [January 5th, 2024].  The daily page is written as
    [2024-01-05.md], and the link generated in [Notes.md] names the page
    [January 5th, 2024]. *)
Theorem run_link_keeps_old_title :
  forall fuel : nat,
    @run (os [page "January 5th, 2024" [block "abc123456" "Buy milk" []];
              page "Notes" [block "xyz987654" "{{embed: ((abc123456))}}" []]])
      (S fuel) ac
    = Some (Ok tt,
            State {["abc123456"]}
              ["Pass 1: scan all pages"; "Pass 2: track blockrefs"]
              [MkdirAll "out";
               WriteFile "out/2024-01-05.md" "Buy milk ^abc123456";
               MkdirAll "out";
               WriteFile "out/Notes.md"
                 "Buy milk [[January 5th, 2024#^abc123456]]"]).
Proof. intros fuel. vm_compute. reflexivity. Qed.

(** ** An invalid date in a title aborts the run in pass 1 *)

Lemma parse_chunks_Err avalue chunks value f e :
  Time.parse_chunks avalue chunks value f = Err e -> is_ParseError e.
Proof.
  revert value f. induction chunks as [|[pfx el] chunks IH]; intros value f; [done|].
  simpl. destruct (Time.skip value pfx) as [value1|]; [|by intros [= <-]].
  destruct (Time.parse_std el value1 f) as [[value2 f']|]; [|by intros [= <-]].
  apply IH.
Qed.

Lemma Parse_Err value e : Time.Parse value = Err e -> is_ParseError e.
Proof.
  unfold Time.Parse.
  destruct (Time.parse_chunks _ _ _ _) as [[rest f]|e'] eqn:Hc.
  - repeat case_match; by intros [= <-].
  - intros [= <-]. by eapply parse_chunks_Err.
Qed.

Lemma parseRoamDate_Err s e : parseRoamDate s = Err e -> is_ParseError e.
Proof.
  unfold parseRoamDate. case_match; [done|].
  destruct (Time.Parse _) eqn:Hp; [done|]. intros [= <-]. by eapply Parse_Err.
Qed.

(** A title that [reDaily] matches and [time.Parse] refuses. *)
Lemma parseRoamDate_invalid s row e :
  reDaily_FindAllStringSubmatch s = [row] ->
  Time.Parse (rawTitle row) = Err e ->
  parseRoamDate s = Err e.
Proof. intros Hm Hp. unfold parseRoamDate. rewrite Hm. simpl. by rewrite Hp. Qed.

Lemma pass1_loop_invalid pages uidBlock page e :
  page ∈ pages ->
  parseRoamDate (Page.Title page) = Err e ->
  exists pages' e',
    pass1_loop pages uidBlock = (pages', Err (Errorf "parse page date: %w" [] e'))
    /\ is_ParseError e'.
Proof.
  intros Hin Hbad. revert uidBlock.
  induction pages as [|p rest IH]; intros uidBlock.
  { by apply elem_of_nil in Hin. }
  cbn [pass1_loop]. unfold parsePageDate.
  destruct (parseRoamDate (Page.Title p)) as [[update ok]|err] eqn:Hp.
  - apply elem_of_cons in Hin as [->|Hin]; [congruence|].
    destruct (IH Hin (collectBlocks uidBlock
                        (if ok then Page.set_IsDaily p true else p)
                        (Page.RawChildren (if ok then Page.set_IsDaily p true else p))))
      as (rest' & e' & -> & He').
    eauto.
  - exists (p :: rest), err. split; [done|]. by eapply parseRoamDate_Err.
Qed.

Lemma attach_pages_title pages page :
  page ∈ pages ->
  exists page', page' ∈ attach_pages pages /\ Page.Title page' = Page.Title page.
Proof.
  intros Hin. unfold attach_pages.
  eexists. split; [by apply (list_elem_of_fmap_2 _ _ page)|]. done.
Qed.

(** C4: if the title of some loaded page matches [reDaily] and is refused
    by [time.Parse], the run returns the parse error, wrapped by pass 1
    and by the driver, after the banner of pass 1 and before any
    file-system call; this holds for every fuel, so the run does return. *)
Theorem run_invalid_title_aborts_in_pass1 :
  forall (env : OS) (fuel : nat) (ac ac' : appConfig) (pages : list Page.t)
         (page : Page.t) (row : list string) (e : error),
    Validate ac = Ok ac' ->
    loadJSON (input ac') = Ok pages ->
    page ∈ pages ->
    reDaily_FindAllStringSubmatch (Page.Title page) = [row] ->
    Time.Parse (rawTitle row) = Err e ->
    exists (e' : error) (st : state),
      run fuel ac
      = Some (Err (Errorf "pass1: %w" []
                     (Errorf "parse page date: %w" [] e')), st)
      /\ is_ParseError e'
      /\ fs_trace st = []
      /\ stdout st = ["Pass 1: scan all pages"].
Proof.
  intros env fuel ac ac' pages page row e Hv Hl Hin Hm Hp.
  destruct (attach_pages_title _ _ Hin) as (page' & Hin' & Ht).
  assert (Hbad : parseRoamDate (Page.Title page') = Err e).
  { rewrite Ht. by eapply parseRoamDate_invalid. }
  destruct (pass1_loop_invalid _ ∅ _ _ Hin' Hbad) as (pages' & e' & Hloop & He').
  exists e', (Println ["Pass 1: scan all pages"] initial_state).
  unfold run. rewrite Hv, Hl. unfold pass1. rewrite Hloop. done.
Qed.

(** The run of C4 on a corpus whose second page is titled
    [February 30th, 2024]. *)
Lemma run_invalid_title_aborts_in_pass1_witness :
  exists (e' : error) (st : state),
    @run (os [page "Notes" []; page "February 30th, 2024" []]) 0 ac
    = Some (Err (Errorf "pass1: %w" []
                   (Errorf "parse page date: %w" [] e')), st)
    /\ is_ParseError e'
    /\ fs_trace st = []
    /\ stdout st = ["Pass 1: scan all pages"].
Proof.
  apply (run_invalid_title_aborts_in_pass1
           (os [page "Notes" []; page "February 30th, 2024" []]) 0 ac ac
           [page "Notes" []; page "February 30th, 2024" []]
           (page "February 30th, 2024" [])
           ["February 30th, 2024"; "February"; "30"; "2024"]
           (ParseError "January _2 2006" "February 30 2024" "" ""
              ": day out of range")).
  - reflexivity.
  - reflexivity.
  - apply list_elem_of_further, list_elem_of_here.
  - reflexivity.
  - reflexivity.
Defined.

(** ** The state monad *)

Lemma bind_Ok {A B} (c : M A) (k : A -> M B) st b st' :
  (c ≫= k) st = Some (Ok b, st') ->
  exists a st1, c st = Some (Ok a, st1) /\ k a st1 = Some (Ok b, st').
Proof.
  unfold mbind, M_bind, bind.
  destruct (c st) as [[[a|e] st1]|]; [|done..]. eauto.
Qed.

Lemma bind_Ok_intro {A B} (c : M A) (k : A -> M B) st a st1 :
  c st = Some (Ok a, st1) -> (c ≫= k) st = k a st1.
Proof. unfold mbind, M_bind, bind. by intros ->. Qed.

(** ** The resolver adds to the state and reads nothing from it *)

Lemma merge_initial st : merge st initial_state = st.
Proof.
  destruct st as [r o f]. unfold merge. simpl.
  by rewrite (right_id_L ∅ (∪)), app_nil_r.
Qed.

Lemma merge_Println st eff args :
  Println args (merge st eff) = merge st (Println args eff).
Proof. unfold Println, merge. simpl. by rewrite app_assoc. Qed.

Lemma merge_mark st eff uid :
  set_referencedUID (merge st eff) ({[uid]} ∪ referencedUID (merge st eff))
  = merge st (set_referencedUID eff ({[uid]} ∪ referencedUID eff)).
Proof.
  unfold set_referencedUID, merge. simpl. f_equal.
  apply set_eq. intros x. rewrite !elem_of_union. tauto.
Qed.

Lemma range_regexList_merge uidBlock res_ m update st eff :
  range_regexList uidBlock res_ m update (merge st eff)
  = let '(m', update', eff') := range_regexList uidBlock res_ m update eff in
    (m', update', merge st eff').
Proof.
  revert m update eff. induction res_ as [|re res_ IH]; intros m update eff.
  { done. }
  cbn [range_regexList].
  destruct (FindStringSubmatchIndex re update) as [mm|]; [|done].
  destruct (uidBlock !! _) as [child|].
  - rewrite merge_mark. apply IH.
  - rewrite merge_Println. apply IH.
Qed.

Lemma replaceBlockRefs_loop_merge fuel uidBlock update st eff :
  replaceBlockRefs_loop fuel uidBlock update (merge st eff)
  = match replaceBlockRefs_loop fuel uidBlock update eff with
    | Some (update', eff') => Some (update', merge st eff')
    | None => None
    end.
Proof.
  revert update eff. induction fuel as [|fuel IH]; intros update eff; [done|].
  cbn [replaceBlockRefs_loop]. rewrite range_regexList_merge.
  destruct (range_regexList uidBlock regexList None update eff)
    as [[[mm|] update'] eff']; [apply IH|done].
Qed.

(** The frame property of [replaceBlockRefs]: its result in a state is
    its result in the initial state, with the effects appended. *)
Lemma replaceBlockRefs_frame fuel s uidBlock st :
  replaceBlockRefs fuel s uidBlock st
  = match replaceBlockRefs fuel s uidBlock initial_state with
    | Some (r, eff) => Some (r, merge st eff)
    | None => None
    end.
Proof.
  unfold replaceBlockRefs.
  rewrite <- (merge_initial st) at 1. rewrite replaceBlockRefs_loop_merge.
  destruct (replaceBlockRefs_loop fuel uidBlock s initial_state)
    as [[update eff]|]; [|done].
  by destruct (replaceDayLinks fuel update).
Qed.

(** ** The prefix of a line *)

Lemma Repeat_0 s : Repeat s 0 = EmptyString.
Proof. done. Qed.

Lemma block_prefix_spec level b : block_prefix level b = spec_prefix level b.
Proof.
  unfold block_prefix, spec_prefix, heading_marks, indentation, bullet.
  unfold Children, Child_Parent.
  destruct level as [|level].
  - replace (4 * 0) with 0 by lia. rewrite Repeat_0. simpl.
    rewrite andb_false_r. destruct (0 <? Child.Heading b)%Z.
    + by destruct (Child.RawChildren b); rewrite !append_nil_r.
    + by destruct (Child.RawChildren b).
  - change (0 <? S level) with true. rewrite andb_true_r.
    destruct (0 <? Child.Heading b)%Z, (Child.RawChildren b); simpl;
      rewrite ?append_assoc, ?append_nil_r; done.
Qed.

Lemma ContainsRune_append a b c :
  ContainsRune (a +:+ b) c = ContainsRune a c || ContainsRune b c.
Proof.
  induction a as [|x a IH]; simpl; [done|]. by rewrite IH, orb_assoc.
Qed.

Lemma ContainsRune_Repeat s n c :
  ContainsRune s c = false -> ContainsRune (Repeat s n) c = false.
Proof.
  intros H. induction n as [|n IH]; simpl; [done|].
  by rewrite ContainsRune_append, H, IH.
Qed.

Lemma spec_prefix_one_line level b :
  ContainsRune (spec_prefix level b) newline = false.
Proof.
  unfold spec_prefix, heading_marks, indentation, bullet.
  rewrite !ContainsRune_append, (ContainsRune_Repeat " ") by done.
  destruct (0 <? Child.Heading b)%Z.
  - rewrite ContainsRune_append, (ContainsRune_Repeat "#") by done.
    by destruct (Children b), level.
  - by destruct (Children b), level.
Qed.

Lemma ReplaceAll1_append_l p s c new :
  ContainsRune p c = false ->
  ReplaceAll1 (p +:+ s) c new = p +:+ ReplaceAll1 s c new.
Proof.
  induction p as [|x p IH]; simpl; [done|].
  intros [Hx Hp]%orb_false_elim. by rewrite Hx, IH.
Qed.

(** A line starts with its prefix, also when the continuation lines of a
    multi-line text are indented. *)
Lemma block_line_begins prefix updated postfix :
  ContainsRune prefix newline = false ->
  exists rest, block_line prefix updated postfix = prefix +:+ rest.
Proof.
  intros Hp. unfold block_line. case_match; [|by eexists].
  rewrite ReplaceAll1_append_l, append_assoc by done. by eexists.
Qed.

(** ** The lines of [expandChildren], block by block *)

Lemma expandChild_unfold fuel uidBlock level b st :
  expandChild fuel uidBlock level b st
  = (updated ← replaceBlockRefs fuel (Child.String b) uidBlock;
     expanded ← range_children (expandChild fuel uidBlock (S level))
                  (Child.RawChildren b);
     ret (block_line (block_prefix level b) updated
            (anchor_suffix (referencedUID st) (Child.UID b)) :: expanded)) st.
Proof. by destruct b. Qed.

Section Lines.
Variable fuel : nat.
Variable uidBlock : gmap string Child.t.

Lemma range_children_Ok (Q : nat * Child.t -> string -> Prop) level children :
  Forall (fun b => forall st lines st',
            expandChild fuel uidBlock level b st = Some (Ok lines, st') ->
            Forall2 Q (flatten_block level b) lines) children ->
  forall st lines st',
    range_children (expandChild fuel uidBlock level) children st
    = Some (Ok lines, st') ->
    Forall2 Q (flatten level children) lines.
Proof.
  induction 1 as [|b children Hb _ IH]; intros st lines st' Hrun.
  - injection Hrun as <- _. constructor.
  - cbn [range_children] in Hrun.
    apply bind_Ok in Hrun as (lines1 & st1 & H1 & Hrun).
    apply bind_Ok in Hrun as (lines2 & st2 & H2 & Hrun).
    injection Hrun as <- _.
    unfold flatten. cbn [flat_map]. apply Forall2_app; eauto.
Qed.

Lemma expandChild_rendered b :
  forall level st lines st',
    expandChild fuel uidBlock level b st = Some (Ok lines, st') ->
    Forall2 (rendered_in fuel uidBlock) (flatten_block level b) lines.
Proof.
  induction b as [uid s children h pg IH] using Child_tree_ind.
  intros level st lines st'. rewrite expandChild_unfold. intros Hrun.
  apply bind_Ok in Hrun as (updated & st1 & H1 & Hrun).
  apply bind_Ok in Hrun as (expanded & st2 & H2 & Hrun).
  injection Hrun as <- _.
  cbn [flatten_block]. constructor.
  - exists st, st1, updated. split; [done|]. by rewrite block_prefix_spec.
  - eapply (range_children_Ok _ (S level)); [|exact H2].
    eapply Forall_impl; [exact IH|]. simpl. eauto.
Qed.

End Lines.

(** C7: when [expandChildren] returns the lines of a parent at a level,
    the lines are those of the blocks below the parent in document
    order, and the line of a block at level [L] is built from the prefix
    "heading marks, 4 L spaces, bullet" (the bullet present exactly for
    a block with a child at a level above 0), the resolved text and the
    anchor; the line begins with that prefix. *)
Theorem expandChildren_line_prefix :
  forall (fuel : nat) (uidBlock : gmap string Child.t) (P : Type)
         (parent_P : Parent P) (parent : P) (level : nat) (st : state)
         (lines : list string) (st' : state),
    expandChildren fuel uidBlock parent level st = Some (Ok lines, st') ->
    Forall2
      (fun lb line =>
         rendered_in fuel uidBlock lb line
         /\ exists rest,
             line = heading_marks (Child.Heading lb.2) +:+ indentation lb.1
                      +:+ bullet lb.1 lb.2 +:+ rest)
      (flatten level (Children parent)) lines.
Proof.
  intros fuel uidBlock P parent_P parent level st lines st' Hrun.
  unfold expandChildren in Hrun.
  eapply Forall2_impl.
  - eapply (range_children_Ok fuel uidBlock (rendered_in fuel uidBlock));
      [|exact Hrun].
    apply Forall_forall. intros b _. apply expandChild_rendered.
  - intros lb line Hr. split; [done|].
    destruct Hr as (st1 & st2 & updated & _ & ->).
    destruct (block_line_begins (spec_prefix lb.1 lb.2) updated
                (anchor_suffix (referencedUID st1) (Child.UID lb.2))
                (spec_prefix_one_line _ _)) as [rest ->].
    exists rest. unfold spec_prefix. by rewrite !append_assoc.
Qed.

Lemma bullet_iff level b :
  bullet level b = "* " <-> Children b <> [] /\ 0 < level.
Proof.
  unfold bullet. destruct (Children b), level; split; try done;
    try (intros [? ?]; done || lia); intros _; split; (done || lia).
Qed.

Lemma indentation_length level : len (indentation level) = 4 * level.
Proof.
  unfold indentation. induction (4 * level) as [|n IH]; simpl; [done|].
  by rewrite IH.
Qed.

(** A block at depth 2 with one child and no heading: eight spaces and
    the bullet. *)
Lemma spec_prefix_depth_2 uid s child pg :
  spec_prefix 2 (Child.mk uid s [child] 0 pg) = "        * ".
Proof. reflexivity. Qed.

(** A block at depth 0 has no bullet, whatever its children. *)
Lemma bullet_depth_0 b : bullet 0 b = EmptyString.
Proof. unfold bullet. by destruct (Children b). Qed.

(** C7 on a page with four nested blocks. *)
Lemma expandChildren_line_prefix_witness :
  Forall2
    (fun lb line =>
       rendered_in 1 ∅ lb line
       /\ exists rest,
           line = heading_marks (Child.Heading lb.2) +:+ indentation lb.1
                    +:+ bullet lb.1 lb.2 +:+ rest)
    (flatten 0
       (Children
          (page "Notes"
             [block "a" "top" [block "b" "mid"
                [block "c" "deep" [block "d" "leaf" []]]]])))
    ["top"; "    * mid"; "        * deep"; "            leaf"].
Proof.
  apply (expandChildren_line_prefix 1 ∅ Page.t Page_Parent
           (page "Notes"
              [block "a" "top" [block "b" "mid"
                 [block "c" "deep" [block "d" "leaf" []]]]])
           0 initial_state
           ["top"; "    * mid"; "        * deep"; "            leaf"]
           initial_state).
  reflexivity.
Defined.

(** ** The set of referenced uids after pass 2 *)

Section Referenced.
Variable fuel : nat.
Variable uidBlock : gmap string Child.t.

(** A run of the resolver that returns a text, read as a resolution. *)
Lemma resolution_of_run s st updated st1 :
  replaceBlockRefs fuel s uidBlock st = Some (Ok updated, st1) ->
  is_Some (resolution fuel uidBlock s)
  /\ resolved_text fuel uidBlock s = updated
  /\ referencedUID st1 = referencedUID st ∪ resolved_uids fuel uidBlock s.
Proof.
  rewrite replaceBlockRefs_frame.
  unfold resolved_text, resolved_uids, resolution.
  destruct (replaceBlockRefs fuel s uidBlock initial_state)
    as [[[u|e] eff]|]; [|done..].
  intros [= <- <-]. eauto.
Qed.

Lemma run_of_resolution s st :
  is_Some (resolution fuel uidBlock s) ->
  exists st1,
    replaceBlockRefs fuel s uidBlock st
    = Some (Ok (resolved_text fuel uidBlock s), st1)
    /\ referencedUID st1 = referencedUID st ∪ resolved_uids fuel uidBlock s
    /\ fs_trace st1 = fs_trace st.
Proof.
  rewrite replaceBlockRefs_frame.
  unfold resolved_text, resolved_uids, resolution.
  destruct (replaceBlockRefs fuel s uidBlock initial_state)
    as [[[u|e] eff]|]; intros [? ?]; [|done..].
  eauto.
Qed.

Lemma range_children_visited level children :
  Forall (fun b => forall st lines st',
            expandChild fuel uidBlock level b st = Some (Ok lines, st') ->
            visited fuel uidBlock level [b] st st') children ->
  forall st lines st',
    range_children (expandChild fuel uidBlock level) children st
    = Some (Ok lines, st') ->
    visited fuel uidBlock level children st st'.
Proof.
  induction 1 as [|b children Hb _ IH]; intros st lines st' Hrun.
  - injection Hrun as _ <-. split; [constructor|].
    simpl. by rewrite (right_id_L ∅ (∪)).
  - cbn [range_children] in Hrun.
    apply bind_Ok in Hrun as (lines1 & st1 & H1 & Hrun).
    apply bind_Ok in Hrun as (lines2 & st2 & H2 & Hrun).
    injection Hrun as _ <-.
    destruct (Hb _ _ _ H1) as [Hr1 Hs1]. destruct (IH _ _ _ H2) as [Hr2 Hs2].
    unfold visited, flatten in *. cbn [flat_map] in *.
    rewrite app_nil_r in Hr1, Hs1.
    split; [by apply Forall_app|].
    rewrite Hs2, Hs1, List.map_app, union_list_app_L.
    by rewrite (assoc_L (∪)).
Qed.

Lemma expandChild_visited b :
  forall level st lines st',
    expandChild fuel uidBlock level b st = Some (Ok lines, st') ->
    visited fuel uidBlock level [b] st st'.
Proof.
  induction b as [uid s children h pg IH] using Child_tree_ind.
  intros level st lines st'. rewrite expandChild_unfold. intros Hrun.
  apply bind_Ok in Hrun as (updated & st1 & H1 & Hrun).
  apply bind_Ok in Hrun as (expanded & st2 & H2 & Hrun).
  injection Hrun as _ <-.
  apply resolution_of_run in H1 as (Hres & _ & Hs1).
  destruct (range_children_visited (S level) children) with (2 := H2)
    as [Hr2 Hs2].
  { eapply Forall_impl; [exact IH|]. simpl. eauto. }
  unfold visited, flatten. cbn [flat_map flatten_block]. rewrite app_nil_r.
  split; [by constructor|].
  unfold flatten in Hs2. simpl in *.
  by rewrite Hs2, Hs1, (assoc_L (∪)).
Qed.

Lemma range_children_closed R level children :
  Forall (fun b => closed fuel uidBlock R level [b] ->
            forall st, referencedUID st = R ->
            exists st',
              expandChild fuel uidBlock level b st
              = Some (Ok (rendered_lines fuel uidBlock R level [b]), st')
              /\ referencedUID st' = R
              /\ fs_trace st' = fs_trace st) children ->
  closed fuel uidBlock R level children ->
  forall st, referencedUID st = R ->
  exists st',
    range_children (expandChild fuel uidBlock level) children st
    = Some (Ok (rendered_lines fuel uidBlock R level children), st')
    /\ referencedUID st' = R
    /\ fs_trace st' = fs_trace st.
Proof.
  induction 1 as [|b children Hb _ IH]; intros Hcl st Hst.
  - exists st. done.
  - unfold closed, flatten in Hcl. cbn [flat_map] in Hcl.
    apply Forall_app in Hcl as [Hcl1 Hcl2].
    destruct (Hb) with (st := st) as (st1 & H1 & Hst1 & Hf1); [|done|].
    { unfold closed, flatten. cbn [flat_map]. by rewrite app_nil_r. }
    destruct (IH Hcl2 st1 Hst1) as (st2 & H2 & Hst2 & Hf2).
    exists st2. split; [|split; [done|congruence]].
    cbn [range_children]. rewrite (bind_Ok_intro _ _ _ _ _ H1).
    rewrite (bind_Ok_intro _ _ _ _ _ H2).
    unfold rendered_lines, flatten. cbn [flat_map].
    by rewrite app_nil_r, map_app.
Qed.

Lemma expandChild_closed R b :
  forall level, closed fuel uidBlock R level [b] ->
  forall st, referencedUID st = R ->
  exists st',
    expandChild fuel uidBlock level b st
    = Some (Ok (rendered_lines fuel uidBlock R level [b]), st')
    /\ referencedUID st' = R
    /\ fs_trace st' = fs_trace st.
Proof.
  induction b as [uid s children h pg IH] using Child_tree_ind.
  intros level Hcl st Hst.
  unfold closed, flatten in Hcl. cbn [flat_map flatten_block] in Hcl.
  rewrite app_nil_r in Hcl. apply Forall_cons in Hcl as [[Hres Hsub] Hcl].
  destruct (run_of_resolution s st Hres) as (st1 & H1 & Hst1 & Hf1).
  assert (referencedUID st1 = R) as HR1.
  { rewrite Hst1, Hst. apply subseteq_union_1_L in Hsub.
    by rewrite (comm_L (∪)). }
  destruct (range_children_closed R (S level) children) with (st := st1)
    as (st2 & H2 & Hst2 & Hf2); [|done|done|].
  { eapply Forall_impl; [exact IH|]. simpl. eauto. }
  exists st2. split; [|split; [done|congruence]].
  rewrite expandChild_unfold.
  rewrite (bind_Ok_intro _ _ _ _ _ H1), (bind_Ok_intro _ _ _ _ _ H2).
  unfold rendered_lines, flatten. cbn [flat_map flatten_block map].
  rewrite app_nil_r, Hst, block_prefix_spec. done.
Qed.

End Referenced.

(** The uids that a resolution marks are keys of the index: each was
    found there when a match was replaced. *)
Lemma range_regexList_marks uidBlock res_ m update st m' update' st' uid :
  range_regexList uidBlock res_ m update st = (m', update', st') ->
  uid ∈ referencedUID st' ->
  uid ∈ referencedUID st \/ is_Some (uidBlock !! uid).
Proof.
  revert m update st. induction res_ as [|re res_ IH]; intros m update st.
  { intros [= _ _ <-]. auto. }
  cbn [range_regexList].
  destruct (FindStringSubmatchIndex re update) as [mm|];
    [|intros [= _ _ <-]; auto].
  destruct (uidBlock !! slice update (idx mm 4) (idx mm 5)) as [child|] eqn:Hk.
  - intros Hrun Hin. destruct (IH _ _ _ Hrun Hin) as [Hin'|]; [|auto].
    simpl in Hin'. apply elem_of_union in Hin' as [Hin'|Hin']; [right|by left].
    apply elem_of_singleton in Hin' as ->. by rewrite Hk.
  - intros Hrun Hin. destruct (IH _ _ _ Hrun Hin); auto.
Qed.

Lemma replaceBlockRefs_loop_marks fuel uidBlock update st update' st' uid :
  replaceBlockRefs_loop fuel uidBlock update st = Some (update', st') ->
  uid ∈ referencedUID st' ->
  uid ∈ referencedUID st \/ is_Some (uidBlock !! uid).
Proof.
  revert update st. induction fuel as [|fuel IH]; intros update st; [done|].
  cbn [replaceBlockRefs_loop].
  destruct (range_regexList uidBlock regexList None update st)
    as [[[mm|] update1] st1] eqn:Hr.
  - intros Hrun Hin. destruct (IH _ _ Hrun Hin) as [Hin1|]; [|auto].
    eapply range_regexList_marks; eauto.
  - intros [= <- <-] Hin. eapply range_regexList_marks; eauto.
Qed.

Lemma resolved_uids_known fuel uidBlock s uid :
  uid ∈ resolved_uids fuel uidBlock s -> is_Some (uidBlock !! uid).
Proof.
  unfold resolved_uids, resolution, replaceBlockRefs.
  destruct (replaceBlockRefs_loop fuel uidBlock s initial_state)
    as [[update st]|] eqn:Hl; [|by intros ?%not_elem_of_empty].
  destruct (replaceDayLinks fuel update) as [[u|e]|];
    [|by intros ?%not_elem_of_empty..].
  intros Hin. destruct (replaceBlockRefs_loop_marks _ _ _ _ _ _ _ Hl Hin) as [H|]; [|done].
  by apply not_elem_of_empty in H.
Qed.

Lemma anchor_suffix_iff R uid :
  (anchor_suffix R uid = " ^" +:+ uid <-> uid ∈ R)
  /\ (anchor_suffix R uid = EmptyString <-> uid ∉ R).
Proof. unfold anchor_suffix. case_decide; split; split; done. Qed.

Lemma pass2_loop_visited fuel uidBlock pages st st' :
  pass2_loop fuel pages uidBlock st = Some (Ok tt, st') ->
  Forall (fun b => is_Some (resolution fuel uidBlock (Child.String b)))
    (blocks_of pages)
  /\ referencedUID st'
     = referencedUID st
       ∪ ⋃ (map (fun b => resolved_uids fuel uidBlock (Child.String b))
              (blocks_of pages)).
Proof.
  revert st. induction pages as [|page pages IH]; intros st.
  { intros [= <-]. split; [constructor|]. simpl. by rewrite (right_id_L ∅ (∪)). }
  cbn [pass2_loop].
  destruct (expandChildren fuel uidBlock page 0 st) as [[[lines|e] st1]|] eqn:H1;
    [|done..].
  intros Hrun. destruct (IH _ Hrun) as [Hr2 Hs2].
  unfold expandChildren in H1.
  destruct (range_children_visited fuel uidBlock 0 (Children page)) with (2 := H1)
    as [Hr1 Hs1].
  { apply Forall_forall. intros b _. apply expandChild_visited. }
  unfold blocks_of in *. cbn [flat_map]. split.
  - apply Forall_app. split; [|done]. by apply Forall_fmap.
  - rewrite Hs2, Hs1, List.map_app, union_list_app_L, List.map_map.
    by rewrite (assoc_L (∪)).
Qed.

(** ** Pass 3 writes the rendered pages *)

Lemma os_call_Ok `{OS} op st :
  (forall trace op', os_fail trace op' = None) ->
  os_call op st
  = Some (Ok tt, State (referencedUID st) (stdout st) (fs_trace st ++ [op])).
Proof. intros Hok. unfold os_call. by rewrite Hok. Qed.

Lemma pass3_files `{OS} fuel uidBlock R outDir pages :
  (forall trace op, os_fail trace op = None) ->
  Forall (fun page => closed fuel uidBlock R 0 (Children page)) pages ->
  forall st, referencedUID st = R ->
  exists st',
    pass3 fuel pages uidBlock outDir st = Some (Ok tt, st')
    /\ referencedUID st' = R
    /\ fs_trace st'
       = fs_trace st ++ flat_map (page_calls fuel uidBlock R outDir) pages.
Proof.
  intros Hok Hcl. induction Hcl as [|page pages Hpage _ IH]; intros st Hst.
  { exists st. simpl. by rewrite app_nil_r. }
  cbn [pass3 flat_map]. unfold page_calls at 1.
  destruct (String.eqb (Page.Title page) EmptyString).
  { apply IH, Hst. }
  fold (page_dest outDir page).
  rewrite (bind_Ok_intro _ _ _ _ _ (os_call_Ok _ _ Hok)).
  set (st1 := State _ _ _).
  destruct (range_children_closed fuel uidBlock R 0 (Children page))
    with (st := st1) as (st2 & H2 & Hst2 & Hf2); [|done|done|].
  { apply Forall_forall. intros b _. apply expandChild_closed. }
  unfold expandChildren.
  rewrite (bind_Ok_intro _ _ _ _ _ H2).
  rewrite (bind_Ok_intro _ _ _ _ _ (os_call_Ok _ _ Hok)).
  set (st3 := State _ _ _).
  destruct (IH st3 Hst2) as (st4 & H4 & Hst4 & Hf4).
  exists st4. split; [done|]. split; [done|].
  rewrite Hf4. subst st3 st1. simpl. rewrite Hf2. simpl.
  by rewrite <- !app_assoc.
Qed.

(** ** The anchors of pass 3 *)

Lemma pass2_closed fuel pages uidBlock st0 st2 :
  referencedUID st0 = ∅ ->
  pass2 fuel pages uidBlock st0 = Some (Ok tt, st2) ->
  referencedUID st2
  = ⋃ (map (fun b => resolved_uids fuel uidBlock (Child.String b))
         (blocks_of pages))
  /\ Forall (fun page => closed fuel uidBlock (referencedUID st2) 0 (Children page))
       pages.
Proof.
  intros H0 Hrun. unfold pass2 in Hrun.
  apply pass2_loop_visited in Hrun as [Hres Hset].
  change (referencedUID (Println _ st0)) with (referencedUID st0) in Hset.
  rewrite H0, (left_id_L ∅ (∪)) in Hset. split; [done|].
  apply Forall_forall. intros page Hpage.
  apply Forall_forall. intros lb Hlb.
  assert (Hb : lb.2 ∈ blocks_of pages).
  { unfold blocks_of. apply list_elem_of_In, in_flat_map. exists page.
    split; [by apply list_elem_of_In|]. apply in_map, list_elem_of_In, Hlb. }
  split.
  - eapply Forall_forall in Hres; [exact Hres|done].
  - rewrite Hset. intros uid Hin. apply elem_of_union_list.
    eexists. split; [|exact Hin].
    apply list_elem_of_In, in_map_iff. exists lb.2. split; [done|].
    by apply list_elem_of_In.
Qed.

(** ** The line of a block, as the code builds it and as the
    specification words it *)

Lemma ReplaceAll1_absent s c new :
  ContainsRune s c = false -> ReplaceAll1 s c new = s.
Proof.
  intros H. rewrite <- (append_nil_r s) at 1.
  rewrite (ReplaceAll1_append_l s EmptyString c new H). apply append_nil_r.
Qed.

Lemma ReplaceAll1_lines prefix postfix l ls :
  ContainsRune postfix newline = false ->
  Forall (fun x => ContainsRune x newline = false) (l :: ls) ->
  prefix +:+ ReplaceAll1 (Join (l :: ls) (String newline EmptyString) +:+ postfix)
               newline (String newline prefix)
  = Join (map (String.append prefix) (l :: ls)) (String newline EmptyString)
      +:+ postfix.
Proof.
  intros Hpost. revert l. induction ls as [|l2 ls IH]; intros l Hls.
  - apply Forall_cons in Hls as [Hl _]. cbn [Join map].
    rewrite ReplaceAll1_absent; [by rewrite append_assoc|].
    by rewrite ContainsRune_append, Hl, Hpost.
  - apply Forall_cons in Hls as [Hl Hls].
    change (Join (l :: l2 :: ls) (String newline EmptyString))
      with (l +:+ String newline EmptyString
              +:+ Join (l2 :: ls) (String newline EmptyString)).
    change (Join (map (String.append prefix) (l :: l2 :: ls))
              (String newline EmptyString))
      with ((prefix +:+ l) +:+ String newline EmptyString
              +:+ Join (map (String.append prefix) (l2 :: ls))
                    (String newline EmptyString)).
    rewrite !append_assoc. rewrite (ReplaceAll1_append_l l _ _ _ Hl).
    cbn [String.append ReplaceAll1].
    replace (Ascii.eqb newline newline) with true by (symmetry; apply Ascii.eqb_refl).
    by rewrite (IH l2 Hls).
Qed.

Lemma split_lines_cons s : exists l ls, split_lines s = l :: ls.
Proof.
  induction s as [|c s (l & ls & IH)]; [by exists EmptyString, []|].
  cbn [split_lines]. destruct (Ascii.eqb c newline); [by eauto|].
  rewrite IH. by eauto.
Qed.

Lemma split_lines_Join s :
  Join (split_lines s) (String newline EmptyString) = s.
Proof.
  induction s as [|c s IH]; [done|]. cbn [split_lines].
  destruct (split_lines_cons s) as (l & ls & E). rewrite E in IH |- *.
  destruct (Ascii.eqb_spec c newline) as [->|N].
  - change (Join (EmptyString :: l :: ls) (String newline EmptyString))
      with (String newline (Join (l :: ls) (String newline EmptyString))).
    by rewrite IH.
  - destruct ls as [|l2 ls]; cbn [Join String.append] in IH |- *; by rewrite IH.
Qed.

Lemma split_lines_one_line s :
  Forall (fun x => ContainsRune x newline = false) (split_lines s).
Proof.
  induction s as [|c s IH]; [by repeat constructor|]. cbn [split_lines].
  destruct (split_lines_cons s) as (l & ls & E). rewrite E in IH |- *.
  apply Forall_cons in IH as [Hl Hls].
  destruct (Ascii.eqb c newline) eqn:Hc.
  - constructor; [done|]. by constructor.
  - constructor; [|done]. cbn [ContainsRune]. by rewrite Hc, Hl.
Qed.

Lemma split_lines_single s :
  ContainsRune s newline = false -> split_lines s = [s].
Proof.
  induction s as [|c s IH]; [done|]. cbn [ContainsRune split_lines].
  intros [Hc Hs]%orb_false_elim. by rewrite Hc, (IH Hs).
Qed.

Lemma split_lines_several s :
  ContainsRune s newline = true -> exists l l2 ls, split_lines s = l :: l2 :: ls.
Proof.
  induction s as [|c s IH]; [done|]. cbn [ContainsRune split_lines].
  destruct (split_lines_cons s) as (l & ls & E).
  destruct (Ascii.eqb c newline); cbn [orb].
  - intros _. rewrite E. by eauto.
  - intros (l1 & l2 & ls' & E')%IH. rewrite E'. by eauto.
Qed.

(** The line that the code builds is the line of the specification. *)
Lemma block_line_spec_line prefix text postfix :
  ContainsRune prefix newline = false ->
  block_line prefix text postfix = spec_line prefix text postfix.
Proof.
  intros Hpre. unfold block_line, spec_line.
  rewrite ContainsRune_append, Hpre. cbn [orb].
  destruct (ContainsRune (text +:+ postfix) newline) eqn:Hc.
  - destruct (split_lines_several _ Hc) as (l & l2 & ls & E). rewrite E.
    rewrite (ReplaceAll1_append_l prefix _ _ _ Hpre).
    rewrite <- (split_lines_Join (text +:+ postfix)), E.
    rewrite <- (append_nil_r (Join (l :: l2 :: ls) _)).
    rewrite (ReplaceAll1_lines prefix EmptyString l (l2 :: ls)); [|done|].
    + by rewrite append_nil_r.
    + rewrite <- E. apply split_lines_one_line.
  - by rewrite (split_lines_single _ Hc).
Qed.

Lemma rendered_line_final fuel uidBlock R lb :
  rendered_line fuel uidBlock R lb = final_line fuel uidBlock R lb.
Proof.
  unfold rendered_line, final_line.
  apply block_line_spec_line, spec_prefix_one_line.
Qed.

Lemma rendered_lines_final fuel uidBlock R level children :
  rendered_lines fuel uidBlock R level children
  = map (final_line fuel uidBlock R) (flatten level children).
Proof.
  unfold rendered_lines. apply map_ext. intros lb. apply rendered_line_final.
Qed.

Lemma page_calls_final `{OS} fuel uidBlock R outDir page :
  page_calls fuel uidBlock R outDir page = final_calls fuel uidBlock R outDir page.
Proof.
  unfold page_calls, final_calls. by rewrite rendered_lines_final.
Qed.

(** A line without a line break: the prefix, the text and the suffix. *)
Lemma spec_line_one_line prefix text suffix :
  ContainsRune (text +:+ suffix) newline = false ->
  spec_line prefix text suffix = prefix +:+ text +:+ suffix.
Proof. intros H. unfold spec_line. by rewrite (split_lines_single _ H). Qed.

(** C6: let [R] be the set of referenced uids that pass 2, started with
    the empty set, leaves.
    - [R] holds exactly the uids that the resolution of some block of the
      corpus marks, and these are keys of the index.
    - In every state that holds [R], the expansion of a page of the
      corpus returns the lines of the blocks of the page in document
      order.  The line of a block is the line of the specification for
      its prefix, its resolved text and, as suffix, the anchor [" ^uid"]
      when the uid of the block is in [R] and nothing otherwise; the
      expansion leaves [R] in the state.
    - When neither the resolved text nor the uid of a block holds a line
      break, that line is the prefix, the resolved text and [" ^uid"]
      when the uid is in [R], and the prefix and the resolved text alone
      when it is not.
    - When no file-system call fails, pass 3 started in the state that
      pass 2 left returns, and the calls it adds are, page by page, those
      that write these lines. *)
Theorem anchor_iff_referenced_after_pass2 :
  forall (fuel : nat) (pages : list Page.t) (uidBlock : gmap string Child.t)
         (st0 st2 : state),
    referencedUID st0 = ∅ ->
    pass2 fuel pages uidBlock st0 = Some (Ok tt, st2) ->
    let R := referencedUID st2 in
    (forall uid,
        uid ∈ R <->
        exists b, b ∈ blocks_of pages
                  /\ uid ∈ resolved_uids fuel uidBlock (Child.String b)
                  /\ is_Some (uidBlock !! uid))
    /\ (forall (page : Page.t) (st : state),
           page ∈ pages ->
           referencedUID st = R ->
           exists st',
             expandChildren fuel uidBlock page 0 st
             = Some (Ok (map (fun lb =>
                                spec_line (spec_prefix lb.1 lb.2)
                                  (resolved_text fuel uidBlock (Child.String lb.2))
                                  (if decide (Child.UID lb.2 ∈ R)
                                   then " ^" +:+ Child.UID lb.2
                                   else EmptyString))
                           (flatten 0 (Children page))), st')
             /\ referencedUID st' = R)
    /\ (forall lb : nat * Child.t,
           ContainsRune (resolved_text fuel uidBlock (Child.String lb.2)) newline
           = false ->
           ContainsRune (Child.UID lb.2) newline = false ->
           spec_line (spec_prefix lb.1 lb.2)
             (resolved_text fuel uidBlock (Child.String lb.2))
             (if decide (Child.UID lb.2 ∈ R)
              then " ^" +:+ Child.UID lb.2
              else EmptyString)
           = if decide (Child.UID lb.2 ∈ R)
             then spec_prefix lb.1 lb.2
                    +:+ resolved_text fuel uidBlock (Child.String lb.2)
                    +:+ " ^" +:+ Child.UID lb.2
             else spec_prefix lb.1 lb.2
                    +:+ resolved_text fuel uidBlock (Child.String lb.2))
    /\ (forall (env : OS) (outDir : string),
           (forall trace op, os_fail trace op = None) ->
           exists st3,
             pass3 fuel pages uidBlock outDir st2 = Some (Ok tt, st3)
             /\ referencedUID st3 = R
             /\ fs_trace st3
                = fs_trace st2 ++ flat_map (final_calls fuel uidBlock R outDir) pages).
Proof.
  intros fuel pages uidBlock st0 st2 H0 Hrun R.
  destruct (pass2_closed _ _ _ _ _ H0 Hrun) as [Hset Hcl]. fold R in Hset, Hcl.
  split; [|split; [|split]].
  - intros uid. rewrite Hset, elem_of_union_list. split.
    + intros (X & HX & Hin).
      apply list_elem_of_In, in_map_iff in HX as (b & <- & Hb).
      exists b. split; [by apply list_elem_of_In|]. split; [done|].
      by eapply resolved_uids_known.
    + intros (b & Hb & Hin & _). eexists. split; [|exact Hin].
      apply list_elem_of_In, in_map_iff. exists b. split; [done|].
      by apply list_elem_of_In.
  - intros page st Hpage Hst.
    eapply Forall_forall in Hcl; [|exact Hpage].
    destruct (range_children_closed fuel uidBlock R 0 (Children page))
      with (st := st) as (st' & Hr & HR & _); [|done|done|].
    + apply Forall_forall. intros b _. apply expandChild_closed.
    + exists st'. split; [|done].
      pose proof (rendered_lines_final fuel uidBlock R 0 (Children page)) as E.
      unfold final_line in E. unfold expandChildren. by rewrite Hr, E.
  - intros lb Htext Huid.
    rewrite spec_line_one_line.
    + destruct (decide (Child.UID lb.2 ∈ R)); [done|]. by rewrite append_nil_r.
    + rewrite ContainsRune_append, Htext.
      destruct (decide (Child.UID lb.2 ∈ R)); [|done].
      by rewrite ContainsRune_append, Huid.
  - intros env outDir Hok.
    destruct (pass3_files fuel uidBlock R outDir pages Hok Hcl st2 eq_refl)
      as (st3 & Hp & HR & Ht).
    exists st3. split; [done|]. split; [done|]. rewrite Ht. f_equal.
    apply flat_map_ext. intros page. apply page_calls_final.
Qed.

(** C6 on a corpus of two pages: a block of [Notes] embeds the block
    [abc123456] of the other page.  The line of the embedded block ends
    with its anchor, the line of the embedding block has none. *)
Lemma anchor_iff_referenced_after_pass2_witness :
  (let R : gset string := {["abc123456"]} in
   (forall uid,
       uid ∈ R <->
       exists b, b ∈ blocks_of corpus
                 /\ uid ∈ resolved_uids 1 corpus_index (Child.String b)
                 /\ is_Some (corpus_index !! uid))
   /\ (forall (page : Page.t) (st : state),
          page ∈ corpus ->
          referencedUID st = R ->
          exists st',
            expandChildren 1 corpus_index page 0 st
            = Some (Ok (map (fun lb =>
                               spec_line (spec_prefix lb.1 lb.2)
                                 (resolved_text 1 corpus_index (Child.String lb.2))
                                 (if decide (Child.UID lb.2 ∈ R)
                                  then " ^" +:+ Child.UID lb.2
                                  else EmptyString))
                          (flatten 0 (Children page))), st')
            /\ referencedUID st' = R)
   /\ (forall lb : nat * Child.t,
          ContainsRune (resolved_text 1 corpus_index (Child.String lb.2)) newline
          = false ->
          ContainsRune (Child.UID lb.2) newline = false ->
          spec_line (spec_prefix lb.1 lb.2)
            (resolved_text 1 corpus_index (Child.String lb.2))
            (if decide (Child.UID lb.2 ∈ R)
             then " ^" +:+ Child.UID lb.2
             else EmptyString)
          = if decide (Child.UID lb.2 ∈ R)
            then spec_prefix lb.1 lb.2
                   +:+ resolved_text 1 corpus_index (Child.String lb.2)
                   +:+ " ^" +:+ Child.UID lb.2
            else spec_prefix lb.1 lb.2
                   +:+ resolved_text 1 corpus_index (Child.String lb.2))
   /\ (forall (env : OS) (outDir : string),
          (forall trace op, os_fail trace op = None) ->
          exists st3,
            pass3 1 corpus corpus_index outDir
              (State R ["Pass 2: track blockrefs"] [])
            = Some (Ok tt, st3)
            /\ referencedUID st3 = R
            /\ fs_trace st3
               = [] ++ flat_map (final_calls 1 corpus_index R outDir) corpus))
  /\ pass2 1 corpus corpus_index initial_state
     = Some (Ok tt, State {["abc123456"]} ["Pass 2: track blockrefs"] [])
  /\ map (fun lb =>
            spec_line (spec_prefix lb.1 lb.2)
              (resolved_text 1 corpus_index (Child.String lb.2))
              (if decide (Child.UID lb.2 ∈ ({["abc123456"]} : gset string))
               then " ^" +:+ Child.UID lb.2
               else EmptyString))
       (flatten 0 (Children (page "2024-01-05" [block "abc123456" "Buy milk" []])))
     = ["Buy milk ^abc123456"]
  /\ map (fun lb =>
            spec_line (spec_prefix lb.1 lb.2)
              (resolved_text 1 corpus_index (Child.String lb.2))
              (if decide (Child.UID lb.2 ∈ ({["abc123456"]} : gset string))
               then " ^" +:+ Child.UID lb.2
               else EmptyString))
       (flatten 0
          (Children
             (page "Notes" [block "xyz987654" "{{embed: ((abc123456))}}" []])))
     = ["Buy milk [[January 5th, 2024#^abc123456]]"]
  /\ @pass3 (os corpus) 1 corpus corpus_index "out"
       (State {["abc123456"]} ["Pass 2: track blockrefs"] [])
     = Some (Ok tt,
             State {["abc123456"]} ["Pass 2: track blockrefs"]
               [MkdirAll "out";
                WriteFile "out/2024-01-05.md" "Buy milk ^abc123456";
                MkdirAll "out";
                WriteFile "out/Notes.md"
                  "Buy milk [[January 5th, 2024#^abc123456]]"]).
Proof.
  split; [|repeat split; vm_compute; reflexivity].
  refine (anchor_iff_referenced_after_pass2 1 corpus corpus_index initial_state
            (State {["abc123456"]} ["Pass 2: track blockrefs"] []) eq_refl _).
  vm_compute. reflexivity.
Defined.

(** ** Scanning for the leftmost match *)

Lemma get_append a b i :
  String.get i (a +:+ b)
  = if i <? len a then String.get i a else String.get (i - len a) b.
Proof.
  revert i. induction a as [|x a IH]; intros i; simpl.
  - by rewrite Nat.sub_0_r.
  - destruct i as [|i]; [done|]. apply IH.
Qed.

Lemma get_slice_from s n i :
  String.get i (slice_from s n) = String.get (n + i) s.
Proof.
  revert s. induction n as [|n IH]; intros s; simpl.
  - done.
  - destruct s as [|x s]; [by destruct i|]. apply IH.
Qed.

Lemma len_slice_to s n : n <= len s -> len (slice_to s n) = n.
Proof.
  revert s. induction n as [|n IH]; intros s Hn; [by destruct s|].
  destruct s as [|x s]; simpl in *; [lia|]. rewrite IH; lia.
Qed.

Lemma slice_from_len_le s n : len (slice_from s n) = len s - n.
Proof.
  revert s. induction n as [|n IH]; intros s; simpl.
  - unfold len. lia.
  - destruct s as [|x s]; [done|]. apply IH.
Qed.

Lemma append_inv_len a b c d :
  len a = len c -> a +:+ b = c +:+ d -> a = c /\ b = d.
Proof.
  revert c. induction a as [|x a IH]; intros [|y c] Hl H; simpl in *; try done.
  injection H as -> H. destruct (IH c) as [-> ->]; [lia|done|done].
Qed.

Section Leftmost.
Context {A : Type} (here : string -> option A).

Lemma find_leftmost_shift s i n :
  find_leftmost here s (i + n)
  = match find_leftmost here s i with
    | Some (q, a) => Some (q + n, a)
    | None => None
    end.
Proof.
  revert i. induction s as [|x s IH]; intros i; simpl.
  - by destruct (here EmptyString).
  - destruct (here (String x s)); [done|]. apply (IH (S i)).
Qed.

Lemma find_leftmost_1 s :
  find_leftmost here s 1
  = match find_leftmost here s 0 with
    | Some (q, a) => Some (S q, a)
    | None => None
    end.
Proof.
  rewrite (find_leftmost_shift s 0 1 : find_leftmost here s 1 = _).
  destruct (find_leftmost here s 0) as [[q a]|]; [|done].
  by rewrite Nat.add_1_r.
Qed.

(** Over a prefix at whose positions nothing matches, the search goes
    on in what follows. *)
Lemma find_leftmost_skip x b i :
  (forall j, j < len x -> here (slice_from (x +:+ b) j) = None) ->
  find_leftmost here (x +:+ b) i = find_leftmost here b (i + len x).
Proof.
  revert i. induction x as [|c x IH]; intros i Hq; simpl.
  - by rewrite Nat.add_0_r.
  - rewrite <- Nat.add_succ_comm, <- IH.
    + specialize (Hq 0 ltac:(simpl; lia)). simpl in Hq. by rewrite Hq.
    + intros j Hj. apply (Hq (S j)). simpl. lia.
Qed.

Lemma find_leftmost_Some s q a :
  find_leftmost here s 0 = Some (q, a) ->
  here (slice_from s q) = Some a
  /\ q <= len s
  /\ forall j, j < q -> here (slice_from s j) = None.
Proof.
  revert q. induction s as [|x s IH]; intros q; simpl.
  - destruct (here EmptyString) eqn:H0; [|done].
    intros [= <- <-]. split; [done|]. split; [done|]. lia.
  - destruct (here (String x s)) eqn:H0.
    + intros [= <- <-]. split; [done|]. split; [lia|]. lia.
    + rewrite find_leftmost_1.
      destruct (find_leftmost here s 0) as [[q' a']|] eqn:Hf; [|done].
      intros [= <- <-]. destruct (IH q' eq_refl) as (H1 & H2 & H3).
      split; [done|]. split; [lia|].
      intros [|j] Hj; [done|]. apply H3. lia.
Qed.

Lemma find_leftmost_intro s q a :
  here (slice_from s q) = Some a ->
  (forall j, j < q -> here (slice_from s j) = None) ->
  find_leftmost here s 0 = Some (q, a).
Proof.
  revert s. induction q as [|q IH]; intros s Hq Hlt.
  - simpl in Hq. destruct s; simpl; by rewrite Hq.
  - destruct s as [|x s].
    + specialize (Hlt 0 ltac:(lia)). simpl in *. congruence.
    + pose proof (Hlt 0 ltac:(lia)) as H0. simpl in *.
      rewrite H0, find_leftmost_1.
      rewrite (IH s); [done|done|].
      intros j Hj. apply (Hlt (S j)). lia.
Qed.

Lemma find_leftmost_None s :
  find_leftmost here s 0 = None <->
  forall j, j <= len s -> here (slice_from s j) = None.
Proof.
  induction s as [|x s IH]; simpl.
  - split.
    + destruct (here EmptyString) eqn:H0; [done|]. intros _ [|j] Hj; [done|lia].
    + intros H. pose proof (H 0 ltac:(lia)) as H0. simpl in H0.
      by rewrite H0.
  - rewrite find_leftmost_1. split.
    + destruct (here (String x s)) eqn:H0; [done|].
      destruct (find_leftmost here s 0) as [[q a]|] eqn:Hf; [done|].
      intros _ [|j] Hj; [done|]. apply IH; [done|lia].
    + intros H. pose proof (H 0 ltac:(lia)) as H0. simpl in H0. rewrite H0.
      destruct IH as [_ IH]. rewrite IH; [done|].
      intros j Hj. apply (H (S j)). lia.
Qed.

(** A match at some position makes the search succeed, at that position
    or before it. *)
Lemma find_leftmost_exists s p a :
  here (slice_from s p) = Some a -> p <= len s ->
  exists q a', find_leftmost here s 0 = Some (q, a') /\ q <= p.
Proof.
  intros Hp Hle.
  destruct (find_leftmost here s 0) as [[q a']|] eqn:Hf.
  - exists q, a'. split; [done|].
    destruct (find_leftmost_Some _ _ _ Hf) as (_ & _ & Hlt).
    destruct (decide (q <= p)); [done|]. rewrite Hlt in Hp; [done|lia].
  - rewrite find_leftmost_None in Hf. rewrite Hf in Hp; done.
Qed.

End Leftmost.

(** ** What the matchers accept *)

Lemma str_all_append P a b :
  str_all P (a +:+ b) = str_all P a && str_all P b.
Proof. induction a as [|x a IH]; simpl; [done|]. by rewrite IH, andb_assoc. Qed.

Lemma str_all_get P s i c :
  str_all P s = true -> String.get i s = Some c -> P c = true.
Proof.
  revert i. induction s as [|x s IH]; intros i; simpl; [done|].
  intros [Hx Hs]%andb_prop. destruct i as [|i]; [by intros [= <-]|]. by apply IH.
Qed.

Lemma str_all_impl (P Q : ascii -> bool) s :
  (forall c, P c = true -> Q c = true) ->
  str_all P s = true -> str_all Q s = true.
Proof.
  intros HPQ. induction s as [|x s IH]; simpl; [done|].
  intros [Hx Hs]%andb_prop. by rewrite (HPQ _ Hx), IH.
Qed.

Lemma lit_then_append {A} l (k : string -> option A) rest :
  lit_then l k (l +:+ rest) = k rest.
Proof. unfold lit_then. by rewrite strip_prefix_append. Qed.

Lemma lit_then_Some {A} l (k : string -> option A) s a :
  lit_then l k s = Some a -> exists rest, s = l +:+ rest /\ k rest = Some a.
Proof.
  unfold lit_then. destruct (strip_prefix l s) as [rest|] eqn:H; [|done].
  intros Hk. exists rest. split; [by apply strip_prefix_Some|done].
Qed.

Lemma times_then_append {A} cls (k : string -> option A) x rest :
  str_all cls x = true -> times_then (len x) cls k (x +:+ rest) = k rest.
Proof.
  induction x as [|c x IH]; simpl; [done|].
  intros [Hc Hx]%andb_prop. rewrite Hc. by apply IH.
Qed.

Lemma times_then_Some {A} n cls (k : string -> option A) s a :
  times_then n cls k s = Some a ->
  exists x rest,
    s = x +:+ rest /\ len x = n /\ str_all cls x = true /\ k rest = Some a.
Proof.
  revert s. induction n as [|n IH]; intros s; simpl.
  - intros Hk. by exists EmptyString, s.
  - destruct s as [|c s]; [done|]. destruct (cls c) eqn:Hc; [|done].
    intros (x & rest & -> & <- & Hx & Hk)%IH.
    exists (String c x), rest. simpl. by rewrite Hc, Hx.
Qed.

Lemma plus_then_Some {A} cls (k : string -> option A) s n a :
  plus_then cls k s = Some (n, a) ->
  exists x rest,
    s = x +:+ rest /\ len x = n /\ 0 < n /\ str_all cls x = true
    /\ k rest = Some a.
Proof.
  revert n. induction s as [|c s IH]; intros n; simpl; [done|].
  destruct (cls c) eqn:Hc; [|done].
  destruct (plus_then cls k s) as [[n' a']|].
  - intros [= <- <-]. destruct (IH n' eq_refl) as (x & rest & -> & <- & _ & Hx & Hk).
    exists (String c x), rest. simpl. rewrite Hc, Hx. repeat split; [lia|done].
  - destruct (k s) as [a'|] eqn:Hk; [|done]. intros [= <- <-].
    exists (String c EmptyString), s. simpl. rewrite Hc. repeat split; [lia|done].
Qed.

(** The repetition takes a given run when the continuation accepts what
    follows the run and the repetition cannot go on from there. *)
Lemma plus_then_append {A} cls (k : string -> option A) x rest a :
  x <> EmptyString -> str_all cls x = true ->
  plus_then cls k rest = None -> k rest = Some a ->
  plus_then cls k (x +:+ rest) = Some (len x, a).
Proof.
  intros Hne Hx Hstop Hk. induction x as [|c x IH]; [done|].
  simpl in *. apply andb_prop in Hx as [Hc Hx]. rewrite Hc.
  destruct x as [|d x].
  - simpl. by rewrite Hstop, Hk.
  - by rewrite IH.
Qed.

Lemma dayLink_tail_Some s :
  dayLink_tail s = Some tt <->
  exists l1 l2 y rest,
    s = String l1 (String l2 (", " +:+ y +:+ "]]" +:+ rest))
    /\ is_lower l1 = true /\ is_lower l2 = true
    /\ len y = 4 /\ str_all is_digit y = true.
Proof.
  unfold dayLink_tail. split.
  - intros (x & r1 & -> & Hlx & Hx & H)%times_then_Some.
    apply lit_then_Some in H as (r2 & -> & H).
    apply times_then_Some in H as (y & r3 & -> & Hly & Hy & H).
    apply lit_then_Some in H as (rest & -> & _).
    destruct x as [|l1 [|l2 [|? ?]]]; try done.
    simpl in Hx. apply andb_prop in Hx as [H1 [H2 _]%andb_prop].
    by exists l1, l2, y, rest.
  - intros (l1 & l2 & y & rest & -> & H1 & H2 & Hly & Hy).
    etrans.
    { apply (times_then_append is_lower _ (String l1 (String l2 EmptyString))).
      simpl. by rewrite H1, H2. }
    rewrite lit_then_append, <- Hly, times_then_append by done.
    by rewrite lit_then_append.
Qed.

(** After the two letters and the comma the repetition cannot go on. *)
Lemma dayLink_plus_stops l1 l2 rest :
  is_lower l2 = true ->
  plus_then dayLink_class dayLink_tail (String l1 (String l2 (String "," rest)))
  = None.
Proof.
  intros H2. unfold dayLink_tail. cbn [plus_then times_then]. rewrite H2.
  change (is_lower ",") with false. change (dayLink_class ",") with false.
  destruct (dayLink_class l1); [|done].
  by destruct (dayLink_class l2).
Qed.

(** The matcher of [reDayLink] at the start of a text, declaratively. *)
Lemma dayLink_here_iff s w :
  dayLink_here s = Some w <->
  exists g rest,
    s = "[[" +:+ g +:+ "]]" +:+ rest /\ dayLink_text g /\ len g = w.
Proof.
  unfold dayLink_here. split.
  - intros (r1 & -> & H)%lit_then_Some.
    destruct (plus_then dayLink_class dayLink_tail r1) as [[n u]|] eqn:Hp; [|done].
    injection H as <-.
    apply plus_then_Some in Hp as (g1 & r2 & -> & <- & Hn & Hg1 & Ht).
    destruct u.
    apply dayLink_tail_Some in Ht as (l1 & l2 & y & rest & -> & H1 & H2 & Hly & Hy).
    exists (g1 +:+ String l1 (String l2 (", " +:+ y))), rest. split; [|split].
    + by rewrite !append_assoc.
    + exists g1, l1, l2, y. repeat split; try done.
      destruct g1; [simpl in Hn; lia|done].
    + rewrite len_append. simpl. fold (len y). lia.
  - intros (g & rest & -> & (g1 & l1 & l2 & y & -> & Hne & Hg1 & H1 & H2 & Hly & Hy) & <-).
    rewrite lit_then_append, append_assoc.
    rewrite (plus_then_append _ _ g1 _ tt Hne Hg1).
    + rewrite len_append. unfold len in *. simpl. do 2 f_equal. lia.
    + by apply dayLink_plus_stops.
    + apply dayLink_tail_Some. exists l1, l2, y, rest.
      repeat split; done.
Qed.

Lemma at_end_Some r u : at_end r = Some u -> r = EmptyString.
Proof. by destruct r. Qed.

Lemma slice_to_all s n : len s = n -> slice_to s n = s.
Proof.
  intros <-. rewrite <- (append_nil_r s) at 1. apply slice_to_append.
Qed.

Lemma daily_rest_Some s n y :
  daily_rest s = Some (n, y) ->
  exists ds l1 l2,
    s = " " +:+ ds +:+ String l1 (String l2 (", " +:+ y))
    /\ ds <> EmptyString /\ str_all is_digit ds = true
    /\ is_lower l1 = true /\ is_lower l2 = true
    /\ len y = 4 /\ str_all is_digit y = true.
Proof.
  unfold daily_rest.
  intros (r1 & -> & H)%lit_then_Some.
  apply plus_then_Some in H as (ds & r2 & -> & <- & Hn & Hds & H).
  apply times_then_Some in H as (ll & r3 & -> & Hll & Hl & H).
  apply lit_then_Some in H as (y0 & -> & H).
  apply times_then_Some in H as (x & r & -> & Hlx & Hx & H).
  destruct (at_end r) as [u|] eqn:Hr; [|done].
  apply at_end_Some in Hr as ->.
  rewrite append_nil_r in H |- *. rewrite (slice_to_all x 4) in H by done.
  injection H as <-.
  destruct ll as [|l1 [|l2 [|? ?]]]; try done.
  simpl in Hl. apply andb_prop in Hl as [H1 [H2 _]%andb_prop].
  exists ds, l1, l2. repeat split; try done.
  destruct ds; [simpl in Hn; lia|done].
Qed.

Lemma daily_alt_Some months s row :
  daily_alt months s = Some row ->
  exists m ds l1 l2 y,
    In m months
    /\ s = m +:+ " " +:+ ds +:+ String l1 (String l2 (", " +:+ y))
    /\ ds <> EmptyString /\ str_all is_digit ds = true
    /\ is_lower l1 = true /\ is_lower l2 = true
    /\ len y = 4 /\ str_all is_digit y = true.
Proof.
  induction months as [|m months IH]; [done|]. cbn [daily_alt].
  destruct (lit_then m daily_rest s) as [[n y]|] eqn:Hm.
  - intros _. apply lit_then_Some in Hm as (r & -> & Hr).
    apply daily_rest_Some in Hr as (ds & l1 & l2 & -> & H).
    exists m, ds, l1, l2, y. split; [by left|]. split; [done|exact H].
  - intros (m' & ds & l1 & l2 & y & Hin & H)%IH.
    exists m', ds, l1, l2, y. split; [by right|done].
Qed.

Lemma reDaily_match_title d :
  reDaily_FindAllStringSubmatch d <> [] -> daily_title d.
Proof.
  unfold reDaily_FindAllStringSubmatch.
  destruct (daily_alt longMonthNames d) as [row|] eqn:H; [|done].
  intros _. by eapply daily_alt_Some.
Qed.

(** Character facts, by enumeration of the 256 bytes. *)

Lemma is_digit_class c : is_digit c = true -> dayLink_class c = true.
Proof. unfold dayLink_class. intros ->. apply orb_true_r. Qed.

Lemma is_digit_not_open c : is_digit c = true -> not_open c = true.
Proof. destruct c as [[] [] [] [] [] [] [] []]; by vm_compute. Qed.

Lemma is_lower_not_open c : is_lower c = true -> not_open c = true.
Proof. destruct c as [[] [] [] [] [] [] [] []]; by vm_compute. Qed.

Lemma is_digit_not_close c : is_digit c = true -> Ascii.eqb c "]" = false.
Proof. destruct c as [[] [] [] [] [] [] [] []]; by vm_compute. Qed.

Lemma linkchar_not_close c : linkchar c = true -> Ascii.eqb c "]" = false.
Proof. destruct c as [[] [] [] [] [] [] [] []]; by vm_compute. Qed.

Lemma linkchar_not_dash c : linkchar c = true -> Ascii.eqb c "-" = false.
Proof. destruct c as [[] [] [] [] [] [] [] []]; by vm_compute. Qed.

Lemma months_class :
  Forall (fun m => str_all dayLink_class m = true
                   /\ str_all not_open m = true
                   /\ m <> EmptyString) longMonthNames.
Proof. unfold longMonthNames. repeat (constructor; [by vm_compute|]). constructor. Qed.

(** A title that [reDaily] matches is the text of a day link. *)
Lemma daily_title_dayLink_text d : daily_title d -> dayLink_text d.
Proof.
  intros (m & ds & l1 & l2 & y & Hin & -> & Hne & Hds & H1 & H2 & Hly & Hy).
  destruct (proj1 (List.Forall_forall _ _) months_class m Hin) as (Hm & _ & Hmne).
  exists (m +:+ " " +:+ ds), l1, l2, y. repeat split; try done.
  - by rewrite !append_assoc.
  - by destruct m.
  - rewrite !str_all_append, Hm. simpl.
    by rewrite (str_all_impl _ _ _ is_digit_class Hds).
Qed.

(** ... and holds no opening bracket. *)
Lemma daily_title_not_open d : daily_title d -> str_all not_open d = true.
Proof.
  intros (m & ds & l1 & l2 & y & Hin & -> & Hne & Hds & H1 & H2 & Hly & Hy).
  destruct (proj1 (List.Forall_forall _ _) months_class m Hin) as (_ & Hm & _).
  rewrite !str_all_append, Hm. simpl.
  rewrite (str_all_impl _ _ _ is_digit_not_open Hds).
  rewrite (is_lower_not_open _ H1), (is_lower_not_open _ H2).
  by rewrite (str_all_impl _ _ _ is_digit_not_open Hy).
Qed.

Lemma dayLink_text_linkchar g : dayLink_text g -> str_all linkchar g = true.
Proof.
  intros (g1 & l1 & l2 & y & -> & _ & Hg1 & H1 & H2 & _ & Hy).
  rewrite str_all_append. simpl. unfold linkchar at 2 3.
  rewrite H1, H2, !orb_true_r. simpl.
  rewrite (str_all_impl dayLink_class linkchar g1); [|by unfold linkchar; intros c ->|done].
  rewrite (str_all_impl is_digit linkchar y); [done| |done].
  intros c Hc. unfold linkchar. by rewrite (is_digit_class _ Hc).
Qed.

Lemma dayLink_text_len g : dayLink_text g -> 9 <= len g.
Proof.
  intros (g1 & l1 & l2 & y & -> & Hne & _ & _ & _ & Hly & _).
  rewrite len_append. simpl. fold (len y). destruct g1; [done|]. simpl. lia.
Qed.

Lemma digit_char_is_digit z : is_digit (Time.digit_char (z mod 10)) = true.
Proof.
  pose proof (Z.mod_pos_bound z 10 ltac:(lia)) as Hb.
  assert (z mod 10 = 0 \/ z mod 10 = 1 \/ z mod 10 = 2 \/ z mod 10 = 3
          \/ z mod 10 = 4 \/ z mod 10 = 5 \/ z mod 10 = 6 \/ z mod 10 = 7
          \/ z mod 10 = 8 \/ z mod 10 = 9)%Z as H by lia.
  repeat (destruct H as [->|H]; [done|]). by rewrite H.
Qed.

Lemma Format_canonical t : canonical_date (Time.Format t).
Proof.
  unfold Time.Format, Time.appendInt. cbn [Time.digits_acc].
  do 8 eexists. split; [reflexivity|].
  repeat (constructor; [apply digit_char_is_digit|]). constructor.
Qed.

(** [parseRoamDate], case by case. *)
Lemma parseRoamDate_daily d canon :
  parseRoamDate d = Ok (canon, true) -> daily_title d /\ canonical_date canon.
Proof.
  unfold parseRoamDate.
  destruct (reDaily_FindAllStringSubmatch d) as [|row rows] eqn:Hm; [done|].
  split; [apply reDaily_match_title; by rewrite Hm|].
  destruct (negb _); [done|]. destruct (Time.Parse _); [|done].
  injection H as <-. apply Format_canonical.
Qed.

Lemma parseRoamDate_not_daily g :
  ~ daily_title g -> parseRoamDate g = Ok (g, false).
Proof.
  intros Hn. unfold parseRoamDate.
  destruct (reDaily_FindAllStringSubmatch g) as [|row rows] eqn:Hm; [done|].
  destruct Hn. apply reDaily_match_title. by rewrite Hm.
Qed.

(** ** One iteration of [replaceDayLinks] *)

Lemma slice_from_append_le a b i :
  i <= len a -> slice_from (a +:+ b) i = slice_from a i +:+ b.
Proof.
  revert i. induction a as [|x a IH]; intros i Hi; simpl in *.
  - by replace i with 0 by lia.
  - destruct i as [|i]; [done|]. apply IH. lia.
Qed.

Lemma append_prefix_split a b c d :
  a +:+ b = c +:+ d -> len a <= len c -> exists e, c = a +:+ e /\ b = e +:+ d.
Proof.
  revert c. induction a as [|x a IH]; intros c H Hl; simpl in *.
  - by exists c.
  - destruct c as [|y c]; simpl in *; [lia|].
    injection H as -> H. destruct (IH c H ltac:(lia)) as (e & -> & ->).
    by exists e.
Qed.

(** The slices that the loop takes around a match at offset [len a]. *)
Lemma slices_of_match a g b :
  let s := a +:+ "[[" +:+ g +:+ "]]" +:+ b in
  slice_to s (len a) = a
  /\ slice s (len a + 2) (len a + 2 + len g) = g
  /\ slice_from s (len a + 2 + len g + 2) = b.
Proof.
  intros s. subst s. split; [apply slice_to_append|]. split.
  - unfold slice. rewrite slice_from_append_add.
    change (slice_from ("[[" +:+ g +:+ "]]" +:+ b) 2) with (g +:+ "]]" +:+ b).
    replace (len a + 2 + len g - (len a + 2)) with (len g) by lia.
    apply slice_to_append.
  - replace (len a + 2 + len g + 2) with (len a + (2 + (len g + 2))) by lia.
    rewrite slice_from_append_add, (slice_from_add _ 2).
    change (slice_from ("[[" +:+ g +:+ "]]" +:+ b) 2) with (g +:+ "]]" +:+ b).
    by rewrite slice_from_append_add.
Qed.

Lemma replaceDayLinks_step fuel a g b :
  find_leftmost dayLink_here (a +:+ "[[" +:+ g +:+ "]]" +:+ b) 0
  = Some (len a, len g) ->
  replaceDayLinks (S fuel) (a +:+ "[[" +:+ g +:+ "]]" +:+ b)
  = match parseRoamDate g with
    | Err err => Some (Err (Errorf "invalid date %q: %w" [g] err))
    | Ok (g', _) => replaceDayLinks fuel (a +:+ "[[" +:+ g' +:+ "]]" +:+ b)
    end.
Proof.
  intros Hf. cbn [replaceDayLinks]. unfold reDayLink_FindStringSubmatchIndex.
  rewrite Hf. unfold idx. cbn [nth].
  destruct (slices_of_match a g b) as (-> & -> & ->).
  destruct (parseRoamDate g) as [[g' ok]|err]; [|done].
  by rewrite !append_assoc.
Qed.

Lemma replaceDayLinks_done fuel s :
  find_leftmost dayLink_here s 0 = None ->
  replaceDayLinks (S fuel) s = Some (Ok s).
Proof.
  intros Hf. cbn [replaceDayLinks]. unfold reDayLink_FindStringSubmatchIndex.
  by rewrite Hf.
Qed.

(** More fuel does not change a result. *)
Lemma replaceDayLinks_mono fuel s r :
  replaceDayLinks fuel s = Some r -> replaceDayLinks (S fuel) s = Some r.
Proof.
  revert s. induction fuel as [|fuel IH]; intros s; [done|].
  intros H. cbn [replaceDayLinks] in *.
  destruct (reDayLink_FindStringSubmatchIndex s) as [m|]; [|done].
  destruct (parseRoamDate _) as [[g' ok]|err]; [|done].
  by apply IH.
Qed.

(** A text returned by the loop holds no day link. *)
Lemma replaceDayLinks_no_link fuel s out :
  replaceDayLinks fuel s = Some (Ok out) ->
  reDayLink_FindStringSubmatchIndex out = None.
Proof.
  revert s. induction fuel as [|fuel IH]; intros s; [done|].
  cbn [replaceDayLinks].
  destruct (reDayLink_FindStringSubmatchIndex s) as [m|] eqn:Hm.
  - destruct (parseRoamDate _) as [[g' ok]|err]; [|done]. apply IH.
  - by intros [= <-].
Qed.

(** The characters of a text that starts with a bracketed text. *)
Lemma get_link g b k :
  String.get k ("[[" +:+ g +:+ "]]" +:+ b)
  = if k <? 2 then Some "["%char
    else if k <? 2 + len g then String.get (k - 2) g
    else if k <? 4 + len g then Some "]"%char
    else String.get (k - 4 - len g) b.
Proof.
  destruct k as [|[|k]]; [done..|].
  change (String.get (S (S k)) ("[[" +:+ g +:+ "]]" +:+ b))
    with (String.get k (g +:+ "]]" +:+ b)).
  rewrite get_append. change (S (S k) <? 2) with false. cbv iota.
  replace (S (S k) - 2) with k by lia.
  destruct (Nat.ltb_spec k (len g)), (Nat.ltb_spec (S (S k)) (2 + len g));
    try lia; [done|].
  destruct (Nat.ltb_spec (S (S k)) (4 + len g)).
  - assert (k - len g = 0 \/ k - len g = 1) as [-> | ->] by lia; done.
  - replace (k - len g) with (S (S (S (S k) - 4 - len g))) by lia. done.
Qed.

(** The leftmost match cuts the text in three. *)
Lemma leftmost_link s q w :
  find_leftmost dayLink_here s 0 = Some (q, w) ->
  exists a g b,
    s = a +:+ "[[" +:+ g +:+ "]]" +:+ b
    /\ len a = q /\ len g = w /\ dayLink_text g
    /\ forall j, j < q -> dayLink_here (slice_from s j) = None.
Proof.
  intros (Hq & Hle & Hlt)%find_leftmost_Some.
  apply dayLink_here_iff in Hq as (g & b & Hs & Hg & Hw).
  exists (slice_to s q), g, b. split; [|by rewrite len_slice_to].
  by rewrite <- Hs, slice_to_from.
Qed.

Lemma link_here g b : dayLink_text g -> dayLink_here ("[[" +:+ g +:+ "]]" +:+ b) = Some (len g).
Proof. intros Hg. apply dayLink_here_iff. by exists g, b. Qed.

(** A match depends on the matched span only: a match in [a], inside a
    longer text, is a match whatever follows [a]. *)
Lemma link_local a z z' j w :
  dayLink_here (slice_from (a +:+ z) j) = Some w ->
  j + w + 4 <= len a ->
  dayLink_here (slice_from (a +:+ z') j) = Some w.
Proof.
  intros Hm Hle. rewrite slice_from_append_le in * by lia.
  apply dayLink_here_iff in Hm as (g & r & Hs & Hg & Hw).
  change ("[[" +:+ g +:+ "]]" +:+ r) with (String "[" (String "[" (g +:+ "]]" +:+ r))) in Hs.
  symmetry in Hs.
  assert (Hs' : ("[[" +:+ g +:+ "]]") +:+ r = slice_from a j +:+ z).
  { by rewrite !append_assoc. }
  apply append_prefix_split in Hs' as (e & -> & _).
  - rewrite !append_assoc.
    change ("[[" +:+ g +:+ "]]" +:+ e +:+ z') with ("[[" +:+ g +:+ "]]" +:+ (e +:+ z')).
    rewrite <- Hw. by apply link_here.
  - rewrite slice_from_len_le, !len_append. simpl. lia.
Qed.

(** At the positions of a prefix in which nothing matches, whatever
    follows, the loop works on what follows the prefix. *)
Lemma replaceDayLinks_quiet_prefix x :
  (forall b j, j < len x -> dayLink_here (slice_from (x +:+ b) j) = None) ->
  forall fuel b,
    replaceDayLinks fuel (x +:+ b)
    = match replaceDayLinks fuel b with
      | Some (Ok b') => Some (Ok (x +:+ b'))
      | r => r
      end.
Proof.
  intros Hq fuel. induction fuel as [|fuel IH]; intros b; [done|].
  pose proof (find_leftmost_skip dayLink_here x b 0 (Hq b)) as Hx.
  rewrite (find_leftmost_shift dayLink_here b 0 (len x)) in Hx.
  destruct (find_leftmost dayLink_here b 0) as [[q w]|] eqn:Hb.
  - apply leftmost_link in Hb as Hcut.
    destruct Hcut as (b1 & g & b2 & -> & <- & <- & Hg & _).
    rewrite (replaceDayLinks_step fuel b1 g b2 Hb).
    rewrite <- append_assoc.
    rewrite (replaceDayLinks_step fuel (x +:+ b1) g b2).
    + destruct (parseRoamDate g) as [[g' ok]|err]; [|done].
      rewrite append_assoc. apply IH.
    + rewrite append_assoc, Hx, len_append. f_equal. f_equal. lia.
  - by rewrite !replaceDayLinks_done.
Qed.

(** ** A rewritten link is left alone *)

(** The characters of a text that starts with a canonical date in
    brackets: no closing bracket before the first dash, then no opening
    bracket up to the end of the link. *)
Lemma canonical_link_chars canon y :
  canonical_date canon ->
  (forall k c, k < 6 ->
     String.get k ("[[" +:+ canon +:+ "]]" +:+ y) = Some c ->
     Ascii.eqb c "]" = false)
  /\ String.get 6 ("[[" +:+ canon +:+ "]]" +:+ y) = Some "-"%char
  /\ (forall k c, 6 < k < 14 ->
        String.get k ("[[" +:+ canon +:+ "]]" +:+ y) = Some c ->
        not_open c = true).
Proof.
  intros (c0 & c1 & c2 & c3 & c4 & c5 & c6 & c7 & -> & Hd).
  repeat match goal with
         | H : Forall _ (_ :: _) |- _ => apply Forall_cons in H as [? H]
         end.
  split; [|split; [done|]].
  - intros k c Hk. do 6 (destruct k as [|k]; [simpl; intros [= <-]; first [reflexivity | by apply is_digit_not_close]|]). lia.
  - intros k c Hk. do 7 (destruct k as [|k]; [lia|]).
    do 7 (destruct k as [|k]; [simpl; intros [= <-]; first [reflexivity | by apply is_digit_not_open]|]). lia.
Qed.

Lemma get_here_link s i g r k :
  slice_from s i = "[[" +:+ g +:+ "]]" +:+ r ->
  String.get (i + k) s = String.get k ("[[" +:+ g +:+ "]]" +:+ r).
Proof. intros <-. by rewrite get_slice_from. Qed.

(** Once the link after [a] is in canonical form, no match starts in [a]
    or in the link, whatever follows, provided none started in [a]
    before. *)
Lemma canonical_link_quiet a canon z0 :
  canonical_date canon ->
  (forall j, j < len a -> dayLink_here (slice_from (a +:+ z0) j) = None) ->
  forall y j,
    j < len (a +:+ "[[" +:+ canon +:+ "]]") ->
    dayLink_here (slice_from ((a +:+ "[[" +:+ canon +:+ "]]") +:+ y) j) = None.
Proof.
  intros Hc Hquiet y j Hj.
  assert (Hlen : len (a +:+ "[[" +:+ canon +:+ "]]") = len a + 14).
  { destruct Hc as (c0 & c1 & c2 & c3 & c4 & c5 & c6 & c7 & -> & _).
    by rewrite len_append. }
  rewrite Hlen in Hj.
  assert (Ht : (a +:+ "[[" +:+ canon +:+ "]]") +:+ y
               = a +:+ "[[" +:+ canon +:+ "]]" +:+ y).
  { by rewrite !append_assoc. }
  rewrite Ht.
  destruct (canonical_link_chars canon y Hc) as (F1 & F2 & F3).
  destruct (dayLink_here _) as [w|] eqn:Hm; [exfalso|done].
  apply dayLink_here_iff in Hm as Hshape.
  destruct Hshape as (g & r & Hs & Hg & Hw).
  pose proof (dayLink_text_len _ Hg) as Hw9.
  pose proof (dayLink_text_linkchar _ Hg) as Hlc.
  pose proof (fun k => get_here_link _ _ _ _ k Hs) as Hget.
  assert (Hat : forall p, len a <= p ->
            String.get p (a +:+ "[[" +:+ canon +:+ "]]" +:+ y)
            = String.get (p - len a) ("[[" +:+ canon +:+ "]]" +:+ y)).
  { intros p Hp. rewrite get_append.
    destruct (Nat.ltb_spec p (len a)); [lia|done]. }
  destruct (decide (len a + 6 < j)) as [Hlate|Hearly].
  - (* the match would start after the first dash *)
    specialize (Hget 0). rewrite Nat.add_0_r, Hat in Hget by lia.
    change (String.get 0 ("[[" +:+ g +:+ "]]" +:+ r)) with (Some "["%char) in Hget.
    apply F3 in Hget; [by vm_compute in Hget|lia].
  - destruct (decide (j + w + 4 <= len a)) as [Hin|Hout].
    + (* the match lies in [a] *)
      pose proof (link_local a _ z0 j w Hm Hin) as Hm0.
      rewrite Hquiet in Hm0 by lia. done.
    + destruct (decide (len a + 6 < j + w + 4)) as [Hdash|Hshort].
      * (* the match would hold the first dash *)
        specialize (Hget (len a + 6 - j)).
        replace (j + (len a + 6 - j)) with (len a + 6) in Hget by lia.
        rewrite Hat in Hget by lia.
        replace (len a + 6 - len a) with 6 in Hget by lia.
        rewrite F2, (get_link g r) in Hget.
        destruct (Nat.ltb_spec (len a + 6 - j) 2); [done|].
        destruct (Nat.ltb_spec (len a + 6 - j) (2 + len g)).
        { symmetry in Hget. apply (str_all_get _ _ _ _ Hlc) in Hget.
          by apply linkchar_not_dash in Hget. }
        destruct (Nat.ltb_spec (len a + 6 - j) (4 + len g)); [done|lia].
      * (* the match would end before the first dash, in the link *)
        specialize (Hget (w + 3)).
        rewrite Hat in Hget by lia. rewrite (get_link g r) in Hget.
        destruct (Nat.ltb_spec (w + 3) 2); [lia|].
        destruct (Nat.ltb_spec (w + 3) (2 + len g)); [lia|].
        destruct (Nat.ltb_spec (w + 3) (4 + len g)); [|lia].
        apply F1 in Hget; [done|lia].
Qed.

(** ** A day link with a valid date is rewritten *)

(** A match that starts in [a] and ends after it holds the opening
    bracket of the link that follows [a]: its text is no daily title. *)
Lemma overlapping_link_not_daily a1 g b1 a z :
  a1 +:+ "[[" +:+ g +:+ "]]" +:+ b1 = a +:+ "[[" +:+ z ->
  len a1 < len a -> len a < len a1 + len g + 4 ->
  0 < len g ->
  ~ daily_title g.
Proof.
  intros Hs Hlt Hover Hpos Hd.
  pose proof (daily_title_not_open _ Hd) as Hno.
  assert (Hget : forall k,
            String.get (len a - len a1 + k) ("[[" +:+ g +:+ "]]" +:+ b1)
            = String.get k ("[[" +:+ z)).
  { intros k.
    pose proof (f_equal (String.get (len a + k)) Hs) as H.
    rewrite (get_append a1), (get_append a) in H.
    destruct (Nat.ltb_spec (len a + k) (len a1)); [lia|].
    destruct (Nat.ltb_spec (len a + k) (len a)); [lia|].
    replace (len a + k - len a) with k in H by lia.
    by replace (len a + k - len a1) with (len a - len a1 + k) in H by lia. }
  destruct (decide (len a - len a1 = 1)) as [H1|H1].
  - specialize (Hget 1). rewrite H1 in Hget. change (1 + 1) with 2 in Hget.
    rewrite get_link in Hget.
    change (2 <? 2) with false in Hget. cbv iota in Hget.
    change (String.get 1 ("[[" +:+ z)) with (Some "["%char) in Hget.
    destruct (Nat.ltb_spec 2 (2 + len g)); [|lia].
    apply (str_all_get _ _ _ _ Hno) in Hget. by vm_compute in Hget.
  - specialize (Hget 0). rewrite Nat.add_0_r, get_link in Hget.
    change (String.get 0 ("[[" +:+ z)) with (Some "["%char) in Hget.
    destruct (Nat.ltb_spec (len a - len a1) 2); [lia|].
    destruct (Nat.ltb_spec (len a - len a1) (2 + len g)).
    + apply (str_all_get _ _ _ _ Hno) in Hget. by vm_compute in Hget.
    + destruct (Nat.ltb_spec (len a - len a1) (4 + len g)); [done|lia].
Qed.

Lemma link_assoc a g b :
  (a +:+ "[[" +:+ g +:+ "]]") +:+ b = a +:+ "[[" +:+ g +:+ "]]" +:+ b.
Proof. rewrite append_assoc. cbn [String.append]. by rewrite append_assoc. Qed.

Lemma len_link a g : len (a +:+ "[[" +:+ g +:+ "]]") = len a + len g + 4.
Proof.
  rewrite len_append. cbn [String.append len String.length].
  fold (len (g +:+ "]]")). rewrite len_append. simpl. lia.
Qed.

Lemma link_assoc2 a g e z :
  (a +:+ "[[" +:+ g +:+ "]]" +:+ e) +:+ z
  = a +:+ "[[" +:+ g +:+ "]]" +:+ e +:+ z.
Proof. by rewrite <- link_assoc, append_assoc, link_assoc. Qed.

(** A match in a text is a match in every extension of the text. *)
Lemma link_extend a z j w :
  dayLink_here (slice_from a j) = Some w -> j <= len a ->
  dayLink_here (slice_from (a +:+ z) j) = Some w.
Proof.
  intros (g & r & Hs & Hg & <-)%dayLink_here_iff Hj.
  rewrite slice_from_append_le, Hs by done.
  change (("[[" +:+ g +:+ "]]" +:+ r) +:+ z)
    with (String "[" (String "[" ((g +:+ "]]" +:+ r) +:+ z))).
  rewrite append_assoc.
  change (String "[" (String "[" (g +:+ ("]]" +:+ r) +:+ z)))
    with ("[[" +:+ g +:+ "]]" +:+ (r +:+ z)).
  by apply link_here.
Qed.

Lemma no_link_before a z q :
  (forall j, j < q -> dayLink_here (slice_from (a +:+ z) j) = None) ->
  q <= len a ->
  forall j, j < q -> dayLink_here (slice_from a j) = None.
Proof.
  intros Hbefore Hq j Hj.
  destruct (dayLink_here (slice_from a j)) as [w|] eqn:Hm; [|done].
  rewrite <- (Hbefore j Hj). symmetry. apply link_extend; [done|lia].
Qed.

Lemma replaceDayLinks_daily_link fuel d canon b :
  parseRoamDate d = Ok (canon, true) ->
  forall a out,
    replaceDayLinks fuel (a +:+ "[[" +:+ d +:+ "]]" +:+ b) = Some (Ok out) ->
    exists a' b',
      out = a' +:+ "[[" +:+ canon +:+ "]]" +:+ b'
      /\ replaceDayLinks fuel a = Some (Ok a')
      /\ replaceDayLinks fuel b = Some (Ok b').
Proof.
  intros Hd. destruct (parseRoamDate_daily _ _ Hd) as [Htitle Hcanon].
  pose proof (daily_title_dayLink_text _ Htitle) as Htext.
  induction fuel as [|fuel IH]; intros a out Hrun; [done|].
  set (s := a +:+ "[[" +:+ d +:+ "]]" +:+ b) in *.
  assert (Hat : dayLink_here (slice_from s (len a)) = Some (len d)).
  { unfold s. rewrite slice_from_append. by apply link_here. }
  destruct (find_leftmost_exists dayLink_here s (len a) (len d) Hat)
    as (q & w & Hf & Hq).
  { unfold s. rewrite len_append. lia. }
  destruct (leftmost_link _ _ _ Hf) as (a1 & g & b1 & Hs & Hq1 & Hw & Hg & Hbefore).
  pose proof (dayLink_text_len _ Hg) as Hg9.
  destruct (decide (q = len a)) as [->|Hne].
  - (* the leftmost match is the link itself *)
    assert (Hwd : len g = len d).
    { rewrite Hw. pose proof (find_leftmost_Some _ _ _ _ Hf) as (Hh & _).
      rewrite Hat in Hh. by injection Hh. }
    unfold s in Hs.
    apply append_inv_len in Hs as [Ha1 Hs]; [|lia]. subst a1.
    injection Hs as Hs.
    apply append_inv_len in Hs as [Hgd Hs]; [|lia]. subst g.
    injection Hs as Hb1. subst b1.
    unfold s in Hrun, Hf.
    rewrite (replaceDayLinks_step fuel a d b), Hd in Hrun by (by rewrite Hf, Hw).
    rewrite <- link_assoc in Hrun.
    rewrite (replaceDayLinks_quiet_prefix (a +:+ "[[" +:+ canon +:+ "]]")) in Hrun.
    + destruct (replaceDayLinks fuel b) as [[b'|e]|] eqn:Hb; [|done..].
      injection Hrun as <-. exists a, b'. split; [exact (link_assoc a canon b')|].
      split; [|by apply replaceDayLinks_mono].
      apply replaceDayLinks_done, find_leftmost_None. intros j Hj.
      destruct (decide (j = len a)) as [->|Hjne].
      * by rewrite <- (append_nil_r a) at 1; rewrite slice_from_append.
      * apply (no_link_before a _ (len a) Hbefore); lia.
    + intros y j Hj. eapply canonical_link_quiet; [done| |done].
      intros j' Hj'. apply Hbefore. lia.
  - (* the leftmost match starts in [a] *)
    assert (Hlt : len a1 < len a) by lia.
    fold s in Hrun. rewrite Hs in Hrun, Hf.
    rewrite (replaceDayLinks_step fuel a1 g b1) in Hrun by (by rewrite Hf, Hq1, Hw).
    destruct (decide (len a1 + len g + 4 <= len a)) as [Hin|Hover].
    + (* and ends in [a] *)
      assert (Hs' : (a1 +:+ "[[" +:+ g +:+ "]]") +:+ b1
                    = a +:+ "[[" +:+ d +:+ "]]" +:+ b).
      { by rewrite !append_assoc. }
      apply append_prefix_split in Hs' as (e & Ha & Hb1);
        [|rewrite len_link; lia].
      rewrite link_assoc in Ha. subst a b1.
      destruct (parseRoamDate g) as [[g' ok]|err] eqn:Hpg; [|done].
      rewrite <- link_assoc2 in Hrun.
      destruct (IH _ _ Hrun) as (a' & b' & -> & Ha & Hb).
      exists a', b'. split; [done|]. split; [|by apply replaceDayLinks_mono].
      rewrite replaceDayLinks_step, Hpg; [done|].
      apply find_leftmost_intro.
      * rewrite slice_from_append. by apply link_here.
      * apply (no_link_before _ ("[[" +:+ d +:+ "]]" +:+ b)); [|lia].
        intros j Hj. apply Hbefore. lia.
    + (* and ends after [a]: the text is unchanged *)
      rewrite parseRoamDate_not_daily in Hrun.
      * rewrite <- Hs in Hrun. destruct (IH a out Hrun) as (a' & b' & -> & Ha & Hb).
        exists a', b'. split; [done|]. split; by apply replaceDayLinks_mono.
      * eapply (overlapping_link_not_daily a1 g b1 a);
          [symmetry; exact Hs|lia|lia|lia].
Qed.

(** A text without an opening bracket holds the start of no match,
    whatever follows it. *)
Lemma no_open_quiet a :
  str_all not_open a = true ->
  forall z j, j < len a -> dayLink_here (slice_from (a +:+ z) j) = None.
Proof.
  intros Ha z j Hj.
  destruct (dayLink_here _) as [w|] eqn:Hm; [exfalso|done].
  apply dayLink_here_iff in Hm as (g & r & Hs & _).
  pose proof (get_here_link _ _ _ _ 0 Hs) as Hget.
  rewrite Nat.add_0_r, get_append in Hget.
  destruct (Nat.ltb_spec j (len a)); [|lia].
  change (String.get 0 ("[[" +:+ g +:+ "]]" +:+ r)) with (Some "["%char) in Hget.
  apply (str_all_get _ _ _ _ Ha) in Hget. by vm_compute in Hget.
Qed.

(** A link with a valid date at the start of a text is rewritten in one
    iteration, and the loop goes on with what follows the link. *)
Lemma replaceDayLinks_first_link fuel d canon b :
  parseRoamDate d = Ok (canon, true) ->
  replaceDayLinks (S fuel) ("[[" +:+ d +:+ "]]" +:+ b)
  = match replaceDayLinks fuel b with
    | Some (Ok b') => Some (Ok ("[[" +:+ canon +:+ "]]" +:+ b'))
    | r => r
    end.
Proof.
  intros Hd. destruct (parseRoamDate_daily _ _ Hd) as [Htitle Hcanon].
  pose proof (daily_title_dayLink_text _ Htitle) as Htext.
  etrans.
  { apply (replaceDayLinks_step fuel EmptyString d b).
    apply find_leftmost_intro; [by apply link_here|].
    intros j Hj. simpl in Hj. lia. }
  rewrite Hd, <- (link_assoc EmptyString canon b).
  rewrite (replaceDayLinks_quiet_prefix (EmptyString +:+ "[[" +:+ canon +:+ "]]")).
  - destruct (replaceDayLinks fuel b) as [[b'|e]|]; [|done..].
    by rewrite link_assoc.
  - intros y j Hj.
    apply (canonical_link_quiet EmptyString canon EmptyString Hcanon); [|done].
    intros j' Hj'. simpl in Hj'. lia.
Qed.

(** X1: let [d] be a daily title with a valid date and [canon]
    its canonical form, and let a block text hold [[[d]]] between [a] and
    [b].
    - Whenever the rewriting of the day links returns a text, that text
      is [a' [[canon]] b'], where [a'] and [b'] are the texts that the
      rewriting returns for [a] and for [b], and it holds no day link.
    - The rewriting does return, with the text [a [[canon]] b'], when [a]
      holds no opening bracket and the rewriting of [b] returns [b']. *)
Theorem replaceDayLinks_rewrites_daily_link :
  forall (a d b canon : string),
    parseRoamDate d = Ok (canon, true) ->
    (forall (fuel : nat) (out : string),
        replaceDayLinks fuel (a +:+ "[[" +:+ d +:+ "]]" +:+ b) = Some (Ok out) ->
        exists a' b',
          out = a' +:+ "[[" +:+ canon +:+ "]]" +:+ b'
          /\ replaceDayLinks fuel a = Some (Ok a')
          /\ replaceDayLinks fuel b = Some (Ok b')
          /\ reDayLink_FindStringSubmatchIndex out = None)
    /\ (forall (fuel : nat) (b' : string),
           str_all not_open a = true ->
           replaceDayLinks fuel b = Some (Ok b') ->
           replaceDayLinks (S fuel) (a +:+ "[[" +:+ d +:+ "]]" +:+ b)
           = Some (Ok (a +:+ "[[" +:+ canon +:+ "]]" +:+ b'))).
Proof.
  intros a d b canon Hd. split.
  - intros fuel out Hrun.
    destruct (replaceDayLinks_daily_link fuel d canon b Hd a out Hrun)
      as (a' & b' & Hout & Ha & Hb).
    exists a', b'. repeat split; try done.
    by eapply replaceDayLinks_no_link.
  - intros fuel b' Ha Hb.
    rewrite (replaceDayLinks_quiet_prefix a (no_open_quiet a Ha)).
    by rewrite (replaceDayLinks_first_link fuel d canon b Hd), Hb.
Qed.

(** On the text [see [[January 5th, 2024]] and [[May 2nd, 2020]]]. *)
Lemma replaceDayLinks_rewrites_daily_link_witness :
  (exists a' b',
      "see [[2024-01-05]] and [[2020-05-02]]"
      = a' +:+ "[[" +:+ "2024-01-05" +:+ "]]" +:+ b'
      /\ replaceDayLinks 3 "see " = Some (Ok a')
      /\ replaceDayLinks 3 " and [[May 2nd, 2020]]" = Some (Ok b')
      /\ reDayLink_FindStringSubmatchIndex
           "see [[2024-01-05]] and [[2020-05-02]]" = None)
  /\ replaceDayLinks 3 ("see " +:+ "[[" +:+ "January 5th, 2024" +:+ "]]"
                          +:+ " and [[May 2nd, 2020]]")
     = Some (Ok ("see " +:+ "[[" +:+ "2024-01-05" +:+ "]]"
                   +:+ " and [[2020-05-02]]")).
Proof.
  destruct (replaceDayLinks_rewrites_daily_link
              "see " "January 5th, 2024" " and [[May 2nd, 2020]]" "2024-01-05"
              eq_refl) as [Hany Hret].
  split.
  - apply (Hany 3 "see [[2024-01-05]] and [[2020-05-02]]"). reflexivity.
  - apply (Hret 2 " and [[2020-05-02]]"); reflexivity.
Defined.

(** The date error of a link is fatal: the text below holds the link
    [[[January 5th, 2024]]], whose date is valid, and the rewriting
    returns the date error of the link before it, for every fuel that
    lets it start. *)
Lemma replaceDayLinks_error_before_valid_link :
  parseRoamDate "January 5th, 2024" = Ok ("2024-01-05", true)
  /\ (forall fuel : nat,
         replaceDayLinks (S fuel)
           ("[[February 30th, 2024]] " +:+ "[[" +:+ "January 5th, 2024" +:+ "]]")
         = Some (Err (Errorf "invalid date %q: %w" ["February 30th, 2024"]
                        (ParseError "January _2 2006" "February 30 2024"
                           EmptyString EmptyString ": day out of range")))).
Proof. split; [reflexivity|]. intros fuel. reflexivity. Qed.

(** * Further properties of the passes *)

(** ** Daily titles, date by date *)

Lemma is_lower_not_digit c : is_lower c = true -> is_digit c = false.
Proof. destruct c as [[] [] [] [] [] [] [] []]; by vm_compute. Qed.

Lemma is_digit_not_space c : is_digit c = true -> Ascii.eqb c " " = false.
Proof. destruct c as [[] [] [] [] [] [] [] []]; by vm_compute. Qed.

Lemma digit_char_of_digit c :
  is_digit c = true ->
  (0 <= Z.of_N (byte_val c) - 48 <= 9)%Z
  /\ Time.digit_char (Z.of_N (byte_val c) - 48) = c.
Proof. destruct c as [[] [] [] [] [] [] [] []]; by vm_compute. Qed.

Lemma daily_rest_intro ds l1 l2 y :
  ds <> EmptyString -> str_all is_digit ds = true ->
  is_lower l1 = true -> is_lower l2 = true ->
  len y = 4 -> str_all is_digit y = true ->
  daily_rest (" " +:+ ds +:+ String l1 (String l2 (", " +:+ y)))
  = Some (len ds, y).
Proof.
  intros Hne Hds H1 H2 Hly Hy. unfold daily_rest.
  rewrite lit_then_append.
  apply plus_then_append; try done.
  - cbn [plus_then]. by rewrite (is_lower_not_digit _ H1).
  - cbn [times_then]. rewrite H1, H2. rewrite lit_then_append.
    destruct y as [|y1 [|y2 [|y3 [|y4 [|? ?]]]]]; try done.
    cbn [str_all] in Hy.
    by destruct (is_digit y1), (is_digit y2), (is_digit y3), (is_digit y4).
Qed.

Lemma daily_alt_intro name ds l1 l2 y :
  In name longMonthNames ->
  ds <> EmptyString -> str_all is_digit ds = true ->
  is_lower l1 = true -> is_lower l2 = true ->
  len y = 4 -> str_all is_digit y = true ->
  reDaily_FindAllStringSubmatch
    (name +:+ " " +:+ ds +:+ String l1 (String l2 (", " +:+ y)))
  = [[name +:+ " " +:+ ds +:+ String l1 (String l2 (", " +:+ y));
      name; ds; y]].
Proof.
  intros Hin Hne Hds H1 H2 Hly Hy.
  pose proof (daily_rest_intro ds l1 l2 y Hne Hds H1 H2 Hly Hy) as Hrest.
  assert (Hslice : forall n : string,
             slice (n +:+ " " +:+ ds +:+ String l1 (String l2 (", " +:+ y)))
               (len n + 1) (len n + 1 + len ds) = ds).
  { intros n. unfold slice.
    replace (len n + 1 + len ds - (len n + 1)) with (len ds) by lia.
    replace (n +:+ " " +:+ ds +:+ String l1 (String l2 (", " +:+ y)))
      with ((n +:+ " ") +:+ ds +:+ String l1 (String l2 (", " +:+ y)))
      by (by rewrite append_assoc).
    replace (len n + 1) with (len (n +:+ " ")) by (rewrite len_append; done).
    by rewrite slice_from_append, slice_to_append. }
  unfold reDaily_FindAllStringSubmatch, longMonthNames in *.
  repeat (destruct Hin as [<-|Hin];
          [ cbn [daily_alt];
            repeat (match goal with
                    | |- context [lit_then ?m daily_rest (?n +:+ ?r)] =>
                        first [ change (lit_then m daily_rest (n +:+ r))
                                  with (@None (nat * string))
                              | rewrite (lit_then_append n daily_rest r), Hrest ]
                    end; cbv iota beta);
            by rewrite Hslice | ]).
  destruct Hin.
Qed.

(** Two texts that differ, case set aside, at a place that both have. *)
Lemma match_fold_differ p v tail :
  differ p v = true ->
  Time.match_fold (slice_to (p +:+ tail) (len v)) v = false.
Proof.
  revert v. induction p as [|c1 p IH]; intros [|c2 v]; try done.
  cbn [differ len String.length String.append slice_to Time.match_fold].
  destruct (Ascii.eqb c1 c2) eqn:E1; cbn [negb orb andb].
  - apply IH.
  - destruct (_ && _ && _); cbn [negb orb andb]; [apply IH|done].
Qed.

Lemma match_fold_refl s : Time.match_fold s s = true.
Proof.
  induction s as [|c s IH]; [done|]. cbn [Time.match_fold].
  by rewrite Ascii.eqb_refl, IH.
Qed.

Lemma lookup_skip pre tab p tail i :
  Forall (fun v => differ p v = true) pre ->
  Time.lookup (pre ++ tab) (p +:+ tail) i
  = Time.lookup tab (p +:+ tail) (i + Z.of_nat (length pre)).
Proof.
  revert i. induction pre as [|v pre IH]; intros i Hpre.
  - cbn [app length]. by rewrite Z.add_0_r.
  - apply Forall_cons in Hpre as [Hv Hpre].
    cbn [app Time.lookup]. rewrite (match_fold_differ p v tail Hv), andb_false_r.
    rewrite (IH _ Hpre). f_equal. cbn [length]. lia.
Qed.

Lemma lookup_here name tab tail i :
  Time.lookup (name :: tab) (name +:+ tail) i = Some (i, tail).
Proof.
  cbn [Time.lookup]. rewrite slice_to_append, match_fold_refl, slice_from_append.
  rewrite len_append. by destruct (Nat.leb_spec (len name) (len name + len tail)); [|lia].
Qed.

Lemma months_differ m name :
  longMonthNames !! m = Some name ->
  Forall (fun v => differ name v = true) (take m longMonthNames).
Proof.
  unfold longMonthNames. intros Hm.
  do 12 (destruct m as [|m];
         [ injection Hm as <-; cbn [take];
           repeat (constructor; [by vm_compute|]); constructor
         | ]).
  done.
Qed.

Lemma lookup_month m name tail :
  longMonthNames !! m = Some name ->
  Time.lookup longMonthNames (name +:+ String " " tail) 0
  = Some (Z.of_nat m, String " " tail).
Proof.
  intros Hm.
  rewrite <- (take_drop_middle longMonthNames m name Hm) at 1.
  rewrite (lookup_skip _ _ _ _ _ (months_differ m name Hm)), lookup_here.
  rewrite length_take, Nat.min_l; [done|].
  apply lookup_lt_Some in Hm. lia.
Qed.

Lemma getnum_one d1 c r :
  is_digit d1 = true -> is_digit c = false ->
  Time.getnum (String d1 (String c r)) false
  = Some (decimal (String d1 EmptyString), String c r).
Proof.
  intros H1 Hc. unfold Time.getnum, Time.isDigit. cbn [get].
  rewrite H1, Hc. cbn [negb]. unfold Time.digit_at, decimal. cbn [get decimal_acc].
  do 2 f_equal.
Qed.

Lemma getnum_two d1 d2 r :
  is_digit d1 = true -> is_digit d2 = true ->
  Time.getnum (String d1 (String d2 r)) false
  = Some (decimal (String d1 (String d2 EmptyString)), r).
Proof.
  intros H1 H2. unfold Time.getnum, Time.isDigit. cbn [get].
  rewrite H1, H2. cbn [negb]. unfold Time.digit_at, decimal. cbn [get decimal_acc].
  do 2 f_equal.
Qed.

Lemma skip_space c r :
  Ascii.eqb c " " = false ->
  Time.skip (String " " (String c r)) " " = Some (String c r).
Proof.
  intros Hc. unfold Time.skip. cbn [len String.length Time.skip_loop].
  change (Ascii.eqb " " " ") with true. cbn [negb Time.cutspace].
  change (Ascii.eqb " " " ") with true. cbv iota. cbn [Time.cutspace].
  rewrite Hc. reflexivity.
Qed.

Lemma skip_no_space c r :
  Ascii.eqb c " " = false -> Time.skip (String c r) " " = None.
Proof.
  intros Hc. unfold Time.skip. cbn [len String.length Time.skip_loop].
  change (Ascii.eqb " " " ") with true. cbv iota. by rewrite Hc.
Qed.

Lemma parse_longYear y f :
  str_all is_digit y = true -> len y = 4 ->
  Time.parse_std Time.stdLongYear y f
  = Some (EmptyString, Time.Fields (decimal y) (Time.f_month f) (Time.f_day f)).
Proof.
  intros Hy Hly.
  destruct y as [|y1 [|y2 [|y3 [|y4 [|? ?]]]]]; try done.
  cbn [str_all] in Hy.
  destruct (is_digit y1) eqn:Hy1, (is_digit y2) eqn:Hy2,
    (is_digit y3) eqn:Hy3, (is_digit y4) eqn:Hy4; try done.
  unfold Time.parse_std, Time.isDigit.
  cbn [len String.length Nat.ltb Nat.leb get orb slice_to slice_from].
  rewrite Hy1. cbn [negb orb].
  unfold Time.atoi, decimal. cbn [Time.atoi_acc decimal_acc].
  by rewrite Hy1, Hy2, Hy3, Hy4.
Qed.

Lemma parse_longMonth m name tail f :
  longMonthNames !! m = Some name ->
  Time.parse_std Time.stdLongMonth (name +:+ String " " tail) f
  = Some (String " " tail,
          Time.Fields (Time.f_year f) (Z.of_nat m + 1) (Time.f_day f)).
Proof. intros Hm. cbn [Time.parse_std]. by rewrite (lookup_month m name _ Hm). Qed.

Lemma parse_underDay ds c r f :
  str_all is_digit ds = true -> 1 <= len ds <= 2 -> is_digit c = false ->
  Time.parse_std Time.stdUnderDay (ds +:+ String c r) f
  = Some (String c r,
          Time.Fields (Time.f_year f) (Time.f_month f) (decimal ds)).
Proof.
  intros Hds Hlds Hc.
  destruct ds as [|d1 [|d2 [|? ?]]]; cbn [len String.length] in Hlds; try lia.
  - cbn [str_all] in Hds. destruct (is_digit d1) eqn:Hd1; [|done].
    cbn [Time.parse_std String.append].
    rewrite (is_digit_not_space _ Hd1).
    by rewrite (getnum_one d1 c _ Hd1 Hc).
  - cbn [str_all] in Hds. destruct (is_digit d1) eqn:Hd1; [|done].
    destruct (is_digit d2) eqn:Hd2; [|done].
    cbn [Time.parse_std String.append].
    rewrite (is_digit_not_space _ Hd1).
    by rewrite (getnum_two d1 d2 _ Hd1 Hd2).
Qed.

Lemma Parse_rawTitle m name ds y :
  longMonthNames !! m = Some name ->
  str_all is_digit ds = true -> 1 <= len ds <= 2 ->
  str_all is_digit y = true -> len y = 4 ->
  Time.Parse (name +:+ " " +:+ ds +:+ " " +:+ y)
  = if ((decimal ds <? 1)
        || (Time.daysIn (Z.of_nat m + 1) (decimal y) <? decimal ds))%Z
    then Err (ParseError "January _2 2006" (name +:+ " " +:+ ds +:+ " " +:+ y)
                EmptyString EmptyString ": day out of range")
    else Ok (Time.Date (decimal y) (Z.of_nat m + 1) (decimal ds)).
Proof.
  intros Hm Hds Hlds Hy Hly.
  assert (Hy0 : exists y1 y', y = String y1 y' /\ is_digit y1 = true).
  { destruct y as [|y1 y']; [done|]. exists y1, y'. split; [done|].
    cbn [str_all] in Hy. by destruct (is_digit y1). }
  destruct Hy0 as (y1 & y' & Ey & Hy1).
  assert (Hd0 : exists d1 ds', ds = String d1 ds' /\ is_digit d1 = true).
  { destruct ds as [|d1 ds']; [cbn in Hlds; lia|]. exists d1, ds'. split; [done|].
    cbn [str_all] in Hds. by destruct (is_digit d1). }
  destruct Hd0 as (d1 & ds' & Ed & Hd1).
  unfold Time.Parse, Time.roamDailyLayout_chunks.
  change (name +:+ " " +:+ ds +:+ " " +:+ y)
    with (name +:+ String " " (ds +:+ String " " y)).
  cbn [Time.parse_chunks]. unfold Time.skip at 1.
  cbn [len String.length Time.skip_loop].
  rewrite (parse_longMonth m name _ _ Hm).
  rewrite Ed at 1. cbn [String.append].
  rewrite (skip_space d1 _ (is_digit_not_space _ Hd1)).
  change (String d1 (ds' +:+ String " " y)) with (String d1 ds' +:+ String " " y).
  rewrite <- Ed.
  rewrite (parse_underDay ds " " y _ Hds Hlds eq_refl).
  rewrite Ey at 1. rewrite (skip_space y1 y' (is_digit_not_space _ Hy1)).
  rewrite <- Ey.
  rewrite (parse_longYear y _ Hy Hly).
  cbn [len String.length Nat.eqb negb Time.f_day Time.f_month Time.f_year].
  reflexivity.
Qed.

Lemma digit_step q d :
  (0 <= d <= 9)%Z ->
  ((q * 10 + d) mod 10 = d /\ (q * 10 + d) / 10 = q)%Z.
Proof.
  intros Hd. split.
  - symmetry. apply (Z.mod_unique _ _ q); lia.
  - symmetry. apply (Z.div_unique _ _ _ d); lia.
Qed.

Lemma appendInt_year y :
  str_all is_digit y = true -> len y = 4 ->
  Time.appendInt (decimal y) 4 = y.
Proof.
  intros Hy Hly.
  destruct y as [|y1 [|y2 [|y3 [|y4 [|? ?]]]]]; try done.
  cbn [str_all] in Hy.
  destruct (is_digit y1) eqn:Hy1, (is_digit y2) eqn:Hy2,
    (is_digit y3) eqn:Hy3, (is_digit y4) eqn:Hy4; try done.
  destruct (digit_char_of_digit _ Hy1) as [B1 E1].
  destruct (digit_char_of_digit _ Hy2) as [B2 E2].
  destruct (digit_char_of_digit _ Hy3) as [B3 E3].
  destruct (digit_char_of_digit _ Hy4) as [B4 E4].
  unfold Time.appendInt, decimal. cbn [decimal_acc Time.digits_acc].
  set (a := (Z.of_N (byte_val y1) - 48)%Z) in *.
  set (b := (Z.of_N (byte_val y2) - 48)%Z) in *.
  set (c := (Z.of_N (byte_val y3) - 48)%Z) in *.
  set (d := (Z.of_N (byte_val y4) - 48)%Z) in *.
  destruct (digit_step (((0 * 10 + a) * 10 + b) * 10 + c) d B4) as [-> ->].
  destruct (digit_step ((0 * 10 + a) * 10 + b) c B3) as [-> ->].
  destruct (digit_step (0 * 10 + a) b B2) as [-> ->].
  destruct (digit_step 0 a B1) as [-> _].
  by rewrite E1, E2, E3, E4.
Qed.

Lemma appendInt_two n :
  (0 <= n < 100)%Z -> Time.appendInt n 2 = two_digits n.
Proof.
  intros Hn. unfold Time.appendInt, two_digits. cbn [Time.digits_acc].
  rewrite (Z.mod_small (n / 10) 10); [done|].
  split; [apply Z.div_pos; lia|apply Z.div_lt_upper_bound; lia].
Qed.

Lemma decimal_bound ds :
  str_all is_digit ds = true -> len ds <= 2 -> (0 <= decimal ds < 100)%Z.
Proof.
  intros Hds Hl.
  destruct ds as [|d1 [|d2 [|? ?]]]; cbn [len String.length] in Hl; try lia.
  - by vm_compute.
  - cbn [str_all] in Hds. destruct (is_digit d1) eqn:Hd1; [|done].
    destruct (digit_char_of_digit _ Hd1) as [B1 _].
    unfold decimal. cbn [decimal_acc]. lia.
  - cbn [str_all] in Hds. destruct (is_digit d1) eqn:Hd1; [|done].
    destruct (is_digit d2) eqn:Hd2; [|done].
    destruct (digit_char_of_digit _ Hd1) as [B1 _].
    destruct (digit_char_of_digit _ Hd2) as [B2 _].
    unfold decimal. cbn [decimal_acc]. lia.
Qed.

Lemma rawTitle_row s name ds y :
  rawTitle [s; name; ds; y] = name +:+ " " +:+ ds +:+ " " +:+ y.
Proof. reflexivity. Qed.

(** X2: a daily title with a date of the calendar is rewritten to the year as
    written, the number of the month and the day, both with two digits;
    the two letters after the day are not read. *)
Theorem parseRoamDate_valid_date :
  forall (m : nat) (name ds : string) (l1 l2 : ascii) (y : string),
    longMonthNames !! m = Some name ->
    str_all is_digit ds = true -> 1 <= len ds <= 2 ->
    is_lower l1 = true -> is_lower l2 = true ->
    str_all is_digit y = true -> len y = 4 ->
    (1 <= decimal ds <= Time.daysIn (Z.of_nat m + 1) (decimal y))%Z ->
    parseRoamDate (name +:+ " " +:+ ds +:+ String l1 (String l2 (", " +:+ y)))
    = Ok (y +:+ "-" +:+ two_digits (Z.of_nat m + 1) +:+ "-"
            +:+ two_digits (decimal ds), true).
Proof.
  intros m name ds l1 l2 y Hm Hds Hlds H1 H2 Hy Hly Hday.
  assert (Hin : In name longMonthNames).
  { apply list_elem_of_In. by eapply list_elem_of_lookup_2. }
  assert (Hne : ds <> EmptyString) by (intros ->; cbn in Hlds; lia).
  unfold parseRoamDate.
  rewrite (daily_alt_intro name ds l1 l2 y Hin Hne Hds H1 H2 Hly Hy).
  cbn [length Nat.eqb negb nth]. rewrite rawTitle_row.
  rewrite (Parse_rawTitle m name ds y Hm Hds Hlds Hy Hly).
  destruct (Z.ltb_spec (decimal ds) 1); [lia|].
  destruct (Z.ltb_spec (Time.daysIn (Z.of_nat m + 1) (decimal y)) (decimal ds));
    [lia|].
  cbn [orb]. unfold Time.Format.
  cbn [Time.year Time.month Time.day].
  rewrite (appendInt_year y Hy Hly).
  rewrite (appendInt_two (decimal ds)) by (apply decimal_bound; [done|lia]).
  rewrite appendInt_two; [done|].
  apply lookup_lt_Some in Hm. cbn in Hm. lia.
Qed.

Lemma parseRoamDate_valid_date_witness :
  parseRoamDate "February 29th, 2024" = Ok ("2024-02-29", true).
Proof.
  refine (parseRoamDate_valid_date 1 "February" "29" "t" "h" "2024"
            eq_refl eq_refl _ eq_refl eq_refl eq_refl eq_refl _).
  - cbn. lia.
  - vm_compute. split; discriminate.
Defined.

(** X3: a daily title whose day is 0 or lies beyond the end of its month is
    refused with the range error of [time.Parse]. *)
Theorem parseRoamDate_day_out_of_range :
  forall (m : nat) (name ds : string) (l1 l2 : ascii) (y : string),
    longMonthNames !! m = Some name ->
    str_all is_digit ds = true -> 1 <= len ds <= 2 ->
    is_lower l1 = true -> is_lower l2 = true ->
    str_all is_digit y = true -> len y = 4 ->
    (decimal ds < 1
     \/ Time.daysIn (Z.of_nat m + 1) (decimal y) < decimal ds)%Z ->
    parseRoamDate (name +:+ " " +:+ ds +:+ String l1 (String l2 (", " +:+ y)))
    = Err (ParseError "January _2 2006" (name +:+ " " +:+ ds +:+ " " +:+ y)
             EmptyString EmptyString ": day out of range").
Proof.
  intros m name ds l1 l2 y Hm Hds Hlds H1 H2 Hy Hly Hday.
  assert (Hin : In name longMonthNames).
  { apply list_elem_of_In. by eapply list_elem_of_lookup_2. }
  assert (Hne : ds <> EmptyString) by (intros ->; cbn in Hlds; lia).
  unfold parseRoamDate.
  rewrite (daily_alt_intro name ds l1 l2 y Hin Hne Hds H1 H2 Hly Hy).
  cbn [length Nat.eqb negb nth]. rewrite rawTitle_row.
  rewrite (Parse_rawTitle m name ds y Hm Hds Hlds Hy Hly).
  destruct (Z.ltb_spec (decimal ds) 1); [done|].
  destruct (Z.ltb_spec (Time.daysIn (Z.of_nat m + 1) (decimal y)) (decimal ds));
    [done|lia].
Qed.

Lemma parseRoamDate_day_out_of_range_witness :
  parseRoamDate "February 29th, 2023"
  = Err (ParseError "January _2 2006" "February 29 2023"
           EmptyString EmptyString ": day out of range").
Proof.
  refine (parseRoamDate_day_out_of_range 1 "February" "29" "t" "h" "2023"
            eq_refl eq_refl _ eq_refl eq_refl eq_refl eq_refl _).
  - cbn. lia.
  - right. reflexivity.
Defined.

(** X4: a daily title whose day has more than two digits is refused:
    [time.Parse] reads two digits of the day and then wants the space
    before the year. *)
Theorem parseRoamDate_long_day :
  forall (m : nat) (name : string) (d1 d2 : ascii) (ds : string)
         (l1 l2 : ascii) (y : string),
    longMonthNames !! m = Some name ->
    is_digit d1 = true -> is_digit d2 = true ->
    str_all is_digit ds = true -> ds <> EmptyString ->
    is_lower l1 = true -> is_lower l2 = true ->
    str_all is_digit y = true -> len y = 4 ->
    parseRoamDate (name +:+ " " +:+ String d1 (String d2 ds)
                     +:+ String l1 (String l2 (", " +:+ y)))
    = Err (ParseError "January _2 2006"
             (name +:+ " " +:+ String d1 (String d2 ds) +:+ " " +:+ y)
             " " (ds +:+ " " +:+ y) EmptyString).
Proof.
  intros m name d1 d2 ds l1 l2 y Hm Hd1 Hd2 Hds Hne H1 H2 Hy Hly.
  assert (Hin : In name longMonthNames).
  { apply list_elem_of_In. by eapply list_elem_of_lookup_2. }
  unfold parseRoamDate.
  rewrite (daily_alt_intro name (String d1 (String d2 ds)) l1 l2 y Hin); try done;
    [|by cbn [str_all]; rewrite Hd1, Hd2].
  cbn [length Nat.eqb negb nth]. rewrite rawTitle_row.
  destruct ds as [|d3 ds']; [done|].
  cbn [str_all] in Hds. destruct (is_digit d3) eqn:Hd3; [|done].
  unfold Time.Parse, Time.roamDailyLayout_chunks.
  change (name +:+ " " +:+ String d1 (String d2 (String d3 ds')) +:+ " " +:+ y)
    with (name +:+ String " "
            (String d1 (String d2 (String d3 (ds' +:+ String " " y))))).
  cbn [Time.parse_chunks]. unfold Time.skip at 1.
  cbn [len String.length Time.skip_loop].
  rewrite (parse_longMonth m name _ _ Hm).
  rewrite (skip_space d1 _ (is_digit_not_space _ Hd1)).
  cbn [Time.parse_std]. rewrite (is_digit_not_space _ Hd1).
  rewrite (getnum_two d1 d2 _ Hd1 Hd2).
  by rewrite (skip_no_space d3 _ (is_digit_not_space _ Hd3)).
Qed.

Lemma parseRoamDate_long_day_witness :
  parseRoamDate "March 012th, 2024"
  = Err (ParseError "January _2 2006" "March 012 2024" " " "2 2024" EmptyString).
Proof.
  by refine (parseRoamDate_long_day 2 "March" "0" "1" "2" "t" "h" "2024"
               eq_refl eq_refl eq_refl eq_refl _ eq_refl eq_refl eq_refl eq_refl).
Defined.

Lemma canonical_not_daily c : canonical_date c -> ~ daily_title c.
Proof.
  intros (c0 & c1 & c2 & c3 & c4 & c5 & c6 & c7 & -> & Hc).
  intros (m & ds & l1 & l2 & y & Hin & E & _).
  apply Forall_cons in Hc as [Hc0 _].
  unfold longMonthNames in Hin.
  repeat (destruct Hin as [<-|Hin]; [injection E as -> _; done|]).
  destruct Hin.
Qed.

(** X5: normalising a title twice gives what normalising it once gives. *)
Theorem parseRoamDate_idempotent :
  forall (s out : string) (ok : bool),
    parseRoamDate s = Ok (out, ok) -> parseRoamDate out = Ok (out, false).
Proof.
  intros s out [] H.
  - apply parseRoamDate_not_daily, canonical_not_daily.
    by apply (parseRoamDate_daily s).
  - assert (out = s) as ->; [|done].
    unfold parseRoamDate in H.
    destruct (negb _); [by injection H|].
    by destruct (Time.Parse _).
Qed.

Lemma parseRoamDate_idempotent_witness :
  parseRoamDate "2024-01-05" = Ok ("2024-01-05", false).
Proof.
  exact (parseRoamDate_idempotent "January 5th, 2024" "2024-01-05" true eq_refl).
Defined.

(** ** The loop of [replaceDayLinks], case by case *)

Lemma parseRoamDate_Err_daily d e : parseRoamDate d = Err e -> daily_title d.
Proof.
  unfold parseRoamDate.
  destruct (reDaily_FindAllStringSubmatch d) as [|row rows] eqn:Hm; [done|].
  intros _. apply reDaily_match_title. by rewrite Hm.
Qed.

Lemma first_link_found a g b :
  str_all not_open a = true -> dayLink_text g ->
  find_leftmost dayLink_here (a +:+ "[[" +:+ g +:+ "]]" +:+ b) 0
  = Some (len a, len g).
Proof.
  intros Ha Hg. apply find_leftmost_intro.
  - rewrite <- (Nat.add_0_r (len a)), slice_from_append_add, slice_from_0.
    by apply link_here.
  - intros j Hj. by apply no_open_quiet.
Qed.

(** ** A day link after an opening bracket *)

(** A daily title after an opening bracket is still the text of a day
    link, since the bracket belongs to the class of [reDayLink], ... *)
Lemma bracket_title_dayLink_text d :
  daily_title d -> dayLink_text ("[" +:+ d).
Proof.
  intros (g1 & l1 & l2 & y & -> & Hne & Hg1 & H)%daily_title_dayLink_text.
  exists ("[" +:+ g1), l1, l2, y. split; [done|]. split; [done|].
  split; [|exact H]. cbn [String.append str_all]. by rewrite Hg1.
Qed.

(** ... and it is no daily title. *)
Lemma bracket_title_not_daily d : ~ daily_title ("[" +:+ d).
Proof.
  intros (m & ds & l1 & l2 & y & Hin & E & _).
  unfold longMonthNames in Hin.
  repeat (destruct Hin as [<-|Hin]; [by injection E|]).
  destruct Hin.
Qed.

(** C8 (code bug): a block text that holds a day link with a valid date
    right after an opening bracket, as [[[[January 5th, 2024]]]] does, is
    not rewritten: the leftmost match of [reDayLink] starts at the
    bracket before the link, its text is the bracket and the title,
    [reDaily] does not match that text, and the loop of
    [replaceDayLinks] rebuilds the same text for ever. *)
Theorem replaceDayLinks_bracket_before_valid_link :
  forall (d canon b : string),
    parseRoamDate d = Ok (canon, true) ->
    forall fuel : nat,
      replaceDayLinks fuel ("[" +:+ "[[" +:+ d +:+ "]]" +:+ b) = None.
Proof.
  intros d canon b Hd fuel.
  destruct (parseRoamDate_daily _ _ Hd) as [Htitle _].
  change ("[" +:+ "[[" +:+ d +:+ "]]" +:+ b)
    with (EmptyString +:+ "[[" +:+ ("[" +:+ d) +:+ "]]" +:+ b).
  induction fuel as [|fuel IH]; [done|].
  rewrite (replaceDayLinks_step fuel EmptyString ("[" +:+ d) b).
  - by rewrite (parseRoamDate_not_daily _ (bracket_title_not_daily d)).
  - apply first_link_found; [done|]. by apply bracket_title_dayLink_text.
Qed.

(** C8 on [[[[January 5th, 2024]]]]. *)
Lemma replaceDayLinks_bracket_before_valid_link_witness :
  parseRoamDate "January 5th, 2024" = Ok ("2024-01-05", true)
  /\ replaceDayLinks 9 "[[[January 5th, 2024]]]" = None.
Proof.
  split; [reflexivity|].
  exact (replaceDayLinks_bracket_before_valid_link "January 5th, 2024"
           "2024-01-05" "]" eq_refl 9).
Defined.


(** X6: a text returned by [replaceDayLinks] is returned unchanged when it
    is given to [replaceDayLinks] again. *)
Theorem replaceDayLinks_idempotent :
  forall (fuel : nat) (s out : string),
    replaceDayLinks fuel s = Some (Ok out) ->
    forall fuel' : nat, replaceDayLinks (S fuel') out = Some (Ok out).
Proof.
  intros fuel s out H fuel'. cbn [replaceDayLinks].
  by rewrite (replaceDayLinks_no_link fuel s out H).
Qed.

Lemma replaceDayLinks_idempotent_witness :
  replaceDayLinks 1 "see [[2024-01-05]]" = Some (Ok "see [[2024-01-05]]").
Proof.
  exact (replaceDayLinks_idempotent 2 "see [[January 5th, 2024]]"
           "see [[2024-01-05]]" eq_refl 0).
Defined.

(** X7: when the first link of a text holds a daily title that is no date
    of the calendar, [replaceDayLinks] returns the error of [time.Parse]
    wrapped with the title, whatever follows the link. *)
Theorem replaceDayLinks_invalid_date :
  forall (fuel : nat) (a d b : string) (e : error),
    str_all not_open a = true ->
    parseRoamDate d = Err e ->
    replaceDayLinks (S fuel) (a +:+ "[[" +:+ d +:+ "]]" +:+ b)
    = Some (Err (Errorf "invalid date %q: %w" [d] e)).
Proof.
  intros fuel a d b e Ha Hd.
  pose proof (daily_title_dayLink_text _ (parseRoamDate_Err_daily _ _ Hd)) as Hg.
  rewrite (replaceDayLinks_step fuel a d b (first_link_found a d b Ha Hg)).
  by rewrite Hd.
Qed.

Lemma replaceDayLinks_invalid_date_witness :
  replaceDayLinks 1 ("on " +:+ "[[" +:+ "April 31st, 2024" +:+ "]]"
                       +:+ " and [[May 1st, 2024]]")
  = Some (Err (Errorf "invalid date %q: %w" ["April 31st, 2024"]
                 (ParseError "January _2 2006" "April 31 2024"
                    EmptyString EmptyString ": day out of range"))).
Proof.
  exact (replaceDayLinks_invalid_date 0 "on " "April 31st, 2024"
           " and [[May 1st, 2024]]" _ eq_refl eq_refl).
Defined.

(** X8: when the text of the leftmost match of [reDayLink] is not matched
    by [reDaily], the loop of [replaceDayLinks] rebuilds the same text and
    never returns. *)
Theorem replaceDayLinks_never_returns :
  forall (s : string) (m : list nat),
    reDayLink_FindStringSubmatchIndex s = Some m ->
    reDaily_FindAllStringSubmatch (slice s (idx m 4) (idx m 5)) = [] ->
    forall fuel : nat, replaceDayLinks fuel s = None.
Proof.
  intros s m Hm Hd. apply (replaceDayLinks_stuck s m Hm Hd).
  unfold reDayLink_FindStringSubmatchIndex in Hm.
  destruct (find_leftmost dayLink_here s 0) as [[q w]|] eqn:Hf; [|done].
  injection Hm as <-. unfold idx. cbn [nth].
  apply leftmost_link in Hf as (a & g & b & -> & <- & <- & _).
  destruct (slices_of_match a g b) as (-> & -> & ->). reflexivity.
Qed.

Lemma replaceDayLinks_never_returns_witness :
  replaceDayLinks 7 "[[by May 5th, 2024]]" = None.
Proof.
  exact (replaceDayLinks_never_returns "[[by May 5th, 2024]]"
           [0; 20; 0; 2; 2; 18; 18; 20] eq_refl eq_refl 7).
Defined.

(** X9: a text without an opening bracket is returned as it is. *)
Theorem replaceDayLinks_without_bracket :
  forall (fuel : nat) (s : string),
    str_all not_open s = true ->
    replaceDayLinks (S fuel) s = Some (Ok s).
Proof.
  intros fuel s Hs. apply replaceDayLinks_done, find_leftmost_None.
  intros j Hj. destruct (decide (j < len s)) as [Hlt|Hge].
  - rewrite <- (append_nil_r s). by apply no_open_quiet.
  - assert (j = len s) as -> by lia.
    rewrite <- (append_nil_r s) at 1.
    by rewrite slice_from_append.
Qed.

Lemma replaceDayLinks_without_bracket_witness :
  replaceDayLinks 1 "Buy milk]] today" = Some (Ok "Buy milk]] today").
Proof. exact (replaceDayLinks_without_bracket 0 "Buy milk]] today" eq_refl). Defined.

(** ** The block expressions on a text with one reference *)

Lemma uid_char_rune c :
  uid_char c = true -> UTF8.first c = None /\ Ascii.eqb c newline = false.
Proof. destruct c as [[] [] [] [] [] [] [] []]; by vm_compute. Qed.

Lemma any_runes_ascii u rest :
  str_all uid_char u = true ->
  UTF8.any_runes (len u) (u +:+ rest) = Some (len u).
Proof.
  induction u as [|c u IH]; [done|]. cbn [str_all].
  intros [Hc Hu]%andb_prop. destruct (uid_char_rune c Hc) as [Hf Hn].
  cbn [len String.length String.append UTF8.any_runes UTF8.rune_width].
  rewrite Hn, Hf. cbn [slice_from].
  fold (len u). by rewrite (IH Hu).
Qed.

Lemma block_here_intro re u rest :
  str_all uid_char u = true -> len u = 9 ->
  block_here re (re_open re +:+ u +:+ re_close re +:+ rest) = Some 9.
Proof.
  intros Hu Hl. unfold block_here. rewrite lit_then_append.
  pose proof (any_runes_ascii u (re_close re +:+ rest) Hu) as Hr.
  rewrite Hl in Hr. rewrite Hr.
  rewrite <- Hl at 1. rewrite slice_from_append.
  by rewrite lit_then_append.
Qed.

Lemma no_brace_quiet re a :
  braced re -> str_all not_brace a = true ->
  forall z j, j < len a -> block_here re (slice_from (a +:+ z) j) = None.
Proof.
  intros Hre Ha z j Hj.
  destruct (block_here _ _) as [w|] eqn:Hm; [exfalso|done].
  unfold block_here in Hm. apply lit_then_Some in Hm as (r & Hs & _).
  assert (Hget : String.get j (a +:+ z) = Some "{"%char).
  { rewrite <- (Nat.add_0_r j), <- get_slice_from, Hs.
    by destruct Hre as [-> | ->]. }
  rewrite get_append in Hget.
  destruct (Nat.ltb_spec j (len a)); [|lia].
  apply (str_all_get _ _ _ _ Ha) in Hget. by vm_compute in Hget.
Qed.

(** The offsets of the match of a braced expression on a text that holds
    no brace before the reference. *)
Lemma block_match_found re a u b :
  braced re -> str_all not_brace a = true ->
  str_all uid_char u = true -> len u = 9 ->
  FindStringSubmatchIndex re (a +:+ re_open re +:+ u +:+ re_close re +:+ b)
  = Some [len a; len a + len (re_open re) + 9 + len (re_close re);
          len a; len a + len (re_open re);
          len a + len (re_open re); len a + len (re_open re) + 9;
          len a + len (re_open re) + 9;
          len a + len (re_open re) + 9 + len (re_close re)].
Proof.
  intros Hre Ha Hu Hl. unfold FindStringSubmatchIndex.
  rewrite (find_leftmost_intro _ _ (len a) 9); [done| |].
  - rewrite <- (Nat.add_0_r (len a)), slice_from_append_add, slice_from_0.
    by apply block_here_intro.
  - intros j Hj. by apply no_brace_quiet.
Qed.

Lemma block_match_slices a o u c b :
  len u = 9 ->
  slice_to (a +:+ o +:+ u +:+ c +:+ b) (len a) = a
  /\ slice (a +:+ o +:+ u +:+ c +:+ b) (len a + len o) (len a + len o + 9) = u
  /\ slice_from (a +:+ o +:+ u +:+ c +:+ b) (len a + len o + 9 + len c) = b.
Proof.
  intros Hl. split; [apply slice_to_append|]. split.
  - unfold slice. rewrite slice_from_append_add.
    rewrite slice_from_append.
    replace (len a + len o + 9 - (len a + len o)) with (len u) by lia.
    apply slice_to_append.
  - replace (len a + len o + 9 + len c) with (len a + (len o + (len u + len c)))
      by lia.
    rewrite slice_from_append_add, slice_from_append_add, slice_from_append_add.
    apply slice_from_append.
Qed.

(** X10: a text in which [reBlockEmbed] has no match is not resolved at
    all: it goes to [replaceDayLinks] as it is, and the set of the
    referenced uids and the output are left as they were. *)
Theorem replaceBlockRefs_without_embed :
  forall (fuel : nat) (s : string) (uidBlock : gmap string Child.t)
         (st : state),
    FindStringSubmatchIndex reBlockEmbed s = None ->
    replaceBlockRefs (S fuel) s uidBlock st
    = match replaceDayLinks (S fuel) s with
      | Some r => Some (r, st)
      | None => None
      end.
Proof.
  intros fuel s uidBlock st Hm. unfold replaceBlockRefs.
  by rewrite (replaceBlockRefs_loop_no_embed fuel uidBlock s st Hm).
Qed.

Lemma replaceBlockRefs_without_embed_witness :
  replaceBlockRefs 2 "{{mentions: ((abc123456))}} on [[May 2nd, 2020]]"
    corpus_index initial_state
  = Some (Ok "{{mentions: ((abc123456))}} on [[2020-05-02]]", initial_state).
Proof.
  exact (replaceBlockRefs_without_embed 1
           "{{mentions: ((abc123456))}} on [[May 2nd, 2020]]"
           corpus_index initial_state eq_refl).
Defined.

(** X11: the first embed of a text, when its uid is known, is replaced by
    the text of the block and a link to it, and the uid is marked; when
    [reBlockMentions] has no match in the text so rewritten, the
    resolution ends there and what follows the embed goes to
    [replaceDayLinks] as it is. *)
Theorem replaceBlockRefs_embed_resolved :
  forall (fuel : nat) (a uid b : string) (uidBlock : gmap string Child.t)
         (child : Child.t) (st : state),
    str_all not_brace a = true ->
    len uid = 9 -> str_all uid_char uid = true ->
    uidBlock !! uid = Some child ->
    FindStringSubmatchIndex reBlockMentions
      (a +:+ (Child.String child +:+ " [[" +:+ PageValue.Title (Child.Page child)
                +:+ "#^" +:+ Child.UID child +:+ "]]") +:+ b) = None ->
    replaceBlockRefs (S fuel) (a +:+ "{{embed: ((" +:+ uid +:+ "))}}" +:+ b)
      uidBlock st
    = match
        replaceDayLinks (S fuel)
          (a +:+ (Child.String child +:+ " [["
                    +:+ PageValue.Title (Child.Page child)
                    +:+ "#^" +:+ Child.UID child +:+ "]]") +:+ b)
      with
      | Some r => Some (r, set_referencedUID st ({[uid]} ∪ referencedUID st))
      | None => None
      end.
Proof.
  intros fuel a uid b uidBlock child st Ha Hl Hu Hk Hno.
  unfold replaceBlockRefs. cbn [replaceBlockRefs_loop].
  unfold regexList. cbn [range_regexList].
  pose proof (block_match_found reBlockEmbed a uid b (or_introl eq_refl)
                Ha Hu Hl) as Hf.
  change (re_open reBlockEmbed) with "{{embed: ((" in Hf.
  change (re_close reBlockEmbed) with "))}}" in Hf.
  rewrite Hf. unfold idx. cbn [nth].
  destruct (block_match_slices a "{{embed: ((" uid "))}}" b Hl)
    as (-> & -> & ->).
  rewrite Hk. rewrite Hno. reflexivity.
Qed.

Lemma replaceBlockRefs_embed_resolved_witness :
  replaceBlockRefs 1
    ("see " +:+ "{{embed: ((" +:+ "abc123456" +:+ "))}}"
       +:+ " and {{embed: ((xyz987654))}}")
    corpus_index initial_state
  = Some (Ok "see Buy milk [[January 5th, 2024#^abc123456]] and {{embed: ((xyz987654))}}",
          set_referencedUID initial_state ({["abc123456"]} ∪ ∅)).
Proof.
  exact (replaceBlockRefs_embed_resolved 0 "see " "abc123456"
           " and {{embed: ((xyz987654))}}" corpus_index
           (Child.mk "abc123456" "Buy milk" [] 0
              (PageValue.mk "January 5th, 2024" true))
           initial_state eq_refl eq_refl eq_refl eq_refl eq_refl).
Defined.

(** X12: the first embed of a text, when its uid is unknown, is left in
    place and reported by one line; when [reBlockMentions] has no match
    in the text, the resolution ends there. *)
Theorem replaceBlockRefs_embed_unknown :
  forall (fuel : nat) (a uid b : string) (uidBlock : gmap string Child.t)
         (st : state),
    str_all not_brace a = true ->
    len uid = 9 -> str_all uid_char uid = true ->
    uidBlock !! uid = None ->
    FindStringSubmatchIndex reBlockMentions
      (a +:+ "{{embed: ((" +:+ uid +:+ "))}}" +:+ b) = None ->
    replaceBlockRefs (S fuel) (a +:+ "{{embed: ((" +:+ uid +:+ "))}}" +:+ b)
      uidBlock st
    = match
        replaceDayLinks (S fuel) (a +:+ "{{embed: ((" +:+ uid +:+ "))}}" +:+ b)
      with
      | Some r =>
          Some (r, State (referencedUID st)
                     (stdout st ++ ["**** did not find uid: " +:+ uid])
                     (fs_trace st))
      | None => None
      end.
Proof.
  intros fuel a uid b uidBlock st Ha Hl Hu Hk Hno.
  unfold replaceBlockRefs. cbn [replaceBlockRefs_loop].
  unfold regexList. cbn [range_regexList].
  pose proof (block_match_found reBlockEmbed a uid b (or_introl eq_refl)
                Ha Hu Hl) as Hf.
  change (re_open reBlockEmbed) with "{{embed: ((" in Hf.
  change (re_close reBlockEmbed) with "))}}" in Hf.
  rewrite Hf. unfold idx. cbn [nth].
  destruct (block_match_slices a "{{embed: ((" uid "))}}" b Hl)
    as (_ & -> & _).
  rewrite Hk. rewrite Hno. reflexivity.
Qed.

Lemma replaceBlockRefs_embed_unknown_witness :
  replaceBlockRefs 1
    ("- " +:+ "{{embed: ((" +:+ "unknown12" +:+ "))}}" +:+ " ((abc123456))")
    corpus_index initial_state
  = Some (Ok "- {{embed: ((unknown12))}} ((abc123456))",
          State ∅ ["**** did not find uid: unknown12"] []).
Proof.
  exact (replaceBlockRefs_embed_unknown 0 "- " "unknown12" " ((abc123456))"
           corpus_index initial_state eq_refl eq_refl eq_refl eq_refl eq_refl).
Defined.

(** ** The effects of a resolution *)

Lemma resolver_step_refl uidBlock st : resolver_step uidBlock st st.
Proof.
  split; [done|]. split; [done|]. split; [by left|].
  exists []. by rewrite app_nil_r.
Qed.

Lemma resolver_step_trans uidBlock st1 st2 st3 :
  resolver_step uidBlock st1 st2 -> resolver_step uidBlock st2 st3 ->
  resolver_step uidBlock st1 st3.
Proof.
  intros (F1 & S1 & K1 & p1 & O1 & D1) (F2 & S2 & K2 & p2 & O2 & D2).
  split; [congruence|]. split; [by etrans|]. split.
  - intros uid H. destruct (K2 uid H) as [H2|H2]; [by apply K1|by right].
  - exists (p1 ++ p2). split; [by rewrite O2, O1, app_assoc|].
    by apply Forall_app.
Qed.

Lemma range_regexList_step uidBlock res_ m update st m' update' st' :
  range_regexList uidBlock res_ m update st = (m', update', st') ->
  resolver_step uidBlock st st'.
Proof.
  revert m update st.
  induction res_ as [|re res_ IH]; intros m update st; cbn [range_regexList].
  - intros [= _ _ <-]. apply resolver_step_refl.
  - destruct (FindStringSubmatchIndex re update) as [mm|];
      [|intros [= _ _ <-]; apply resolver_step_refl].
    destruct (uidBlock !! _) as [child|] eqn:Hk; intros H%IH.
    + eapply resolver_step_trans; [|exact H].
      split; [done|]. split; [cbn; apply union_subseteq_r|]. split.
      * cbn. intros uid [->%elem_of_singleton|Hu]%elem_of_union;
          [right; by rewrite Hk|by left].
      * exists []. by rewrite app_nil_r.
    + eapply resolver_step_trans; [|exact H].
      split; [done|]. split; [done|]. split; [by left|].
      eexists. split; [reflexivity|]. constructor; [|constructor].
      eexists. split; [reflexivity|exact Hk].
Qed.

Lemma replaceBlockRefs_loop_step fuel uidBlock update st update' st' :
  replaceBlockRefs_loop fuel uidBlock update st = Some (update', st') ->
  resolver_step uidBlock st st'.
Proof.
  revert update st. induction fuel as [|fuel IH]; intros update st; [done|].
  cbn [replaceBlockRefs_loop].
  destruct (range_regexList uidBlock regexList None update st)
    as [[m u1] st1] eqn:Hr.
  apply range_regexList_step in Hr.
  destruct m as [mm|].
  - intros H%IH. by eapply resolver_step_trans.
  - by intros [= _ <-].
Qed.

(** X13: whatever [replaceBlockRefs] returns, it makes no file-system call,
    keeps the uids marked before, marks only uids of the index beside
    them, and prints nothing but reports of uids missing from the index. *)
Theorem replaceBlockRefs_effects :
  forall (fuel : nat) (s : string) (uidBlock : gmap string Child.t)
         (st st' : state) (r : res string),
    replaceBlockRefs fuel s uidBlock st = Some (r, st') ->
    fs_trace st' = fs_trace st
    /\ referencedUID st ⊆ referencedUID st'
    /\ (forall uid, uid ∈ referencedUID st' ->
          uid ∈ referencedUID st \/ is_Some (uidBlock !! uid))
    /\ exists printed,
         stdout st' = stdout st ++ printed
         /\ Forall (diagnostic uidBlock) printed.
Proof.
  intros fuel s uidBlock st st' r. unfold replaceBlockRefs.
  destruct (replaceBlockRefs_loop fuel uidBlock s st) as [[u st1]|] eqn:Hl;
    [|done].
  destruct (replaceDayLinks fuel u) as [r'|]; [|done].
  intros [= _ <-]. by apply (replaceBlockRefs_loop_step fuel uidBlock s st u).
Qed.

Lemma replaceBlockRefs_effects_witness :
  fs_trace (State ({["abc123456"]} ∪ ∅) ["**** did not find uid: unknown12"; "**** did not find uid: unknown12";
          "**** did not find uid: unknown12"] [])
  = fs_trace (State ∅ [] [])
  /\ referencedUID (State ∅ [] [])
     ⊆ referencedUID
         (State ({["abc123456"]} ∪ ∅) ["**** did not find uid: unknown12"; "**** did not find uid: unknown12";
          "**** did not find uid: unknown12"] [])
  /\ (forall uid,
        uid ∈ referencedUID
                (State ({["abc123456"]} ∪ ∅)
                   ["**** did not find uid: unknown12"; "**** did not find uid: unknown12";
          "**** did not find uid: unknown12"] []) ->
        uid ∈ referencedUID (State ∅ [] [])
        \/ is_Some (corpus_index !! uid))
  /\ exists printed,
       stdout (State ({["abc123456"]} ∪ ∅)
                 ["**** did not find uid: unknown12"; "**** did not find uid: unknown12";
          "**** did not find uid: unknown12"] [])
       = stdout (State ∅ [] []) ++ printed
       /\ Forall (diagnostic corpus_index) printed.
Proof.
  refine (replaceBlockRefs_effects 2
           "{{embed: ((unknown12))}}{{mentions: ((abc123456))}}" corpus_index
           (State ∅ [] [])
           (State ({["abc123456"]} ∪ ∅) ["**** did not find uid: unknown12"; "**** did not find uid: unknown12";
          "**** did not find uid: unknown12"] [])
           (Ok "{{embed: ((unknown12))}}Buy milk [[January 5th, 2024#^abc123456]]")
           _).
  vm_compute. reflexivity.
Defined.

(** X14: the text or the error that [replaceBlockRefs] returns does not
    depend on the state it is called in. *)
Theorem replaceBlockRefs_state_independent :
  forall (fuel : nat) (s : string) (uidBlock : gmap string Child.t)
         (st1 st2 : state),
    fst <$> replaceBlockRefs fuel s uidBlock st1
    = fst <$> replaceBlockRefs fuel s uidBlock st2.
Proof.
  intros fuel s uidBlock st1 st2.
  rewrite (replaceBlockRefs_frame fuel s uidBlock st1).
  rewrite (replaceBlockRefs_frame fuel s uidBlock st2).
  by destruct (replaceBlockRefs fuel s uidBlock initial_state) as [[r eff]|].
Qed.

(** ** Blocks of several lines *)

(** X15: a block whose text has several lines: every line of the text
    gets the prefix of the block, the anchor follows the last line, and a
    newline ends the whole; a block of one line is the prefix, the text
    and the anchor. *)
Theorem block_line_multiline :
  forall (prefix postfix l : string) (ls : list string),
    ContainsRune prefix newline = false ->
    ContainsRune postfix newline = false ->
    Forall (fun x => ContainsRune x newline = false) (l :: ls) ->
    block_line prefix (Join (l :: ls) (String newline EmptyString)) postfix
    = match ls with
      | [] => prefix +:+ l +:+ postfix
      | _ :: _ =>
          Join (map (String.append prefix) (l :: ls)) (String newline EmptyString)
            +:+ postfix +:+ String newline EmptyString
      end.
Proof.
  intros prefix postfix l ls Hpre Hpost Hls. unfold block_line.
  destruct ls as [|l2 ls].
  - apply Forall_cons in Hls as [Hl _]. cbn [Join].
    by rewrite !ContainsRune_append, Hpre, Hl, Hpost.
  - assert (ContainsRune
              (prefix +:+ Join (l :: l2 :: ls) (String newline EmptyString)
                 +:+ postfix) newline = true) as ->.
    { rewrite !ContainsRune_append.
      change (Join (l :: l2 :: ls) (String newline EmptyString))
        with (l +:+ String newline EmptyString
                +:+ Join (l2 :: ls) (String newline EmptyString)).
      rewrite !ContainsRune_append. cbn [ContainsRune].
      rewrite Ascii.eqb_refl. by rewrite !orb_true_r. }
    rewrite (ReplaceAll1_append_l prefix _ _ _ Hpre).
    rewrite (ReplaceAll1_lines prefix postfix l (l2 :: ls) Hpost Hls).
    by rewrite !append_assoc.
Qed.

Lemma block_line_multiline_witness :
  block_line "    * "
    (Join ["first"; "second"; "third"] (String newline EmptyString)) " ^abc123456"
  = Join (map (String.append "    * ") ["first"; "second"; "third"])
      (String newline EmptyString)
      +:+ " ^abc123456" +:+ String newline EmptyString.
Proof.
  refine (block_line_multiline "    * " " ^abc123456" "first" ["second"; "third"]
            eq_refl eq_refl _).
  repeat constructor.
Defined.

(** ** The index of the blocks *)

Section Collect.
Variable page : PageValue.t.

Let ins (m : gmap string Child.t) (b : Child.t) : gmap string Child.t :=
  <[Child.UID b := Child.set_Page b page]> m.

Lemma collectBlock_fold b :
  forall level m,
    collectBlock page m b
    = fold_left ins (map snd (flatten_block level b)) m.
Proof.
  induction b as [uid s children h pg IH] using Child_tree_ind.
  intros level m. cbn [collectBlock flatten_block map fold_left Child.RawChildren].
  assert (Hch : forall m0,
             fold_left (collectBlock page) children m0
             = fold_left ins
                 (map snd (flat_map (flatten_block (S level)) children)) m0).
  { clear m. induction IH as [|c children Hc _ IHl]; intros m; [done|].
    cbn [flat_map fold_left]. rewrite List.map_app, fold_left_app.
    by rewrite <- (Hc (S level)), IHl. }
  apply Hch.
Qed.

Lemma collectBlocks_fold level children m :
  fold_left (collectBlock page) children m
  = fold_left ins (map snd (flatten level children)) m.
Proof.
  revert m. induction children as [|c children IH]; intros m; [done|].
  unfold flatten. cbn [flat_map fold_left].
  rewrite List.map_app, fold_left_app.
  by rewrite <- (collectBlock_fold c level), IH.
Qed.

Lemma fold_ins_lookup blocks m uid :
  fold_left ins blocks m !! uid
  = match last_with_uid uid blocks with
    | Some b => Some (Child.set_Page b page)
    | None => m !! uid
    end.
Proof.
  unfold last_with_uid.
  revert m. induction blocks as [|b blocks IH]; intros m; [done|].
  cbn [fold_left]. rewrite IH, filter_cons.
  destruct (decide (Child.UID b = uid)) as [E|N].
  - destruct (filter _ blocks) as [|b' l'] eqn:Hf.
    + cbn. unfold ins. by rewrite <- E, lookup_insert_eq.
    + rewrite last_cons_cons.
      by destruct (proj2 (last_is_Some (b' :: l')) ltac:(done)) as [x ->].
  - destruct (last (filter _ blocks)); [done|].
    unfold ins. by rewrite lookup_insert_ne.
Qed.

End Collect.

(** X16: after [collectBlocks] a uid leads to the last block of the page,
    in document order, that carries it, stored with the copy of the
    page; a uid that no block of the page carries leads where it led
    before. *)
Theorem collectBlocks_lookup :
  forall (uidList : gmap string Child.t) (page : Page.t)
         (children : list Child.t) (uid : string),
    collectBlocks uidList page children !! uid
    = match last_with_uid uid (map snd (flatten 0 children)) with
      | Some b => Some (Child.set_Page b (Page.value page))
      | None => uidList !! uid
      end.
Proof.
  intros uidList page children uid. unfold collectBlocks.
  rewrite (collectBlocks_fold (Page.value page) 0).
  apply fold_ins_lookup.
Qed.


(** ** Pass 1 *)

(** X17: when [pass1] returns an index, it has printed its banner and
    nothing else, and the pages it leaves are the pages it was given,
    one for one, each with the title that [parseRoamDate] returns for
    its title and with the same blocks. *)
Theorem pass1_titles :
  forall (pages pages' : list Page.t) (uidBlock : gmap string Child.t)
         (st st' : state),
    pass1 pages st = (pages', Ok uidBlock, st') ->
    st' = Println ["Pass 1: scan all pages"] st
    /\ Forall2
         (fun p p' =>
            (exists ok, parseRoamDate (Page.Title p) = Ok (Page.Title p', ok))
            /\ Page.RawChildren p' = Page.RawChildren p)
         pages pages'.
Proof.
  intros pages pages' uidBlock st st'. unfold pass1.
  destruct (pass1_loop pages ∅) as [ps r] eqn:Hl.
  intros [= -> -> <-]. split; [done|].
  revert Hl. generalize (∅ : gmap string Child.t). revert pages'.
  induction pages as [|p pages IH]; intros pages' m; cbn [pass1_loop].
  - intros [= <- _]. constructor.
  - unfold parsePageDate.
    destruct (parseRoamDate (Page.Title p)) as [[title ok]|e] eqn:Hp; [|done].
    destruct (pass1_loop pages _) as [rest r] eqn:Hr.
    intros [= <- ->]. constructor; [|by eapply IH].
    split; [by exists ok|done].
Qed.

Lemma pass1_titles_witness :
  Println ["Pass 1: scan all pages"] initial_state
  = Println ["Pass 1: scan all pages"] initial_state
  /\ Forall2
       (fun p p' =>
          (exists ok, parseRoamDate (Page.Title p) = Ok (Page.Title p', ok))
          /\ Page.RawChildren p' = Page.RawChildren p)
       [page "May 2nd, 2020" []; page "Notes" [block "xyz987654" "text" []]]
       [page "2020-05-02" []; page "Notes" [block "xyz987654" "text" []]].
Proof.
  refine (pass1_titles
            [page "May 2nd, 2020" []; page "Notes" [block "xyz987654" "text" []]]
            [page "2020-05-02" []; page "Notes" [block "xyz987654" "text" []]]
            (<["xyz987654" := Child.mk "xyz987654" "text" [] 0
                                (PageValue.mk "Notes" false)]> ∅)
            initial_state _ _).
  vm_compute. reflexivity.
Defined.

(** X18: [pass1] stops at the first page whose title [parseRoamDate]
    refuses and returns the error of that title, wrapped; the pages
    after it are not looked at. *)
Theorem pass1_first_invalid_title :
  forall (before after : list Page.t) (p : Page.t) (e : error) (st : state),
    Forall (fun q => exists r, parseRoamDate (Page.Title q) = Ok r) before ->
    parseRoamDate (Page.Title p) = Err e ->
    exists pages',
      pass1 (before ++ p :: after) st
      = (pages', Err (Errorf "parse page date: %w" [] e),
         Println ["Pass 1: scan all pages"] st).
Proof.
  intros before after p e st Hb Hp. unfold pass1.
  generalize (∅ : gmap string Child.t).
  induction Hb as [|q before [[t ok] Hq] _ IH]; intros m.
  - cbn [app pass1_loop]. unfold parsePageDate. rewrite Hp. by eexists.
  - cbn [app pass1_loop]. unfold parsePageDate at 1. rewrite Hq.
    destruct (IH (collectBlocks m (if ok then Page.set_IsDaily q true else q)
                    (Page.RawChildren (if ok then Page.set_IsDaily q true else q))))
      as [pages' E].
    destruct (pass1_loop (before ++ p :: after) _) as [rest r].
    injection E as <- ->. by eexists.
Qed.

Lemma pass1_first_invalid_title_witness :
  exists pages',
    pass1 ([page "Notes" []] ++ page "June 31st, 2021" []
             :: [page "February 30th, 2024" []]) initial_state
    = (pages',
       Err (Errorf "parse page date: %w" []
              (ParseError "January _2 2006" "June 31 2021" EmptyString
                 EmptyString ": day out of range")),
       Println ["Pass 1: scan all pages"] initial_state).
Proof.
  refine (pass1_first_invalid_title [page "Notes" []]
            [page "February 30th, 2024" []] (page "June 31st, 2021" []) _
            initial_state _ eq_refl).
  repeat constructor. by eexists.
Defined.

Lemma filter_page_blocks uid (p : Page.t) (bs : list Child.t) :
  filter (fun pb : Page.t * Child.t => Child.UID pb.2 = uid) (map (pair p) bs)
  = map (pair p) (filter (fun b => Child.UID b = uid) bs).
Proof.
  induction bs as [|b bs IH]; [done|]. cbn [map]. rewrite !filter_cons.
  cbn [snd]. destruct (decide (Child.UID b = uid)); cbn [map]; by rewrite IH.
Qed.

Lemma last_filter_page uid (p : Page.t) (lbs : list (nat * Child.t)) :
  last (filter (fun pb : Page.t * Child.t => Child.UID pb.2 = uid)
          (map (fun lb => (p, lb.2)) lbs))
  = pair p <$> last_with_uid uid (map snd lbs).
Proof.
  unfold last_with_uid.
  rewrite <- (List.map_map snd (pair p) lbs), filter_page_blocks.
  apply fmap_last.
Qed.

Lemma parsePageDate_copy p title p' :
  parsePageDate p = Ok (title, p') ->
  Page.value p' = PageValue.mk (Page.Title p) (copy_IsDaily p)
  /\ Page.RawChildren p' = Page.RawChildren p.
Proof.
  unfold parsePageDate, copy_IsDaily.
  destruct (parseRoamDate (Page.Title p)) as [[t ok]|e]; [|done].
  intros [= _ <-]. by destruct ok.
Qed.

Lemma pass1_loop_lookup pages :
  forall m pages' idx uid,
    pass1_loop pages m = (pages', Ok idx) ->
    idx !! uid
    = match last (filter (fun pb : Page.t * Child.t => Child.UID pb.2 = uid)
                    (page_blocks pages)) with
      | Some (p, b) =>
          Some (Child.set_Page b
                  (PageValue.mk (Page.Title p) (copy_IsDaily p)))
      | None => m !! uid
      end.
Proof.
  induction pages as [|p pages IH]; intros m pages' idx uid; cbn [pass1_loop].
  - by intros [= _ <-].
  - destruct (parsePageDate p) as [[title p']|e] eqn:Hp; [|done].
    destruct (parsePageDate_copy _ _ _ Hp) as [Hv Hc].
    destruct (pass1_loop pages _) as [rest r] eqn:Hr.
    intros [= _ ->]. rewrite (IH _ _ _ uid Hr).
    unfold page_blocks. cbn [flat_map]. fold (page_blocks pages).
    rewrite filter_app, last_app.
    destruct (last (filter _ (page_blocks pages))) as [[q b]|]; [done|].
    rewrite last_filter_page. unfold collectBlocks.
    rewrite (collectBlocks_fold (Page.value p') 0), fold_ins_lookup, Hc, Hv.
    unfold Children, Page_Parent.
    by destruct (last_with_uid uid _).
Qed.

(** X19: in the index that [pass1] returns, a uid leads to the last block
    of the corpus, in the order of the pages and of the blocks in each
    page, that carries it; the block is stored with a copy of its page
    that holds the title of the page as it was given and the daily flag
    set for a daily title.  A uid that no block carries is not in the
    index. *)
Theorem pass1_index :
  forall (pages pages' : list Page.t) (uidBlock : gmap string Child.t)
         (st st' : state) (uid : string),
    pass1 pages st = (pages', Ok uidBlock, st') ->
    uidBlock !! uid
    = match last (filter (fun pb : Page.t * Child.t => Child.UID pb.2 = uid)
                    (page_blocks pages)) with
      | Some (p, b) =>
          Some (Child.set_Page b
                  (PageValue.mk (Page.Title p) (copy_IsDaily p)))
      | None => None
      end.
Proof.
  intros pages pages' uidBlock st st' uid. unfold pass1.
  destruct (pass1_loop pages ∅) as [ps r] eqn:Hl.
  intros [= -> -> _]. by rewrite (pass1_loop_lookup _ _ _ _ uid Hl).
Qed.

Lemma pass1_index_witness :
  (<["abc123456" := Child.mk "abc123456" "second" [] 0
                      (PageValue.mk "May 2nd, 2020" true)]> ∅
     : gmap string Child.t) !! "abc123456"
  = match
      last (filter (fun pb : Page.t * Child.t => Child.UID pb.2 = "abc123456")
              (page_blocks
                 [page "Notes" [block "abc123456" "first" []];
                  page "May 2nd, 2020" [block "abc123456" "second" []]]))
    with
    | Some (p, b) =>
        Some (Child.set_Page b (PageValue.mk (Page.Title p) (copy_IsDaily p)))
    | None => None
    end.
Proof.
  refine (pass1_index
            [page "Notes" [block "abc123456" "first" []];
             page "May 2nd, 2020" [block "abc123456" "second" []]]
            [page "Notes" [block "abc123456" "first" []];
             page "2020-05-02" [block "abc123456" "second" []]]
            _ initial_state _ "abc123456" _).
  vm_compute. reflexivity.
Defined.

(** ** The errors of the passes *)

Lemma replaceDayLinks_Err fuel s e :
  replaceDayLinks fuel s = Some (Err e) -> invalid_date_error e.
Proof.
  revert s. induction fuel as [|fuel IH]; intros s; [done|].
  cbn [replaceDayLinks].
  destruct (reDayLink_FindStringSubmatchIndex s) as [m|]; [|done].
  destruct (parseRoamDate _) as [[g ok]|pe] eqn:Hp; [apply IH|].
  intros [= <-]. by eexists _, _.
Qed.

Lemma replaceBlockRefs_outcome fuel s uidBlock st r st' :
  replaceBlockRefs fuel s uidBlock st = Some (r, st') ->
  fs_trace st' = fs_trace st
  /\ forall e, r = Err e -> invalid_date_error e.
Proof.
  unfold replaceBlockRefs.
  destruct (replaceBlockRefs_loop fuel uidBlock s st) as [[u st1]|] eqn:Hl;
    [|done].
  destruct (replaceDayLinks fuel u) as [r'|] eqn:Hd; [|done].
  intros [= <- <-]. split.
  - by destruct (replaceBlockRefs_loop_step _ _ _ _ _ _ Hl).
  - intros e ->. by eapply replaceDayLinks_Err.
Qed.

Section ExpandOutcome.
Variable fuel : nat.
Variable uidBlock : gmap string Child.t.

Lemma range_children_outcome level children :
  Forall (fun b => forall st r st',
            expandChild fuel uidBlock level b st = Some (r, st') ->
            fs_trace st' = fs_trace st
            /\ forall e, r = Err e -> invalid_date_error e) children ->
  forall st r st',
    range_children (expandChild fuel uidBlock level) children st = Some (r, st') ->
    fs_trace st' = fs_trace st
    /\ forall e, r = Err e -> invalid_date_error e.
Proof.
  induction 1 as [|b children Hb _ IH]; intros st r st'; cbn [range_children].
  - by intros [= <- <-].
  - unfold mbind, M_bind, bind.
    destruct (expandChild fuel uidBlock level b st) as [[[l1|e1] st1]|] eqn:H1;
      [|by intros [= <- <-]; eapply Hb|done].
    destruct (Hb _ _ _ H1) as [F1 _].
    destruct (range_children _ children st1) as [[[l2|e2] st2]|] eqn:H2;
      [| |done].
    + intros [= <- <-]. destruct (IH _ _ _ H2) as [F2 _].
      split; [congruence|done].
    + intros [= <- <-]. destruct (IH _ _ _ H2) as [F2 E2].
      split; [congruence|done].
Qed.

Lemma expandChild_outcome b :
  forall level st r st',
    expandChild fuel uidBlock level b st = Some (r, st') ->
    fs_trace st' = fs_trace st
    /\ forall e, r = Err e -> invalid_date_error e.
Proof.
  induction b as [uid s children h pg IH] using Child_tree_ind.
  intros level st r st'. rewrite expandChild_unfold.
  unfold mbind, M_bind, bind. cbn [Child.String Child.RawChildren].
  destruct (replaceBlockRefs fuel s uidBlock st) as [[[u|e1] st1]|] eqn:H1;
    [| |done];
    destruct (replaceBlockRefs_outcome _ _ _ _ _ _ H1) as [F1 E1];
    [|intros [= <- <-]; split; [done|]; intros e [= <-]; by apply E1].
  destruct (range_children _ children st1) as [[[l2|e2] st2]|] eqn:H2;
    [| |done].
  - intros [= <- <-].
    destruct (range_children_outcome (S level) children) with (2 := H2)
      as [F2 _]; [by eapply Forall_impl; [exact IH|]; eauto|].
    split; [congruence|done].
  - intros [= <- <-].
    destruct (range_children_outcome (S level) children) with (2 := H2)
      as [F2 E2]; [by eapply Forall_impl; [exact IH|]; eauto|].
    split; [congruence|done].
Qed.

Lemma expandChildren_outcome {P} `{Parent P} (parent : P) level st r st' :
  expandChildren fuel uidBlock parent level st = Some (r, st') ->
  fs_trace st' = fs_trace st
  /\ forall e, r = Err e -> invalid_date_error e.
Proof.
  apply range_children_outcome, Forall_forall. intros b _.
  apply expandChild_outcome.
Qed.

End ExpandOutcome.

Lemma pass2_loop_outcome fuel pages uidBlock st r st' :
  pass2_loop fuel pages uidBlock st = Some (r, st') ->
  fs_trace st' = fs_trace st
  /\ forall e, r = Err e ->
       exists e0, e = Errorf "pass2: %w" [] e0 /\ invalid_date_error e0.
Proof.
  revert st. induction pages as [|page pages IH]; intros st; cbn [pass2_loop].
  - by intros [= <- <-].
  - destruct (expandChildren fuel uidBlock page 0 st) as [[[l|e1] st1]|] eqn:H1;
      [| |done].
    + destruct (expandChildren_outcome _ _ _ _ _ _ _ H1) as [F1 _].
      intros [F2 E2]%IH. split; [congruence|done].
    + destruct (expandChildren_outcome _ _ _ _ _ _ _ H1) as [F1 E1].
      intros [= <- <-]. split; [done|].
      intros e [= <-]. eexists. split; [done|]. by apply E1.
Qed.

(** X20: the only error that [pass2] returns is the error that
    [replaceDayLinks] builds for a day link whose title is no date of
    the calendar, wrapped by [pass2]; and [pass2] makes no file-system
    call, whatever it returns. *)
Theorem pass2_error :
  forall (fuel : nat) (pages : list Page.t) (uidBlock : gmap string Child.t)
         (st st' : state) (r : res unit),
    pass2 fuel pages uidBlock st = Some (r, st') ->
    fs_trace st' = fs_trace st
    /\ forall e, r = Err e ->
         exists d pe,
           e = Errorf "pass2: %w" [] (Errorf "invalid date %q: %w" [d] pe)
           /\ parseRoamDate d = Err pe.
Proof.
  intros fuel pages uidBlock st st' r. unfold pass2.
  intros [F E]%pass2_loop_outcome. split; [done|].
  intros e (e0 & -> & d & pe & -> & Hp)%E. by exists d, pe.
Qed.

Lemma pass2_error_witness :
  fs_trace (State ∅ ["Pass 2: track blockrefs"] []) = fs_trace initial_state
  /\ forall e,
       @Err unit
         (Errorf "pass2: %w" []
            (Errorf "invalid date %q: %w" ["April 31st, 2024"]
               (ParseError "January _2 2006" "April 31 2024" EmptyString
                  EmptyString ": day out of range"))) = Err e ->
       exists d pe,
         e = Errorf "pass2: %w" [] (Errorf "invalid date %q: %w" [d] pe)
         /\ parseRoamDate d = Err pe.
Proof.
  refine (pass2_error 1
            [page "Notes" [block "xyz987654" "due [[April 31st, 2024]]" []]]
            ∅ initial_state (State ∅ ["Pass 2: track blockrefs"] []) _ _).
  vm_compute. reflexivity.
Defined.

(** ** Pass 3 after pass 2 *)

Lemma pass3_outcome `{OS} fuel uidBlock R outDir pages :
  Forall (fun page => closed fuel uidBlock R 0 (Children page)) pages ->
  forall st, referencedUID st = R ->
  exists r st' done,
    pass3 fuel pages uidBlock outDir st = Some (r, st')
    /\ referencedUID st' = R
    /\ fs_trace st' = fs_trace st ++ done
    /\ match r with
       | Ok _ => done = flat_map (page_calls fuel uidBlock R outDir) pages
       | Err e =>
           exists op rest,
             flat_map (page_calls fuel uidBlock R outDir) pages
             = done ++ op :: rest
             /\ os_fail (fs_trace st ++ done) op = Some e
       end.
Proof.
  intros Hcl. induction Hcl as [|page pages Hpage _ IH]; intros st Hst.
  { exists (Ok tt), st, []. by rewrite app_nil_r. }
  cbn [pass3 flat_map]. unfold page_calls at 1 3.
  destruct (String.eqb (Page.Title page) EmptyString); [by apply IH|].
  fold (page_dest outDir page).
  unfold mbind, M_bind, bind, os_call at 1.
  destruct (os_fail (fs_trace st) (MkdirAll _)) as [e|] eqn:Hmk.
  { exists (Err e), st, []. rewrite !app_nil_r. repeat split; try done.
    by eexists _, _. }
  set (st1 := State _ _ _).
  destruct (range_children_closed fuel uidBlock R 0 (Children page))
    with (st := st1) as (st2 & H2 & Hst2 & Hf2); [|done|done|].
  { apply Forall_forall. intros b _. apply expandChild_closed. }
  unfold expandChildren. rewrite H2. unfold os_call.
  destruct (os_fail (fs_trace st2) (WriteFile _ _)) as [e|] eqn:Hwr.
  { exists (Err e), st2, [MkdirAll (filepath_Dir (page_dest outDir page))].
    repeat split; try done. eexists _, _. split; [done|].
    by rewrite <- Hwr, Hf2. }
  set (st3 := State _ _ _).
  destruct (IH st3 Hst2) as (r & st4 & done & H4 & Hst4 & Hf4 & Hr).
  exists r, st4,
    (MkdirAll (filepath_Dir (page_dest outDir page))
       :: WriteFile (page_dest outDir page)
            (Join (rendered_lines fuel uidBlock R 0 (Children page))
               (String newline EmptyString)) :: done).
  split; [done|]. split; [done|]. split.
  { rewrite Hf4. subst st3 st1. cbn [fs_trace]. rewrite Hf2. cbn [fs_trace].
    by rewrite <- !app_assoc. }
  destruct r as [u|e]; [by rewrite Hr|].
  destruct Hr as (op & rest & Hall & Hfail). exists op, rest.
  split; [by rewrite Hall|].
  rewrite <- Hfail. f_equal. subst st3 st1. cbn [fs_trace]. rewrite Hf2.
  cbn [fs_trace]. by rewrite <- !app_assoc.
Qed.

(** X21: after a pass 2 that returned without error, pass 3 returns: the
    resolutions of pass 3 give what they gave in pass 2, so the only
    error left is that of a file-system call.  The calls made are, in
    order, those that create the directory of a page and write its
    lines, page by page, up to the first call that fails; the error of
    that call is returned and nothing is attempted after it. *)
Theorem pass3_after_pass2 :
  forall (env : OS) (fuel : nat) (pages : list Page.t)
         (uidBlock : gmap string Child.t) (outDir : string) (st0 st2 : state),
    referencedUID st0 = ∅ ->
    pass2 fuel pages uidBlock st0 = Some (Ok tt, st2) ->
    exists r st3 done,
      pass3 fuel pages uidBlock outDir st2 = Some (r, st3)
      /\ fs_trace st3 = fs_trace st2 ++ done
      /\ match r with
         | Ok _ =>
             done = flat_map (final_calls fuel uidBlock (referencedUID st2) outDir)
                      pages
         | Err e =>
             exists op rest,
               flat_map (final_calls fuel uidBlock (referencedUID st2) outDir)
                 pages
               = done ++ op :: rest
               /\ os_fail (fs_trace st2 ++ done) op = Some e
         end.
Proof.
  intros env fuel pages uidBlock outDir st0 st2 H0 Hrun.
  destruct (pass2_closed _ _ _ _ _ H0 Hrun) as [_ Hcl].
  destruct (pass3_outcome fuel uidBlock (referencedUID st2) outDir pages Hcl
              st2 eq_refl) as (r & st3 & done & H3 & _ & Hf & Hr).
  exists r, st3, done. split; [done|]. split; [done|].
  assert (E : flat_map (final_calls fuel uidBlock (referencedUID st2) outDir) pages
              = flat_map (page_calls fuel uidBlock (referencedUID st2) outDir) pages).
  { apply flat_map_ext. intros page. symmetry. apply page_calls_final. }
  by rewrite E.
Qed.

Lemma pass3_after_pass2_witness :
  (exists r st3 done,
      @pass3 (os_without "out/Notes.md" corpus) 1 corpus corpus_index "out"
        (State {["abc123456"]} ["Pass 2: track blockrefs"] [])
      = Some (r, st3)
      /\ fs_trace st3
         = fs_trace (State {["abc123456"]} ["Pass 2: track blockrefs"] []) ++ done
      /\ match r with
         | Ok _ =>
             done
             = flat_map
                 (@final_calls (os_without "out/Notes.md" corpus) 1 corpus_index
                    (referencedUID
                       (State {["abc123456"]} ["Pass 2: track blockrefs"] []))
                    "out") corpus
         | Err e =>
             exists op rest,
               flat_map
                 (@final_calls (os_without "out/Notes.md" corpus) 1 corpus_index
                    (referencedUID
                       (State {["abc123456"]} ["Pass 2: track blockrefs"] []))
                    "out") corpus
               = done ++ op :: rest
               /\ @os_fail (os_without "out/Notes.md" corpus)
                    (fs_trace
                       (State {["abc123456"]} ["Pass 2: track blockrefs"] [])
                       ++ done) op
                  = Some e
         end)
  /\ @pass3 (os_without "out/Notes.md" corpus) 1 corpus corpus_index "out"
       (State {["abc123456"]} ["Pass 2: track blockrefs"] [])
     = Some (Err (OSError "open" "out/Notes.md"),
             State {["abc123456"]} ["Pass 2: track blockrefs"]
               [MkdirAll "out";
                WriteFile "out/2024-01-05.md" "Buy milk ^abc123456";
                MkdirAll "out"]).
Proof.
  split; [|vm_compute; reflexivity].
  refine (pass3_after_pass2 (os_without "out/Notes.md" corpus) 1 corpus
            corpus_index "out" initial_state
            (State {["abc123456"]} ["Pass 2: track blockrefs"] []) eq_refl _).
  vm_compute. reflexivity.
Defined.

(** ** The outcomes of a run *)

Lemma pass1_loop_Err pages m pages' e :
  pass1_loop pages m = (pages', Err e) ->
  exists pe, e = Errorf "parse page date: %w" [] pe /\ is_ParseError pe.
Proof.
  revert m pages'. induction pages as [|p pages IH]; intros m pages';
    cbn [pass1_loop]; [done|].
  unfold parsePageDate.
  destruct (parseRoamDate (Page.Title p)) as [[t ok]|pe] eqn:Hp.
  - destruct (pass1_loop pages _) as [rest r] eqn:Hr.
    intros [= _ ->]. by eapply IH.
  - intros [= _ <-]. exists pe. split; [done|]. by eapply parseRoamDate_Err.
Qed.

(** X22: the errors of [run], case by case.  An error of the
    configuration or of the loading, an invalid title in pass 1 and an
    invalid day link in pass 2 are returned wrapped and before any
    file-system call; in pass 3 the only error is that of a file-system
    call, returned as it is, after the calls that succeeded. *)
Theorem run_error_cases :
  forall (env : OS) (fuel : nat) (ac : appConfig) (e : error) (st : state),
    run fuel ac = Some (Err e, st) ->
    (exists e0,
        e = Errorf "invalid config: %w" [] e0
        /\ Validate ac = Err e0 /\ st = initial_state)
    \/ (exists ac' e0,
           e = Errorf "load JSON: %w" [] e0
           /\ Validate ac = Ok ac' /\ loadJSON (input ac') = Err e0
           /\ st = initial_state)
    \/ (exists pe,
           e = Errorf "pass1: %w" [] (Errorf "parse page date: %w" [] pe)
           /\ is_ParseError pe /\ fs_trace st = [])
    \/ (exists d pe,
           e = Errorf "pass2: %w" []
                 (Errorf "pass2: %w" [] (Errorf "invalid date %q: %w" [d] pe))
           /\ parseRoamDate d = Err pe /\ fs_trace st = [])
    \/ (exists op, os_fail (fs_trace st) op = Some e).
Proof.
  intros env fuel ac e st. unfold run.
  destruct (Validate ac) as [ac'|e0] eqn:Hv.
  2:{ intros [= <- <-]. left. by exists e0. }
  destruct (loadJSON (input ac')) as [pages|e0] eqn:Hl.
  2:{ intros [= <- <-]. right. left. by exists ac', e0. }
  unfold pass1.
  destruct (pass1_loop (attach_pages pages) ∅) as [pages1 [idx|e1]] eqn:H1.
  2:{ intros [= <- <-]. right. right. left.
      apply pass1_loop_Err in H1 as (pe & -> & Hpe). by exists pe. }
  set (st1 := set_referencedUID _ ∅).
  destruct (pass2 fuel pages1 idx st1) as [[[u|e2] st2]|] eqn:H2; [| |done].
  2:{ intros [= <- <-]. right. right. right. left.
      unfold pass2 in H2. apply pass2_loop_outcome in H2 as [F2 E2].
      destruct (E2 e2 eq_refl) as (e0 & -> & d & pe & -> & Hp).
      by exists d, pe. }
  destruct u.
  destruct (pass2_closed fuel pages1 idx st1 st2 eq_refl H2) as [_ Hcl].
  destruct (pass3_outcome fuel idx (referencedUID st2) (outDir ac') pages1 Hcl
              st2 eq_refl) as (r & st3 & done & H3 & _ & Hf & Hr).
  rewrite H3. intros [= -> <-]. right. right. right. right.
  destruct Hr as (op & rest & _ & Hfail). exists op. by rewrite Hf.
Qed.

Lemma run_error_cases_witness :
  let env :=
    os_without "out/Notes.md"
      [page "January 5th, 2024" [block "abc123456" "Buy milk" []];
       page "Notes" [block "xyz987654" "{{embed: ((abc123456))}}" []]] in
  let e := OSError "open" "out/Notes.md" in
  let st :=
    State {["abc123456"]}
      ["Pass 1: scan all pages"; "Pass 2: track blockrefs"]
      [MkdirAll "out"; WriteFile "out/2024-01-05.md" "Buy milk ^abc123456";
       MkdirAll "out"] in
  @run env 1 ac = Some (Err e, st)
  /\ ((exists e0,
         e = Errorf "invalid config: %w" [] e0
         /\ @Validate env ac = Err e0 /\ st = initial_state)
      \/ (exists ac' e0,
            e = Errorf "load JSON: %w" [] e0
            /\ @Validate env ac = Ok ac' /\ @loadJSON env (input ac') = Err e0
            /\ st = initial_state)
      \/ (exists pe,
            e = Errorf "pass1: %w" [] (Errorf "parse page date: %w" [] pe)
            /\ is_ParseError pe /\ fs_trace st = [])
      \/ (exists d pe,
            e = Errorf "pass2: %w" []
                  (Errorf "pass2: %w" [] (Errorf "invalid date %q: %w" [d] pe))
            /\ parseRoamDate d = Err pe /\ fs_trace st = [])
      \/ (exists op, @os_fail env (fs_trace st) op = Some e)).
Proof.
  intros env e st.
  assert (Hrun : @run env 1 ac = Some (Err e, st)) by (vm_compute; reflexivity).
  split; [exact Hrun|].
  exact (run_error_cases env 1 ac e st Hrun).
Defined.

(** X23: when [run] returns without error, the configuration was valid,
    the export was loaded, and the file-system calls of the run are
    exactly the calls that create the directory and write the lines of
    every page with a title, in the order of the pages as pass 1 left
    them, with the anchors decided by the set of referenced uids that
    the run ends with. *)
Theorem run_success :
  forall (env : OS) (fuel : nat) (ac : appConfig) (st : state),
    run fuel ac = Some (Ok tt, st) ->
    exists (ac' : appConfig) (pages pages1 : list Page.t)
           (uidBlock : gmap string Child.t),
      Validate ac = Ok ac'
      /\ loadJSON (input ac') = Ok pages
      /\ pass1_loop (attach_pages pages) ∅ = (pages1, Ok uidBlock)
      /\ fs_trace st
         = flat_map (final_calls fuel uidBlock (referencedUID st) (outDir ac'))
             pages1.
Proof.
  intros env fuel ac st. unfold run.
  destruct (Validate ac) as [ac'|e0] eqn:Hv; [|done].
  destruct (loadJSON (input ac')) as [pages|e0] eqn:Hl; [|done].
  unfold pass1.
  destruct (pass1_loop (attach_pages pages) ∅) as [pages1 [idx|e1]] eqn:H1;
    [|done].
  set (st1 := set_referencedUID _ ∅).
  destruct (pass2 fuel pages1 idx st1) as [[[u|e2] st2]|] eqn:H2; [|done..].
  destruct u.
  destruct (pass2_closed fuel pages1 idx st1 st2 eq_refl H2) as [_ Hcl].
  destruct (pass3_outcome fuel idx (referencedUID st2) (outDir ac') pages1 Hcl
              st2 eq_refl) as (r & st3 & done & H3 & HR & Hf & Hr).
  rewrite H3. intros [= -> <-].
  exists ac', pages, pages1, idx. repeat split; try done.
  rewrite Hf, Hr, HR.
  assert (F2 : fs_trace st2 = []).
  { unfold pass2 in H2. by apply pass2_loop_outcome in H2 as [-> _]. }
  rewrite F2. cbn [app]. apply flat_map_ext. intros page.
  apply page_calls_final.
Qed.

Lemma run_success_witness :
  let env :=
    os [page "January 5th, 2024" [block "abc123456" "Buy milk" []];
        page "Notes" [block "xyz987654" "{{embed: ((abc123456))}}" []]] in
  let st :=
    State {["abc123456"]}
      ["Pass 1: scan all pages"; "Pass 2: track blockrefs"]
      [MkdirAll "out"; WriteFile "out/2024-01-05.md" "Buy milk ^abc123456";
       MkdirAll "out";
       WriteFile "out/Notes.md" "Buy milk [[January 5th, 2024#^abc123456]]"] in
  @run env 1 ac = Some (Ok tt, st)
  /\ exists (ac' : appConfig) (pages pages1 : list Page.t)
            (uidBlock : gmap string Child.t),
       @Validate env ac = Ok ac'
       /\ @loadJSON env (input ac') = Ok pages
       /\ pass1_loop (attach_pages pages) ∅ = (pages1, Ok uidBlock)
       /\ fs_trace st
          = flat_map
              (@final_calls env 1 uidBlock (referencedUID st) (outDir ac'))
              pages1.
Proof.
  intros env st.
  assert (Hrun : @run env 1 ac = Some (Ok tt, st)) by (vm_compute; reflexivity).
  split; [exact Hrun|].
  exact (run_success env 1 ac st Hrun).
Defined.
